(** * pi-undo-redo: the snapshot engine, the change classifier and the
      undo/redo navigation, embedded from the TypeScript sources.

    Conventions of the embedding.
    - A JavaScript [Map] is an insertion-ordered association list
      ([JsMap]): iteration order is observable in the sources ([for ... of]
      loops that push to arrays or touch the disk entry after entry).
    - A directory on disk is a finite map from a name to the bytes of the
      file ([gmap string string]); a [Buffer] is a [string] (a list of
      bytes).  Directories are implicit: [mkdir {recursive: true}] always
      succeeds and changes nothing observable, and no path is both a file
      and a directory.  A manifest file ([base.json], a leaf file) is kept
      as the manifest it deserializes to.
    - What Node and the [diff] package provide (the digest, joining a
      root and a relative path, [Diff.diffLines]) is a parameter of the
      development, the class [Platform]; two absolute paths are one file
      when they are equal as strings.
    - An [async] function is a function of the world that returns the new
      world together with its outcome: a returned value or a rejection.
      The only rejection modelled is the one the sources can provoke
      themselves: reading a blob that is not in the blob directory.
    - JavaScript truthiness is written out: [if (leafId)] is false for
      [null] and for the empty string. *)

From Stdlib Require Import ZArith List String Ascii Bool Lia DecimalString.
From stdpp Require Import base gmap strings list.

Local Open Scope Z_scope.
Local Open Scope string_scope.
Local Open Scope list_scope.

(** ** JavaScript values *)

(** [!!s] for a string or [undefined]. *)
Definition truthy (s : string) : bool := negb (String.eqb s "").

Definition truthyOpt (s : option string) : bool :=
  match s with
  | Some s => truthy s
  | None => false
  end.

(** [a !== b] for [string | undefined]. *)
Definition strictNeq (a b : option string) : bool :=
  match a, b with
  | Some x, Some y => negb (String.eqb x y)
  | None, None => false
  | _, _ => true
  end.

(** ** JavaScript [Map] with string keys *)

Module JsMap.

Definition t (V : Type) : Type := list (string * V).

Section Ops.
Context {V : Type}.

Fixpoint get (m : t V) (k : string) : option V :=
  match m with
  | [] => None
  | (k', v) :: m' => if String.eqb k' k then Some v else get m' k
  end.

Definition has (m : t V) (k : string) : bool :=
  match get m k with
  | Some _ => true
  | None => false
  end.

(** [m.set(k, v)]: an existing key keeps its position, a new key goes
    last. *)
Fixpoint set (m : t V) (k : string) (v : V) : t V :=
  match m with
  | [] => [(k, v)]
  | (k', v') :: m' =>
      if String.eqb k' k then (k', v) :: m' else (k', v') :: set m' k v
  end.

Fixpoint delete (m : t V) (k : string) : t V :=
  match m with
  | [] => []
  | (k', v') :: m' =>
      if String.eqb k' k then m' else (k', v') :: delete m' k
  end.

Definition keys (m : t V) : list string := map fst m.

Definition values (m : t V) : list V := map snd m.

(** [new Map(iterable)]: the entries are set one after the other. *)
Definition new_Map (entries : list (string * V)) : t V :=
  fold_left (fun acc kv => set acc (fst kv) (snd kv)) entries [].

(** The representation invariant of a [Map]: no key occurs twice. *)
Definition wf (m : t V) : Prop := NoDup (keys m).

End Ops.

End JsMap.

(** ** types.ts *)

Module FileState.
Record t : Type := mk {
  exists_ : bool;
  hash : option string;
  size : option Z;
  binary : option bool
}.

(** The literal [{ exists: false }]. *)
Definition absent : t :=
  {| exists_ := false; hash := None; size := None; binary := None |}.
End FileState.

Definition Manifest : Type := JsMap.t FileState.t.

Record TrackedStats : Type := {
  fileCount : Z;
  totalBytes : Z
}.

Module SandboxEntryStats.
Record t : Type := mk {
  size : Z;
  mtimeMs : Z
}.
End SandboxEntryStats.

Inductive ChangeType : Type := added_ | modified_ | deleted_.

(** One change object of [Diff.diffLines]. *)
Module Part.
Record t : Type := mk {
  added : bool;
  removed : bool;
  value : string
}.
End Part.

(** ** diff-stack.ts: the change classifier *)

Inductive ChangeLetter : Type := A | M | D.

(** [entry?.exists ?? false] *)
Definition existsOf (entry : option FileState.t) : bool :=
  match entry with
  | Some e => FileState.exists_ e
  | None => false
  end.

(** [entry?.hash] *)
Definition hashOf (entry : option FileState.t) : option string :=
  match entry with
  | Some e => FileState.hash e
  | None => None
  end.

Definition describeChange (baseEntry leafEntry : option FileState.t)
  : option ChangeLetter :=
  let baseExists := existsOf baseEntry in
  let leafExists := existsOf leafEntry in
  if negb baseExists && leafExists then Some A
  else if baseExists && negb leafExists then Some D
  else if baseExists && leafExists
          && strictNeq (hashOf baseEntry) (hashOf leafEntry)
  then Some M
  else None.

Definition toChangeType (change : ChangeLetter) : ChangeType :=
  match change with
  | A => added_
  | M => modified_
  | D => deleted_
  end.

(** ** sandbox.ts: the stat diff *)

Record StatsDiff : Type := {
  added : list string;
  removed : list string;
  changed : list string
}.

(** [previous.size !== entry.size || previous.mtimeMs !== entry.mtimeMs];
    the numbers come from [stat] and are finite, so [!==] is
    disequality. *)
Definition statsDiffer (previous entry : SandboxEntryStats.t) : bool :=
  negb (Z.eqb (SandboxEntryStats.size previous) (SandboxEntryStats.size entry))
  || negb (Z.eqb (SandboxEntryStats.mtimeMs previous)
                 (SandboxEntryStats.mtimeMs entry)).

(** The body of the first loop: one entry of [after]. *)
Definition diffAfterEntry (before : JsMap.t SandboxEntryStats.t)
    (acc : list string * list string)
    (kv : string * SandboxEntryStats.t) : list string * list string :=
  let '(addedAcc, changedAcc) := acc in
  let '(filePath, entry) := kv in
  match JsMap.get before filePath with
  | None => (addedAcc ++ [filePath], changedAcc)
  | Some previous =>
      if statsDiffer previous entry
      then (addedAcc, changedAcc ++ [filePath])
      else (addedAcc, changedAcc)
  end.

(** The body of the second loop: one key of [before]. *)
Definition diffBeforeKey (after : JsMap.t SandboxEntryStats.t)
    (removedAcc : list string) (filePath : string) : list string :=
  if JsMap.has after filePath then removedAcc else removedAcc ++ [filePath].

Definition diffSandboxStats (before after : JsMap.t SandboxEntryStats.t)
  : StatsDiff :=
  let '(addedL, changedL) := fold_left (diffAfterEntry before) after ([], []) in
  let removedL := fold_left (diffBeforeKey after) (JsMap.keys before) [] in
  {| added := addedL; removed := removedL; changed := changedL |}.

(** ** The world the tracker runs in *)

(** cache.ts: what the cache root holds on disk.  A manifest file is kept
    as the manifest it deserializes to. *)
Record CacheStore : Type := {
  blobsDir : gmap string string;      (* blobs/<hash> -> bytes *)
  basePath : option Manifest;         (* base.json *)
  leavesDir : gmap string Manifest    (* leaves/<leafId>.json *)
}.

(** tracker.ts: the fields of a [SnapshotTracker]. *)
Record SnapshotTracker : Type := {
  realRoot : string;
  sandboxRoot : string;
  onStats : bool;                     (* whether the callback was given *)
  baseManifest : Manifest;
  trackedManifest : Manifest;
  leafCache : JsMap.t Manifest
}.

(** [disk] maps an absolute path to the bytes of the file there;
    [statsLog] lists the calls of the tracker's [onStats] callback, the
    latest last. *)
Record World : Type := {
  disk : gmap string string;
  cacheStore : CacheStore;
  tracker : SnapshotTracker;
  statsLog : list TrackedStats
}.

Definition withDisk (d : gmap string string) (w : World) : World :=
  {| disk := d; cacheStore := cacheStore w; tracker := tracker w;
     statsLog := statsLog w |}.

Definition withCacheStore (c : CacheStore) (w : World) : World :=
  {| disk := disk w; cacheStore := c; tracker := tracker w;
     statsLog := statsLog w |}.

Definition withTracker (t : SnapshotTracker) (w : World) : World :=
  {| disk := disk w; cacheStore := cacheStore w; tracker := t;
     statsLog := statsLog w |}.

Definition withStatsLog (l : list TrackedStats) (w : World) : World :=
  {| disk := disk w; cacheStore := cacheStore w; tracker := tracker w;
     statsLog := l |}.

Definition withBlobsDir (b : gmap string string) (c : CacheStore) : CacheStore :=
  {| blobsDir := b; basePath := basePath c; leavesDir := leavesDir c |}.

Definition withBasePath (m : option Manifest) (c : CacheStore) : CacheStore :=
  {| blobsDir := blobsDir c; basePath := m; leavesDir := leavesDir c |}.

Definition withLeavesDir (l : gmap string Manifest) (c : CacheStore) : CacheStore :=
  {| blobsDir := blobsDir c; basePath := basePath c; leavesDir := l |}.

Definition withBaseManifest (m : Manifest) (t : SnapshotTracker) : SnapshotTracker :=
  {| realRoot := realRoot t; sandboxRoot := sandboxRoot t;
     onStats := onStats t; baseManifest := m;
     trackedManifest := trackedManifest t; leafCache := leafCache t |}.

Definition withTrackedManifest (m : Manifest) (t : SnapshotTracker) : SnapshotTracker :=
  {| realRoot := realRoot t; sandboxRoot := sandboxRoot t;
     onStats := onStats t; baseManifest := baseManifest t;
     trackedManifest := m; leafCache := leafCache t |}.

Definition withLeafCache (c : JsMap.t Manifest) (t : SnapshotTracker) : SnapshotTracker :=
  {| realRoot := realRoot t; sandboxRoot := sandboxRoot t;
     onStats := onStats t; baseManifest := baseManifest t;
     trackedManifest := trackedManifest t; leafCache := c |}.

(** ** Asynchronous functions *)

Inductive Outcome (T : Type) : Type :=
| Returned (value : T)
| Rejected (message : string).

Arguments Returned {T} value.
Arguments Rejected {T} message.

Definition IO (T : Type) : Type := World -> World * Outcome T.

Definition ret {T : Type} (v : T) : IO T := fun w => (w, Returned v).

(** [await c; k]: a rejection of [c] leaves the function at once. *)
Definition bind {T U : Type} (c : IO T) (k : T -> IO U) : IO U :=
  fun w =>
    match c w with
    | (w', Returned v) => k v w'
    | (w', Rejected message) => (w', Rejected message)
    end.

Declare Scope io_scope.
Delimit Scope io_scope with io.
Bind Scope io_scope with IO.

Notation "x <- c ;; k" := (bind c (fun x => k))
  (at level 100, c at next level, right associativity) : io_scope.

Notation "c ;; k" := (bind c (fun _ => k))
  (at level 100, right associativity) : io_scope.

(** [for (const x of l) { await body(x) }] *)
Fixpoint forOf {T : Type} (l : list T) (body : T -> IO unit) : IO unit :=
  match l with
  | [] => ret tt
  | x :: l' => (body x ;; forOf l' body)%io
  end.

Definition modify (f : World -> World) : IO unit := fun w => (f w, Returned tt).

Definition gets {T : Type} (f : World -> T) : IO T := fun w => (w, Returned (f w)).

(** ** node:fs/promises, as the tests use it *)

Definition writeFile (absPath content : string) : IO unit :=
  modify (fun w => withDisk (<[absPath := content]> (disk w)) w).

Definition readFile (absPath : string) : IO string :=
  fun w =>
    match disk w !! absPath with
    | Some content => (w, Returned content)
    | None => (w, Rejected "ENOENT")
    end.

Definition cp (source target : string) : IO unit :=
  (content <- readFile source ;; writeFile target content)%io.

(** ** tracker.ts: snapshots *)

Module SnapshotData.
Record t : Type := mk {
  exists_ : bool;
  buffer : option string;
  hash : option string;
  size : option Z;
  binary : option bool
}.

Definition absent : t :=
  {| exists_ := false; buffer := None; hash := None; size := None;
     binary := None |}.
End SnapshotData.

(** [buffer.includes(0)] *)
Fixpoint includes0 (buffer : string) : bool :=
  match buffer with
  | EmptyString => false
  | String c rest => Ascii.eqb c Ascii.zero || includes0 rest
  end.

(** ** What the platform provides *)

(** Node and the [diff] package: [hashBuffer] is
    [createHash("sha256").update(buffer).digest("hex")], [utf8RoundTrips]
    tells whether [Buffer.from(buffer.toString("utf-8"), "utf-8")] equals
    [buffer], [joinPath root relativePath] is
    [path.join(root, fromPosix(relativePath))], and [diffLines] is
    [Diff.diffLines]. *)
Class Platform : Type := {
  hashBuffer : string -> string;
  utf8RoundTrips : string -> bool;
  joinPath : string -> string -> string;
  diffLines : string -> string -> list Part.t
}.

Section Engine.
Context {platform : Platform}.

Definition isBinaryBuffer (buffer : string) : bool :=
  if includes0 buffer then true else negb (utf8RoundTrips buffer).

(** [readFile] either yields the bytes or fails with ENOENT, which
    [readSnapshot] turns into [{ exists: false }]. *)
Definition readSnapshot (absPath : string) : IO SnapshotData.t :=
  fun w =>
    match disk w !! absPath with
    | Some buffer =>
        (w, Returned
              {| SnapshotData.exists_ := true;
                 SnapshotData.buffer := Some buffer;
                 SnapshotData.hash := Some (hashBuffer buffer);
                 SnapshotData.size := Some (Z.of_nat (String.length buffer));
                 SnapshotData.binary := Some (isBinaryBuffer buffer) |})
    | None => (w, Returned SnapshotData.absent)
    end.

(** ** cache.ts *)

Definition writeBlob (hash buffer : string) : IO unit :=
  fun w =>
    match blobsDir (cacheStore w) !! hash with
    | Some _ => (w, Returned tt)
    | None =>
        (withCacheStore
           (withBlobsDir (<[hash := buffer]> (blobsDir (cacheStore w)))
                         (cacheStore w)) w,
         Returned tt)
    end.

Definition readBlob (hash : string) : IO string :=
  fun w =>
    match blobsDir (cacheStore w) !! hash with
    | Some buffer => (w, Returned buffer)
    | None => (w, Rejected "ENOENT")
    end.

Definition readBase : IO (option Manifest) :=
  gets (fun w => basePath (cacheStore w)).

Definition writeBase (manifest : Manifest) : IO unit :=
  modify (fun w => withCacheStore (withBasePath (Some manifest) (cacheStore w)) w).

Definition readLeaf (leafId : string) : IO (option Manifest) :=
  gets (fun w => leavesDir (cacheStore w) !! leafId).

Definition writeLeaf (leafId : string) (manifest : Manifest) : IO unit :=
  modify (fun w =>
    withCacheStore
      (withLeavesDir (<[leafId := manifest]> (leavesDir (cacheStore w)))
                     (cacheStore w)) w).

(** ** tracker.ts *)

Definition writeSnapshotToCache (snapshot : SnapshotData.t) : IO FileState.t :=
  if negb (SnapshotData.exists_ snapshot) then ret FileState.absent
  else
    match SnapshotData.buffer snapshot, SnapshotData.hash snapshot with
    | Some buffer, Some hash =>
        if truthy hash then
          (writeBlob hash buffer ;;
           ret {| FileState.exists_ := true;
                  FileState.hash := Some hash;
                  FileState.size := SnapshotData.size snapshot;
                  FileState.binary := SnapshotData.binary snapshot |})%io
        else ret FileState.absent
    | _, _ => ret FileState.absent
    end.

Definition loadBase : IO unit :=
  (base <- readBase ;;
   match base with
   | Some base =>
       modify (fun w => withTracker (withBaseManifest base (tracker w)) w)
   | None => ret tt
   end)%io.

Definition getTrackedStats (t : SnapshotTracker) : TrackedStats :=
  fold_left
    (fun acc entry =>
       if negb (FileState.exists_ entry) then acc
       else {| fileCount := fileCount acc + 1;
               totalBytes := totalBytes acc
                             + match FileState.size entry with
                               | Some n => n
                               | None => 0
                               end |})
    (JsMap.values (trackedManifest t))
    {| fileCount := 0; totalBytes := 0 |}.

(** [this.onStats?.(this.getTrackedStats())] *)
Definition emitStats : IO unit :=
  modify (fun w =>
    if onStats (tracker w) then
      withStatsLog (statsLog w ++ [getTrackedStats (tracker w)]) w
    else w).

Definition setTrackedManifest (manifest : Manifest) : IO unit :=
  (modify (fun w =>
     withTracker (withTrackedManifest (JsMap.new_Map manifest) (tracker w)) w) ;;
   emitStats)%io.

Definition ensureBase (relativePath sourceRoot : string) : IO unit :=
  fun w =>
    if JsMap.has (baseManifest (tracker w)) relativePath then (w, Returned tt)
    else
      (let absPath := joinPath sourceRoot relativePath in
       snapshot <- readSnapshot absPath ;;
       entry <- writeSnapshotToCache snapshot ;;
       modify (fun w =>
         withTracker
           (withBaseManifest
              (JsMap.set (baseManifest (tracker w)) relativePath entry)
              (tracker w)) w) ;;
       base <- gets (fun w => baseManifest (tracker w)) ;;
       writeBase base)%io w.

Definition ensureBaseFromSandbox (relativePath : string) : IO unit :=
  fun w => ensureBase relativePath (sandboxRoot (tracker w)) w.

Definition ensureBaseFromDisk (relativePath : string) : IO unit :=
  fun w => ensureBase relativePath (realRoot (tracker w)) w.

Definition updateFromSandbox (relativePath : string) : IO FileState.t :=
  fun w =>
    (let absPath := joinPath (sandboxRoot (tracker w)) relativePath in
     snapshot <- readSnapshot absPath ;;
     entry <- writeSnapshotToCache snapshot ;;
     modify (fun w =>
       withTracker
         (withTrackedManifest
            (JsMap.set (trackedManifest (tracker w)) relativePath entry)
            (tracker w)) w) ;;
     emitStats ;;
     ret entry)%io w.

Definition markDeleted (relativePath : string) : IO unit :=
  (modify (fun w =>
     withTracker
       (withTrackedManifest
          (JsMap.set (trackedManifest (tracker w)) relativePath FileState.absent)
          (tracker w)) w) ;;
   emitStats)%io.

Definition saveLeaf (leafId : option string) : IO unit :=
  match leafId with
  | None => ret tt
  | Some leafId =>
      if negb (truthy leafId) then ret tt
      else
        (tracked <- gets (fun w => trackedManifest (tracker w)) ;;
         let snapshot := JsMap.new_Map tracked in
         modify (fun w =>
           withTracker
             (withLeafCache (JsMap.set (leafCache (tracker w)) leafId snapshot)
                            (tracker w)) w) ;;
         writeLeaf leafId snapshot)%io
  end.

Definition loadLeaf (leafId : string) : IO (option Manifest) :=
  (cached <- gets (fun w => JsMap.get (leafCache (tracker w)) leafId) ;;
   match cached with
   | Some cached => ret (Some (JsMap.new_Map cached))
   | None =>
       manifest <- readLeaf leafId ;;
       match manifest with
       | Some manifest =>
           modify (fun w =>
             withTracker
               (withLeafCache
                  (JsMap.set (leafCache (tracker w)) leafId manifest)
                  (tracker w)) w) ;;
           ret (Some (JsMap.new_Map manifest))
       | None => ret None
       end
   end)%io.

(** One turn of the loop of [applyManifest]. *)
Definition applyEntry (targetRoot : string) (kv : string * FileState.t)
  : IO unit :=
  let '(relativePath, entry) := kv in
  let absPath := joinPath targetRoot relativePath in
  if negb (FileState.exists_ entry) then
    modify (fun w => withDisk (delete absPath (disk w)) w)
  else if negb (truthyOpt (FileState.hash entry)) then ret tt
  else
    match FileState.hash entry with
    | Some hash =>
        (buffer <- readBlob hash ;;
         modify (fun w => withDisk (<[absPath := buffer]> (disk w)) w))%io
    | None => ret tt
    end.

Definition applyManifest (manifest : Manifest) (targetRoot : string) : IO unit :=
  forOf manifest (applyEntry targetRoot).

(** The manifest [restoreLeaf] builds before it touches a root: a copy of
    the base with the entries of the leaf set over it; [None] when the
    function returns early because the leaf has no manifest. *)
Definition restoreManifest (leafId : option string) : IO (option Manifest) :=
  (base <- gets (fun w => baseManifest (tracker w)) ;;
   let manifest := JsMap.new_Map base in
   if truthyOpt leafId then
     match leafId with
     | Some leafId =>
         leafManifest <- loadLeaf leafId ;;
         match leafManifest with
         | None => ret None
         | Some leafManifest =>
             ret (Some (fold_left
                          (fun acc kv => JsMap.set acc (fst kv) (snd kv))
                          leafManifest manifest))
         end
     | None => ret (Some manifest)
     end
   else ret (Some manifest))%io.

Definition restoreLeaf (leafId : option string) (applyRoots : list string)
  : IO unit :=
  (manifest <- restoreManifest leafId ;;
   match manifest with
   | None => ret tt
   | Some manifest =>
       forOf applyRoots (fun root => applyManifest manifest root) ;;
       setTrackedManifest manifest
   end)%io.

(** ** index.ts: undo and redo as commands *)

Inductive Level : Type := info | warning | error.

Record Notice : Type := {
  noticeMessage : string;
  noticeLevel : Level
}.

(** The fields of [SessionState] the commands read or write. *)
Record SessionState : Type := {
  currentLeafId : option string;
  undoStack : list string;
  redoStack : list string;
  navigating : bool
}.

Record NavigateResult : Type := { cancelled : bool }.

(** The command context.  [waitForIdle] and [navigateTree] are the host's:
    each is absent or, when called, settles with a value or a thrown
    error; while the command awaits it the host may run other handlers of
    the extension, so each call also transforms the session. *)
Record CommandCtx : Type := {
  waitForIdle : option (SessionState -> SessionState * Outcome unit);
  navigateTree :
    option (string -> SessionState -> SessionState * Outcome NavigateResult)
}.

(** [a.pop()]: the last element, or [undefined], and the array left. *)
Definition pop (a : list string) : option string * list string :=
  (last a, removelast a).

(** [a.push(x)] *)
Definition push (a : list string) (x : string) : list string := a ++ [x].

Definition withNavigating (b : bool) (s : SessionState) : SessionState :=
  {| currentLeafId := currentLeafId s; undoStack := undoStack s;
     redoStack := redoStack s; navigating := b |}.

Definition withUndoStack (l : list string) (s : SessionState) : SessionState :=
  {| currentLeafId := currentLeafId s; undoStack := l;
     redoStack := redoStack s; navigating := navigating s |}.

Definition withRedoStack (l : list string) (s : SessionState) : SessionState :=
  {| currentLeafId := currentLeafId s; undoStack := undoStack s;
     redoStack := l; navigating := navigating s |}.

Definition withCurrentLeafId (l : option string) (s : SessionState) : SessionState :=
  {| currentLeafId := l; undoStack := undoStack s;
     redoStack := redoStack s; navigating := navigating s |}.

(** The [catch] block of [navigateTo]. *)
Definition navigateCatch (previousLeaf : option string)
    (previousUndo previousRedo : list string) (message : string)
    (session : SessionState) : SessionState * list Notice :=
  let session := withUndoStack ([] ++ previousUndo) session in
  let session := withRedoStack ([] ++ previousRedo) session in
  let session := withCurrentLeafId previousLeaf session in
  let session := withNavigating false session in
  (session, [{| noticeMessage := message; noticeLevel := warning |}]).

Definition navigateTo (ctx : CommandCtx) (session : SessionState)
    (targetId : string) : SessionState * list Notice :=
  let previousLeaf := currentLeafId session in
  let previousUndo := undoStack session in
  let previousRedo := redoStack session in
  let session := withNavigating true session in
  match waitForIdle ctx, navigateTree ctx with
  | Some waitForIdle, Some navigateTree =>
      match waitForIdle session with
      | (session, Rejected message) =>
          navigateCatch previousLeaf previousUndo previousRedo message session
      | (session, Returned _) =>
          match navigateTree targetId session with
          | (session, Rejected message) =>
              navigateCatch previousLeaf previousUndo previousRedo message
                            session
          | (session, Returned result) =>
              if cancelled result then
                navigateCatch previousLeaf previousUndo previousRedo
                              "Navigation cancelled" session
              else (session, [])
          end
      end
  | _, _ =>
      (withNavigating false session,
       [{| noticeMessage := "Undo/redo navigation requires interactive mode";
           noticeLevel := warning |}])
  end.

(** The handler of [/undo]; [state] is the extension's session, if it was
    initialized. *)
Definition undoCommand (ctx : CommandCtx) (state : option SessionState)
  : option SessionState * list Notice :=
  match state with
  | None =>
      (None, [{| noticeMessage := "Undo/redo extension not initialized";
                 noticeLevel := error |}])
  | Some session =>
      let '(targetId, rest) := pop (undoStack session) in
      let session := withUndoStack rest session in
      match targetId with
      | Some targetId =>
          if truthy targetId then
            let session :=
              if truthyOpt (currentLeafId session) then
                match currentLeafId session with
                | Some leaf => withRedoStack (push (redoStack session) leaf) session
                | None => session
                end
              else session in
            let '(session, notices) := navigateTo ctx session targetId in
            (Some session, notices)
          else
            (Some session,
             [{| noticeMessage := "No undo history"; noticeLevel := info |}])
      | None =>
          (Some session,
           [{| noticeMessage := "No undo history"; noticeLevel := info |}])
      end
  end.

(** The handler of [/redo]. *)
Definition redoCommand (ctx : CommandCtx) (state : option SessionState)
  : option SessionState * list Notice :=
  match state with
  | None =>
      (None, [{| noticeMessage := "Undo/redo extension not initialized";
                 noticeLevel := error |}])
  | Some session =>
      let '(targetId, rest) := pop (redoStack session) in
      let session := withRedoStack rest session in
      match targetId with
      | Some targetId =>
          if truthy targetId then
            let session :=
              if truthyOpt (currentLeafId session) then
                match currentLeafId session with
                | Some leaf => withUndoStack (push (undoStack session) leaf) session
                | None => session
                end
              else session in
            let '(session, notices) := navigateTo ctx session targetId in
            (Some session, notices)
          else
            (Some session,
             [{| noticeMessage := "No redo history"; noticeLevel := info |}])
      | None =>
          (Some session,
           [{| noticeMessage := "No redo history"; noticeLevel := info |}])
      end
  end.

(** ** diff-stack.ts: the textual diff *)

(** [s.split("\n")] *)
Fixpoint split_newline (s : string) : list string :=
  match s with
  | EmptyString => [""]
  | String c rest =>
      if Ascii.eqb c "010"%char then "" :: split_newline rest
      else
        match split_newline rest with
        | line :: lines => String c line :: lines
        | [] => [String c ""]
        end
  end.

(** [if (raw[raw.length - 1] === "") raw.pop()] *)
Definition popEmptyLast (raw : list string) : list string :=
  match last raw with
  | Some "" => removelast raw
  | _ => raw
  end.

(** [String(n)] for a line number. *)
Definition String_ (n : nat) : string := NilZero.string_of_uint (Nat.to_uint n).

Fixpoint spaces (n : nat) : string :=
  match n with
  | O => ""
  | S n' => String " "%char (spaces n')
  end.

(** [s.padStart(width, " ")] *)
Definition padStart (s : string) (width : nat) : string :=
  spaces (width - String.length s) +:+ s.

(** [lines.join("\n")] *)
Fixpoint join_newline (lines : list string) : string :=
  match lines with
  | [] => ""
  | [line] => line
  | line :: rest => line +:+ String "010"%char (join_newline rest)
  end.

(** The variables of the loop of [generateDiffString]. *)
Record DiffLoop : Type := {
  output : list string;
  oldLineNum : nat;
  newLineNum : nat;
  lastWasChange : bool;
  firstChangedLine : option nat
}.

Definition addedLine (lineNumWidth : nat) (st : DiffLoop) (line : string)
  : DiffLoop :=
  {| output := output st
               ++ ["+" +:+ padStart (String_ (newLineNum st)) lineNumWidth
                       +:+ " " +:+ line];
     oldLineNum := oldLineNum st;
     newLineNum := newLineNum st + 1;
     lastWasChange := lastWasChange st;
     firstChangedLine := firstChangedLine st |}.

Definition removedLine (lineNumWidth : nat) (st : DiffLoop) (line : string)
  : DiffLoop :=
  {| output := output st
               ++ ["-" +:+ padStart (String_ (oldLineNum st)) lineNumWidth
                       +:+ " " +:+ line];
     oldLineNum := oldLineNum st + 1;
     newLineNum := newLineNum st;
     lastWasChange := lastWasChange st;
     firstChangedLine := firstChangedLine st |}.

Definition contextLine (lineNumWidth : nat) (st : DiffLoop) (line : string)
  : DiffLoop :=
  {| output := output st
               ++ [" " +:+ padStart (String_ (oldLineNum st)) lineNumWidth
                       +:+ " " +:+ line];
     oldLineNum := oldLineNum st + 1;
     newLineNum := newLineNum st + 1;
     lastWasChange := lastWasChange st;
     firstChangedLine := firstChangedLine st |}.

(** The marker line, and the [skipped] lines it stands for. *)
Definition ellipsisLine (lineNumWidth : nat) : string :=
  " " +:+ padStart "" lineNumWidth +:+ " ...".

Definition skipLines (lineNumWidth skipped : nat) (st : DiffLoop) : DiffLoop :=
  if (0 <? skipped)%nat then
    {| output := output st ++ [ellipsisLine lineNumWidth];
       oldLineNum := oldLineNum st + skipped;
       newLineNum := newLineNum st + skipped;
       lastWasChange := lastWasChange st;
       firstChangedLine := firstChangedLine st |}
  else st.

Definition withLastWasChange (b : bool) (st : DiffLoop) : DiffLoop :=
  {| output := output st; oldLineNum := oldLineNum st;
     newLineNum := newLineNum st; lastWasChange := b;
     firstChangedLine := firstChangedLine st |}.

(** The branch of the loop body for an added or removed part. *)
Definition changedPart (lineNumWidth : nat) (part : Part.t) (raw : list string)
    (st : DiffLoop) : DiffLoop :=
  let st :=
    match firstChangedLine st with
    | None =>
        {| output := output st; oldLineNum := oldLineNum st;
           newLineNum := newLineNum st; lastWasChange := lastWasChange st;
           firstChangedLine := Some (newLineNum st) |}
    | Some _ => st
    end in
  let st :=
    fold_left
      (fun st line =>
         if Part.added part then addedLine lineNumWidth st line
         else removedLine lineNumWidth st line)
      raw st in
  withLastWasChange true st.

(** The rest of the loop body: an unchanged part. *)
Definition unchangedPart (contextLines lineNumWidth : nat)
    (nextPartIsChange : bool) (raw : list string) (st : DiffLoop) : DiffLoop :=
  let st :=
    if lastWasChange st || nextPartIsChange then
      let linesToShow := raw in
      let skipStart := 0%nat in
      let skipEnd := 0%nat in
      let '(skipStart, linesToShow) :=
        if negb (lastWasChange st) then
          let skipStart := (length raw - contextLines)%nat in
          (skipStart, drop skipStart raw)
        else (skipStart, linesToShow) in
      let '(skipEnd, linesToShow) :=
        if negb nextPartIsChange && (contextLines <? length linesToShow)%nat
        then ((length linesToShow - contextLines)%nat,
              take contextLines linesToShow)
        else (skipEnd, linesToShow) in
      let st := skipLines lineNumWidth skipStart st in
      let st := fold_left (contextLine lineNumWidth) linesToShow st in
      skipLines lineNumWidth skipEnd st
    else
      {| output := output st;
         oldLineNum := oldLineNum st + length raw;
         newLineNum := newLineNum st + length raw;
         lastWasChange := lastWasChange st;
         firstChangedLine := firstChangedLine st |} in
  withLastWasChange false st.

(** The loop over [parts], from [index] on. *)
Fixpoint diffLoop (contextLines lineNumWidth : nat) (parts : list Part.t)
    (st : DiffLoop) : DiffLoop :=
  match parts with
  | [] => st
  | part :: rest =>
      let raw := popEmptyLast (split_newline (Part.value part)) in
      let st :=
        if Part.added part || Part.removed part then
          changedPart lineNumWidth part raw st
        else
          let nextPartIsChange :=
            match rest with
            | next :: _ => Part.added next || Part.removed next
            | [] => false
            end in
          unchangedPart contextLines lineNumWidth nextPartIsChange raw st in
      diffLoop contextLines lineNumWidth rest st
  end.

Definition defaultContextLines : nat := 4.

Definition generateDiffString (oldContent newContent : string)
    (contextLines : nat) : string * option nat :=
  let parts := diffLines oldContent newContent in
  let oldLines := split_newline oldContent in
  let newLines := split_newline newContent in
  let maxLineNum := Nat.max (length oldLines) (length newLines) in
  let lineNumWidth := String.length (String_ maxLineNum) in
  let st :=
    diffLoop contextLines lineNumWidth parts
      {| output := []; oldLineNum := 1; newLineNum := 1;
         lastWasChange := false; firstChangedLine := None |} in
  (join_newline (output st), firstChangedLine st).

(** ** Definitions the statements use *)

Definition addedOf (before : JsMap.t SandboxEntryStats.t)
    (l : list (string * SandboxEntryStats.t)) : list string :=
  map fst (List.filter (fun kv => negb (JsMap.has before (fst kv))) l).

Definition changedOf (before : JsMap.t SandboxEntryStats.t)
    (l : list (string * SandboxEntryStats.t)) : list string :=
  map fst
    (List.filter
       (fun kv =>
          match JsMap.get before (fst kv) with
          | Some previous => statsDiffer previous (snd kv)
          | None => false
          end) l).

(** The writes and removals a run of [applyManifest] performs, in order. *)
Inductive DiskOp : Type :=
| Put (absPath buffer : string)
| Remove (absPath : string).

Definition opPath (op : DiskOp) : string :=
  match op with
  | Put absPath _ => absPath
  | Remove absPath => absPath
  end.

(** What the file at [opPath op] is after [op]. *)
Definition opResult (op : DiskOp) : option string :=
  match op with
  | Put _ buffer => Some buffer
  | Remove _ => None
  end.

Definition runOp (d : gmap string string) (op : DiskOp) : gmap string string :=
  match op with
  | Put absPath buffer => <[absPath := buffer]> d
  | Remove absPath => delete absPath d
  end.

Definition runOps (ops : list DiskOp) (d : gmap string string)
  : gmap string string :=
  fold_left runOp ops d.

(** The operations of one entry; [None] when its blob cannot be read. *)
Definition entryOps (blobs : gmap string string) (targetRoot : string)
    (kv : string * FileState.t) : option (list DiskOp) :=
  let absPath := joinPath targetRoot (fst kv) in
  if negb (FileState.exists_ (snd kv)) then Some [Remove absPath]
  else if negb (truthyOpt (FileState.hash (snd kv))) then Some []
  else
    match FileState.hash (snd kv) with
    | Some hash =>
        match blobs !! hash with
        | Some buffer => Some [Put absPath buffer]
        | None => None
        end
    | None => Some []
    end.

(** The operations of a manifest on one root, up to the first blob that
    cannot be read, and whether the run reached the end. *)
Fixpoint manifestOps (blobs : gmap string string) (targetRoot : string)
    (manifest : Manifest) : list DiskOp * bool :=
  match manifest with
  | [] => ([], true)
  | kv :: rest =>
      match entryOps blobs targetRoot kv with
      | None => ([], false)
      | Some ops =>
          let '(ops', ok) := manifestOps blobs targetRoot rest in
          (ops ++ ops', ok)
      end
  end.

Fixpoint rootsOps (blobs : gmap string string) (manifest : Manifest)
    (roots : list string) : list DiskOp * bool :=
  match roots with
  | [] => ([], true)
  | root :: rest =>
      let '(ops, ok) := manifestOps blobs root manifest in
      if ok then
        let '(ops', ok') := rootsOps blobs manifest rest in (ops ++ ops', ok')
      else (ops, false)
  end.

(** The last operation on [absPath], if any, gives the file there. *)
Fixpoint lastOp (ops : list DiskOp) (absPath : string) : option (option string) :=
  match ops with
  | [] => None
  | op :: rest =>
      match lastOp rest absPath with
      | Some r => Some r
      | None => if String.eqb (opPath op) absPath then Some (opResult op) else None
      end
  end.

Definition rejectedIf (ok : bool) : Outcome unit :=
  if ok then Returned tt else Rejected "ENOENT".

(** [for (const [relativePath, entry] of leafManifest) manifest.set(...)] *)
Definition overlay (base leafManifest : Manifest) : Manifest :=
  fold_left (fun acc kv => JsMap.set acc (fst kv) (snd kv)) leafManifest base.

(** The manifest [loadLeaf] finds, in the leaf cache first, then in the
    leaves directory. *)
Definition loadedLeaf (cache : JsMap.t Manifest) (leaves : gmap string Manifest)
    (leafId : string) : option Manifest :=
  match JsMap.get cache leafId with
  | Some cached => Some cached
  | None => leaves !! leafId
  end.

(** The leaf cache [loadLeaf] leaves behind. *)
Definition leafCacheAfterLoad (cache : JsMap.t Manifest)
    (leaves : gmap string Manifest) (leafId : string) : JsMap.t Manifest :=
  match JsMap.get cache leafId with
  | Some _ => cache
  | None =>
      match leaves !! leafId with
      | Some manifest => JsMap.set cache leafId manifest
      | None => cache
      end
  end.

(** The effective manifest of a leaf: the base overlaid by the manifest of
    the leaf, the base alone for an absent leaf id, and nothing for a leaf
    id without a manifest. *)
Definition effectiveManifest (t : SnapshotTracker)
    (leaves : gmap string Manifest) (leafId : option string) : option Manifest :=
  let base := JsMap.new_Map (baseManifest t) in
  match leafId with
  | Some id =>
      if truthy id then
        match loadedLeaf (leafCache t) leaves id with
        | Some leafManifest => Some (overlay base (JsMap.new_Map leafManifest))
        | None => None
        end
      else Some base
  | None => Some base
  end.

Definition leafCacheAfter (t : SnapshotTracker) (leaves : gmap string Manifest)
    (leafId : option string) : JsMap.t Manifest :=
  match leafId with
  | Some id =>
      if truthy id then leafCacheAfterLoad (leafCache t) leaves id
      else leafCache t
  | None => leafCache t
  end.

(** The world after [emitStats]. *)
Definition emitted (w : World) : World :=
  if onStats (tracker w) then
    withStatsLog (statsLog w ++ [getTrackedStats (tracker w)]) w
  else w.

(** [restoreLeaf] in closed form. *)
Definition restoreLeafResult (leafId : option string) (applyRoots : list string)
    (w : World) : World * Outcome unit :=
  let leaves := leavesDir (cacheStore w) in
  let t1 := withLeafCache (leafCacheAfter (tracker w) leaves leafId) (tracker w) in
  match effectiveManifest (tracker w) leaves leafId with
  | None => (withTracker t1 w, Returned tt)
  | Some manifest =>
      let plan := rootsOps (blobsDir (cacheStore w)) manifest applyRoots in
      let w2 := withDisk (runOps (fst plan) (disk w)) (withTracker t1 w) in
      if snd plan then
        let t3 := withTrackedManifest (JsMap.new_Map manifest) t1 in
        (emitted (withTracker t3 w2), Returned tt)
      else (w2, Rejected "ENOENT")
  end.

(** What applying [entry] does to its path: [Some None] removes the file,
    [Some (Some bytes)] writes it, [None] leaves the path alone. *)
Definition entryEffect (blobs : gmap string string) (entry : FileState.t)
  : option (option string) :=
  if negb (FileState.exists_ entry) then Some None
  else if negb (truthyOpt (FileState.hash entry)) then None
  else
    match FileState.hash entry with
    | Some hash => Some (blobs !! hash)
    | None => None
    end.

(** Every blob an entry of [manifest] needs is in the blob directory. *)
Definition blobsAvailable (blobs : gmap string string) (manifest : Manifest)
  : Prop :=
  forall p e h,
    In (p, e) manifest -> FileState.exists_ e = true ->
    FileState.hash e = Some h -> truthy h = true -> is_Some (blobs !! h).

(** Under the roots of [roots], the paths of [manifest] name different
    files: no two relative paths and no two roots meet in one absolute
    path. *)
Definition pathsDistinct (roots : list string) (manifest : Manifest) : Prop :=
  forall r r' p q,
    In r roots -> In r' roots ->
    In p (JsMap.keys manifest) -> In q (JsMap.keys manifest) ->
    joinPath r p = joinPath r' q -> r = r' /\ p = q.

(** The snapshot [readSnapshot] takes of a path with the given content. *)
Definition snapshotOf (content : option string) : SnapshotData.t :=
  match content with
  | Some buffer =>
      {| SnapshotData.exists_ := true;
         SnapshotData.buffer := Some buffer;
         SnapshotData.hash := Some (hashBuffer buffer);
         SnapshotData.size := Some (Z.of_nat (String.length buffer));
         SnapshotData.binary := Some (isBinaryBuffer buffer) |}
  | None => SnapshotData.absent
  end.

(** The entry [writeSnapshotToCache] returns for that snapshot. *)
Definition entryOf (content : option string) : FileState.t :=
  match content with
  | Some buffer =>
      if truthy (hashBuffer buffer) then
        {| FileState.exists_ := true;
           FileState.hash := Some (hashBuffer buffer);
           FileState.size := Some (Z.of_nat (String.length buffer));
           FileState.binary := Some (isBinaryBuffer buffer) |}
      else FileState.absent
  | None => FileState.absent
  end.

(** The blob directory it leaves. *)
Definition blobsAfter (content : option string) (blobs : gmap string string)
  : gmap string string :=
  match content with
  | Some buffer =>
      if truthy (hashBuffer buffer) then
        match blobs !! hashBuffer buffer with
        | Some _ => blobs
        | None => <[hashBuffer buffer := buffer]> blobs
        end
      else blobs
  | None => blobs
  end.

Definition withBlobs (blobs : gmap string string) (w : World) : World :=
  withCacheStore (withBlobsDir blobs (cacheStore w)) w.

(** The FileState invariant: an entry that does not exist carries no hash,
    size or binary flag, and the hash of an entry that exists names a blob
    of the blob directory. *)
Definition FileState_inv (blobs : gmap string string) (e : FileState.t) : Prop :=
  (FileState.exists_ e = false ->
   FileState.hash e = None /\ FileState.size e = None /\
   FileState.binary e = None) /\
  (FileState.exists_ e = true ->
   forall h, FileState.hash e = Some h -> is_Some (blobs !! h)).

(** The operations that record an entry. *)
Inductive TrackerOp : Type :=
| EnsureBaseFromSandbox (relativePath : string)
| EnsureBaseFromDisk (relativePath : string)
| UpdateFromSandbox (relativePath : string)
| MarkDeleted (relativePath : string).

Definition runTrackerOp (op : TrackerOp) : IO unit :=
  match op with
  | EnsureBaseFromSandbox relativePath => ensureBaseFromSandbox relativePath
  | EnsureBaseFromDisk relativePath => ensureBaseFromDisk relativePath
  | UpdateFromSandbox relativePath =>
      (_ <- updateFromSandbox relativePath ;; ret tt)%io
  | MarkDeleted relativePath => markDeleted relativePath
  end.

Definition newCache : CacheStore :=
  {| blobsDir := ∅; basePath := None; leavesDir := ∅ |}.

Definition newTracker (realRoot sandboxRoot : string) : SnapshotTracker :=
  {| realRoot := realRoot; sandboxRoot := sandboxRoot; onStats := false;
     baseManifest := []; trackedManifest := []; leafCache := [] |}.

(** The test "SnapshotTracker saves and restores leaf", up to the file it
    reads back. *)
Definition saveRestoreScenario (realRoot sandboxRoot : string) : IO string :=
  let relativePath := "note.txt" in
  let realPath := joinPath realRoot relativePath in
  let sandboxPath := joinPath sandboxRoot relativePath in
  (writeFile realPath "base" ;;
   cp realPath sandboxPath ;;
   loadBase ;;
   ensureBaseFromSandbox relativePath ;;
   writeFile sandboxPath "updated" ;;
   _ <- updateFromSandbox relativePath ;;
   saveLeaf (Some "leaf-1") ;;
   writeFile realPath "other" ;;
   restoreLeaf (Some "leaf-1") [realRoot] ;;
   readFile realPath)%io.

(** A navigation of the context fails: [waitForIdle] throws, or
    [navigateTree] throws or reports a cancellation, whatever either does
    to the session meanwhile. *)
Definition navigationFails (ctx : CommandCtx) : Prop :=
  exists wait nav,
    waitForIdle ctx = Some wait /\ navigateTree ctx = Some nav /\
    forall targetId session,
      (exists s message, wait session = (s, Rejected message)) \/
      (exists s s' message,
         wait session = (s, Returned tt) /\
         nav targetId s = (s', Rejected message)) \/
      (exists s s',
         wait session = (s, Returned tt) /\
         nav targetId s = (s', Returned {| cancelled := true |})).

(** The test and the lines of a part, as the loop of [generateDiffString]
    has them: [part.added || part.removed], and the value split at newlines
    without its empty last element. *)
Definition isChange (part : Part.t) : bool :=
  Part.added part || Part.removed part.

Definition rawLines (part : Part.t) : list string :=
  popEmptyLast (split_newline (Part.value part)).

(** The context lines for [lines], numbered from [start]. *)
Fixpoint numberedContext (lineNumWidth start : nat) (lines : list string)
  : list string :=
  match lines with
  | [] => []
  | line :: rest =>
      (" " +:+ padStart (String_ start) lineNumWidth +:+ " " +:+ line)
        :: numberedContext lineNumWidth (start + 1) rest
  end.

End Engine.

(** * The rest of the extension: the tracker as it is called, the diff
      stack, the sandbox, the paths, the buffered tools and the handlers

    Further conventions.
    - Besides a missing blob, these parts can reject on a file that is
      missing when it is copied (ENOENT), on a sandbox state that was not
      initialized, and on what the host throws: its tools, its session
      manager and the scan of a directory.
    - What belongs to the host is a parameter, as [Platform] is: the
      classes [CacheReader], [FileTimes], [PathLib] and [SessionManager],
      and the tools of the host that the buffered tools wrap.
    - The handlers of [index.ts] are taken for an initialized extension
      ([state] is set); without it each of them returns at once. *)

Section TrackerCalls.
Context {platform : Platform}.

(** [getBaseManifest] and [getTrackedManifest] return copies. *)
Definition getBaseManifest : IO Manifest :=
  gets (fun w => JsMap.new_Map (baseManifest (tracker w))).

Definition getTrackedManifest : IO Manifest :=
  gets (fun w => JsMap.new_Map (trackedManifest (tracker w))).

(** The calls a user of a [SnapshotTracker] can make. *)
Inductive TrackerCall : Type :=
| CallLoadBase
| CallSetTrackedManifest (manifest : Manifest)
| CallEnsureBaseFromSandbox (relativePath : string)
| CallEnsureBaseFromDisk (relativePath : string)
| CallUpdateFromSandbox (relativePath : string)
| CallMarkDeleted (relativePath : string)
| CallSaveLeaf (leafId : option string)
| CallLoadLeaf (leafId : string)
| CallRestoreLeaf (leafId : option string) (applyRoots : list string).

Definition runTrackerCall (call : TrackerCall) : IO unit :=
  match call with
  | CallLoadBase => loadBase
  | CallSetTrackedManifest manifest => setTrackedManifest manifest
  | CallEnsureBaseFromSandbox relativePath => ensureBaseFromSandbox relativePath
  | CallEnsureBaseFromDisk relativePath => ensureBaseFromDisk relativePath
  | CallUpdateFromSandbox relativePath =>
      (_ <- updateFromSandbox relativePath ;; ret tt)%io
  | CallMarkDeleted relativePath => markDeleted relativePath
  | CallSaveLeaf leafId => saveLeaf leafId
  | CallLoadLeaf leafId => (_ <- loadLeaf leafId ;; ret tt)%io
  | CallRestoreLeaf leafId applyRoots => restoreLeaf leafId applyRoots
  end.

(** The blob directory is content-addressed: a blob is stored under the
    digest of its bytes. *)
Definition contentAddressed (blobs : gmap string string) : Prop :=
  forall h buffer, blobs !! h = Some buffer -> h = hashBuffer buffer.

(** What an entry adds to the tracked stats. *)
Definition statsOf (entry : option FileState.t) : Z * Z :=
  match entry with
  | Some e =>
      if FileState.exists_ e then
        (1, match FileState.size e with Some n => n | None => 0 end)
      else (0, 0)
  | None => (0, 0)
  end.

End TrackerCalls.

(** [getTrackedStats] as a fold over the entries. *)
Definition statsOfList (l : list FileState.t) (acc : TrackedStats) : TrackedStats :=
  fold_left
    (fun acc entry =>
       if negb (FileState.exists_ entry) then acc
       else {| fileCount := fileCount acc + 1;
               totalBytes := totalBytes acc
                             + match FileState.size entry with
                               | Some n => n
                               | None => 0
                               end |})
    l acc.

(** ** diff-stack.ts: the diff text and the lists of changes *)

(** [buffer.toString("utf-8")] and [cache.listLeafIds()], which reads the
    leaves directory in the order the file system lists it. *)
Class CacheReader : Type := {
  toStringUtf8 : string -> string;
  listLeafIdsOf : CacheStore -> list string
}.

Module UiDiffItem.
Record t : Type := mk {
  label : string;
  leafId : string;
  path : string;
  change : ChangeLetter
}.
End UiDiffItem.

Module DiffItem.
Record t : Type := mk {
  leafId : string;
  path : string;
  change : ChangeType
}.
End DiffItem.

(** The letter as the template literal prints it. *)
Definition letterString (change : ChangeLetter) : string :=
  match change with
  | A => "A"
  | M => "M"
  | D => "D"
  end.

Section DiffStack.
Context {platform : Platform} {reader : CacheReader}.

(** [entry?.binary], as a condition. *)
Definition binaryOf (entry : option FileState.t) : bool :=
  match entry with
  | Some e =>
      match FileState.binary e with
      | Some b => b
      | None => false
      end
  | None => false
  end.

(** [exists && entry?.hash ? (await cache.readBlob(entry.hash)).toString("utf-8") : ""] *)
Definition entryText (entry : option FileState.t) : IO string :=
  if existsOf entry && truthyOpt (hashOf entry) then
    match hashOf entry with
    | Some hash => (buffer <- readBlob hash ;; ret (toStringUtf8 buffer))%io
    | None => ret ""
    end
  else ret "".

Definition formatDiffText (baseEntry leafEntry : option FileState.t)
  : IO string :=
  let baseExists := existsOf baseEntry in
  let leafExists := existsOf leafEntry in
  if negb baseExists && negb leafExists then ret "No changes recorded."
  else if binaryOf leafEntry || binaryOf baseEntry then
    if negb baseExists && leafExists then ret "Binary file added."
    else if baseExists && negb leafExists then ret "Binary file deleted."
    else ret "Binary file modified."
  else
    (baseText <- entryText baseEntry ;;
     leafText <- entryText leafEntry ;;
     let diff := fst (generateDiffString baseText leafText defaultContextLines) in
     ret (if truthy diff then diff else "No changes recorded."))%io.

Definition collectUiDiffItems (baseManifest : Manifest) (leafId : string)
    (leafManifest : Manifest) : list UiDiffItem.t :=
  fold_left
    (fun items kv =>
       let '(filePath, leafEntry) := kv in
       let baseEntry := JsMap.get baseManifest filePath in
       match describeChange baseEntry (Some leafEntry) with
       | None => items
       | Some change =>
           items
           ++ [{| UiDiffItem.leafId := leafId;
                  UiDiffItem.path := filePath;
                  UiDiffItem.change := change;
                  UiDiffItem.label :=
                    "[" +:+ leafId +:+ "] " +:+ letterString change
                        +:+ " " +:+ filePath |}]
       end)
    leafManifest [].

Definition listLeafIds : IO (list string) :=
  gets (fun w => listLeafIdsOf (cacheStore w)).

(** The body of the loop of [listDiffItems] over the leaf ids. *)
Definition listDiffItemsOfLeaf (baseManifest : Manifest)
    (items : list DiffItem.t) (leafId : string) : IO (list DiffItem.t) :=
  (leafManifest <- readLeaf leafId ;;
   match leafManifest with
   | None => ret items
   | Some leafManifest =>
       ret (fold_left
              (fun items kv =>
                 let '(filePath, leafEntry) := kv in
                 let baseEntry := JsMap.get baseManifest filePath in
                 match describeChange baseEntry (Some leafEntry) with
                 | None => items
                 | Some change =>
                     items
                     ++ [{| DiffItem.leafId := leafId;
                            DiffItem.path := filePath;
                            DiffItem.change := toChangeType change |}]
                 end)
              leafManifest items)
   end)%io.

Fixpoint forEachLeaf (baseManifest : Manifest) (leafIds : list string)
    (items : list DiffItem.t) : IO (list DiffItem.t) :=
  match leafIds with
  | [] => ret items
  | leafId :: rest =>
      (items <- listDiffItemsOfLeaf baseManifest items leafId ;;
       forEachLeaf baseManifest rest items)%io
  end.

Definition listDiffItems : IO (list DiffItem.t) :=
  (baseManifest <- gets (fun w => JsMap.new_Map (baseManifest (tracker w))) ;;
   leafIds <- listLeafIds ;;
   forEachLeaf baseManifest leafIds [])%io.

(** ** Definitions the statements about the diff use *)

(** The lines of [lines] as changed lines, signed and numbered from
    [start]. *)
Fixpoint numberedChange (sign : string) (lineNumWidth start : nat)
    (lines : list string) : list string :=
  match lines with
  | [] => []
  | line :: rest =>
      (sign +:+ padStart (String_ start) lineNumWidth +:+ " " +:+ line)
        :: numberedChange sign lineNumWidth (start + 1) rest
  end.

(** Every line of every changed part, signed, with its line number in the
    new text (added) or in the old text (removed). *)
Fixpoint changedLines (lineNumWidth : nat) (parts : list Part.t)
    (oldLineNum newLineNum : nat) : list string :=
  match parts with
  | [] => []
  | part :: rest =>
      let raw := rawLines part in
      if Part.added part then
        numberedChange "+" lineNumWidth newLineNum raw
        ++ changedLines lineNumWidth rest oldLineNum (newLineNum + length raw)
      else if Part.removed part then
        numberedChange "-" lineNumWidth oldLineNum raw
        ++ changedLines lineNumWidth rest (oldLineNum + length raw) newLineNum
      else
        changedLines lineNumWidth rest (oldLineNum + length raw)
                     (newLineNum + length raw)
  end.

(** The line number in the new text at which the first changed part
    starts. *)
Fixpoint firstChange (parts : list Part.t) (newLineNum : nat) : option nat :=
  match parts with
  | [] => None
  | part :: rest =>
      if isChange part then Some newLineNum
      else firstChange rest (newLineNum + length (rawLines part))
  end.

(** A line of the output that starts with [+] or [-]. *)
Definition isChangedLine (line : string) : bool :=
  match line with
  | String c _ => Ascii.eqb c "+"%char || Ascii.eqb c "-"%char
  | EmptyString => false
  end.

(** The [output] array of [generateDiffString], before it is joined. *)
Definition diffOutputLines (oldContent newContent : string)
    (contextLines : nat) : list string :=
  let lineNumWidth :=
    String.length
      (String_ (Nat.max (length (split_newline oldContent))
                        (length (split_newline newContent)))) in
  output
    (diffLoop contextLines lineNumWidth (diffLines oldContent newContent)
       {| output := []; oldLineNum := 1; newLineNum := 1;
          lastWasChange := false; firstChangedLine := None |}).

(** The diff item of a UI item. *)
Definition toDiffItem (item : UiDiffItem.t) : DiffItem.t :=
  {| DiffItem.leafId := UiDiffItem.leafId item;
     DiffItem.path := UiDiffItem.path item;
     DiffItem.change := toChangeType (UiDiffItem.change item) |}.

(** The third branch of [formatDiffText]: both texts are read and
    compared. *)
Definition formatTextDiff (baseEntry leafEntry : option FileState.t)
  : IO string :=
  (baseText <- entryText baseEntry ;;
   leafText <- entryText leafEntry ;;
   let diff := fst (generateDiffString baseText leafText defaultContextLines) in
   ret (if truthy diff then diff else "No changes recorded."))%io.

(** The item the UI shows for an entry of a leaf manifest, if any. *)
Definition uiItemsOfEntry (baseManifest : Manifest) (leafId : string)
    (kv : string * FileState.t) : list UiDiffItem.t :=
  match describeChange (JsMap.get baseManifest (fst kv)) (Some (snd kv)) with
  | None => []
  | Some change =>
      [{| UiDiffItem.leafId := leafId;
          UiDiffItem.path := fst kv;
          UiDiffItem.change := change;
          UiDiffItem.label :=
            "[" +:+ leafId +:+ "] " +:+ letterString change
                +:+ " " +:+ fst kv |}]
  end.

End DiffStack.

(** ** sandbox.ts: files between the real root and the sandbox *)

(** What the file system gives besides the bytes: the modification time
    [stat] reports for a file, and the walk of [scanDirectoryStats] over a
    root with an [ignores] predicate, which lists the directories with
    [readdir]. *)
Class FileTimes : Type := {
  mtimeMsOf : World -> string -> Z;
  scanDirectoryStats :
    World -> string -> (string -> bool) -> Outcome (JsMap.t SandboxEntryStats.t)
}.

Section Sandbox.
Context {platform : Platform} {times : FileTimes}.

(** [copyFile(source, target)], after [ensureDir(path.dirname(target))]. *)
Definition copyFile (source target : string) : IO unit :=
  (content <- readFile source ;; writeFile target content)%io.

(** [rm(target, { force: true })] *)
Definition rmForce (target : string) : IO unit :=
  modify (fun w => withDisk (delete target (disk w)) w).

Definition syncFileToSandbox (relativePath realRoot sandboxRoot : string)
  : IO unit :=
  let sourcePath := joinPath realRoot relativePath in
  let targetPath := joinPath sandboxRoot relativePath in
  copyFile sourcePath targetPath.

Definition syncFileFromSandbox (relativePath sandboxRoot realRoot : string)
  : IO unit :=
  let sourcePath := joinPath sandboxRoot relativePath in
  let targetPath := joinPath realRoot relativePath in
  copyFile sourcePath targetPath.

Definition removeFileFromDisk (relativePath realRoot : string) : IO unit :=
  rmForce (joinPath realRoot relativePath).

Definition removeFileFromSandbox (relativePath sandboxRoot : string) : IO unit :=
  rmForce (joinPath sandboxRoot relativePath).

(** [access(sandboxPath)] succeeds when the file is there; [stat(realPath)]
    fails with ENOENT when it is not. *)
Definition ensureSandboxFile (relativePath realRoot sandboxRoot : string)
  : IO unit :=
  fun w =>
    let sandboxPath := joinPath sandboxRoot relativePath in
    match disk w !! sandboxPath with
    | Some _ => (w, Returned tt)
    | None =>
        let realPath := joinPath realRoot relativePath in
        match disk w !! realPath with
        | Some _ => copyFile realPath sandboxPath w
        | None => (w, Returned tt)
        end
    end.

(** [shouldIgnore]; [ignores] is the method of the [Ignore] matcher. *)
Definition shouldIgnore (ignores : string -> bool) (relativePath : string)
    (isDir : bool) : bool :=
  if negb (truthy relativePath) then false
  else if ignores relativePath then true
  else if isDir && ignores (relativePath +:+ "/") then true
  else false.

(** [stat(absolutePath)] of a file: its size and modification time. *)
Definition statFile (w : World) (absolutePath : string)
  : option SandboxEntryStats.t :=
  match disk w !! absolutePath with
  | Some content =>
      Some {| SandboxEntryStats.size := Z.of_nat (String.length content);
              SandboxEntryStats.mtimeMs := mtimeMsOf w absolutePath |}
  | None => None
  end.

(** [updateSandboxStatsForFile]: the stats map it leaves. *)
Definition updateSandboxStatsForFile (sandboxRoot : string)
    (stats : JsMap.t SandboxEntryStats.t) (relativePath : string)
    (ignores : string -> bool) (w : World) : JsMap.t SandboxEntryStats.t :=
  if shouldIgnore ignores relativePath false then JsMap.delete stats relativePath
  else
    let absolutePath := joinPath sandboxRoot relativePath in
    match statFile w absolutePath with
    | Some fileStats => JsMap.set stats relativePath fileStats
    | None => JsMap.delete stats relativePath
    end.

End Sandbox.

(** ** paths.ts *)

(** What [node:path], [node:os] and the regular expressions of the file
    provide: [path.sep] (one character), [path.isAbsolute],
    [path.resolve], [path.relative], [path.join], [homedir()],
    [value.replace(UNICODE_SPACES, " ")] and
    [text.replace(new RegExp(source, "g"), replacement)]. *)
Class PathLib : Type := {
  sep : ascii;
  isAbsolute : string -> bool;
  resolve : string -> string -> string;
  relative : string -> string -> string;
  pathJoin : string -> string -> string;
  homedir : string;
  replaceUnicodeSpaces : string -> string;
  replaceRegExp : string -> string -> string -> string
}.

(** [s.split(c)] for a one-character separator. *)
Fixpoint splitChar (c : ascii) (s : string) : list string :=
  match s with
  | EmptyString => [""]
  | String c' rest =>
      if Ascii.eqb c' c then "" :: splitChar c rest
      else
        match splitChar c rest with
        | piece :: pieces => String c' piece :: pieces
        | [] => [String c' ""]
        end
  end.

(** [pieces.join(c)] *)
Fixpoint joinChar (c : ascii) (pieces : list string) : string :=
  match pieces with
  | [] => ""
  | [piece] => piece
  | piece :: rest => piece +:+ String c (joinChar c rest)
  end.

(** [s.startsWith(prefix)] *)
Fixpoint startsWith (s prefix : string) : bool :=
  match prefix, s with
  | EmptyString, _ => true
  | String p prefix', String c s' => Ascii.eqb c p && startsWith s' prefix'
  | String _ _, EmptyString => false
  end.

(** [s.slice(1)] *)
Definition slice1 (s : string) : string :=
  match s with
  | EmptyString => ""
  | String _ rest => rest
  end.

(** [text.includes(needle)] *)
Fixpoint includes (text needle : string) : bool :=
  startsWith text needle
  || match text with
     | EmptyString => false
     | String _ rest => includes rest needle
     end.

(** The characters of the class in [escapeRegExp]. *)
Definition isRegExpSpecial (c : ascii) : bool :=
  existsb (Ascii.eqb c)
    ["."; "*"; "+"; "?"; "^"; "$"; "{"; "}"; "("; ")"; "|"; "["; "]"; "\"]%char.

Section Paths.
Context {paths : PathLib}.

Definition normalizeAtPrefix (filePath : string) : string :=
  if startsWith filePath "@" then slice1 filePath else filePath.

Definition expandPath (filePath : string) : string :=
  let normalized := replaceUnicodeSpaces (normalizeAtPrefix filePath) in
  if String.eqb normalized "~" then homedir
  else if startsWith normalized "~/" then homedir +:+ slice1 normalized
  else normalized.

Definition resolveUserPath (filePath cwd : string) : string :=
  let expanded := expandPath filePath in
  if isAbsolute expanded then expanded else resolve cwd expanded.

Definition toPosix (value : string) : string :=
  joinChar "/" (splitChar sep value).

Definition fromPosix (value : string) : string :=
  joinChar sep (splitChar "/" value).

Definition isWithinRoot (targetPath rootPath : string) : bool :=
  let rel := relative rootPath targetPath in
  String.eqb rel "" || (negb (startsWith rel "..") && negb (isAbsolute rel)).

Definition toRelativePath (absolutePath rootPath : string) : option string :=
  if negb (isWithinRoot absolutePath rootPath) then None
  else Some (toPosix (relative rootPath absolutePath)).

Definition mapToSandboxPath (absolutePath realRoot sandboxRoot : string)
  : string :=
  if isWithinRoot absolutePath sandboxRoot then absolutePath
  else if isWithinRoot absolutePath realRoot then
    pathJoin sandboxRoot (relative realRoot absolutePath)
  else absolutePath.

Definition mapToRealPath (absolutePath realRoot sandboxRoot : string)
  : string :=
  if isWithinRoot absolutePath realRoot then absolutePath
  else if isWithinRoot absolutePath sandboxRoot then
    pathJoin realRoot (relative sandboxRoot absolutePath)
  else absolutePath.

(** [value.replace(/[.*+?^${}()|[\]\\]/g, "\\$&")]: a backslash before
    each character of the class. *)
Fixpoint escapeRegExp (value : string) : string :=
  match value with
  | EmptyString => ""
  | String c rest =>
      if isRegExpSpecial c then String "\" (String c (escapeRegExp rest))
      else String c (escapeRegExp rest)
  end.

Definition replaceRootInText (text fromRoot toRoot : string) : string :=
  if negb (includes text fromRoot) then text
  else replaceRegExp (escapeRegExp fromRoot) text toRoot.

End Paths.

(** ** Definitions the statements about paths use *)

(** [s] with every [c] replaced by [d]. *)
Fixpoint replaceChar (c d : ascii) (s : string) : string :=
  match s with
  | EmptyString => ""
  | String x rest =>
      String (if Ascii.eqb x c then d else x) (replaceChar c d rest)
  end.

(** [c] occurs in [s]. *)
Fixpoint hasChar (c : ascii) (s : string) : bool :=
  match s with
  | EmptyString => false
  | String x rest => Ascii.eqb x c || hasChar c rest
  end.

(** ** Functions over a larger state *)

(** An asynchronous function over a state [S]. *)
Definition Act (S T : Type) : Type := S -> S * Outcome T.

Definition retA {S T : Type} (v : T) : Act S T := fun s => (s, Returned v).

Definition bindA {S T U : Type} (c : Act S T) (k : T -> Act S U) : Act S U :=
  fun s =>
    match c s with
    | (s', Returned v) => k v s'
    | (s', Rejected message) => (s', Rejected message)
    end.

Definition throwA {S T : Type} (message : string) : Act S T :=
  fun s => (s, Rejected message).

(** [try { c } catch (error) { handler(error.message) }] *)
Definition tryCatch {S T : Type} (c : Act S T) (handler : string -> Act S T)
  : Act S T :=
  fun s =>
    match c s with
    | (s', Returned v) => (s', Returned v)
    | (s', Rejected message) => handler message s'
    end.

Declare Scope act_scope.
Delimit Scope act_scope with act.
Bind Scope act_scope with Act.

Notation "x <- c ;; k" := (bindA c (fun x => k))
  (at level 100, c at next level, right associativity) : act_scope.

Notation "c ;; k" := (bindA c (fun _ => k))
  (at level 100, right associativity) : act_scope.

(** ** sandbox.ts: the state of the sandbox *)

Module SandboxState.
Record t : Type := mk {
  realRoot : string;
  sandboxRoot : string;
  stats : JsMap.t SandboxEntryStats.t;
  ignoreMatcher : option (string -> bool)
}.

Definition withStats (m : JsMap.t SandboxEntryStats.t) (s : t) : t :=
  {| realRoot := realRoot s; sandboxRoot := sandboxRoot s; stats := m;
     ignoreMatcher := ignoreMatcher s |}.
End SandboxState.

(** ** tools.ts *)

(** One item of the [content] of a tool result. *)
Module ContentItem.
Record t : Type := mk {
  type : string;
  text : option string
}.
End ContentItem.

(** The [content] of a tool result; its other fields are carried along
    unchanged. *)
Definition ToolResult : Type := list ContentItem.t.

(** The state the buffered tools work on: the files, the cache and the
    tracker; the sandbox state; and the number of calls of the
    [updateStatus] callback. *)
Record ToolState : Type := {
  world : World;
  sandboxState : SandboxState.t;
  statusUpdates : nat
}.

Definition withWorld (w : World) (s : ToolState) : ToolState :=
  {| world := w; sandboxState := sandboxState s;
     statusUpdates := statusUpdates s |}.

Definition withSandboxState (b : SandboxState.t) (s : ToolState) : ToolState :=
  {| world := world s; sandboxState := b; statusUpdates := statusUpdates s |}.

(** The [realRoot] and [sandboxRoot] of a [BufferedToolRuntime]. *)
Record Runtime : Type := {
  runtimeRealRoot : string;
  runtimeSandboxRoot : string
}.

(** A tool of the host ([baseEditTool.execute] and the like): it has the
    files to work on, returns a result or throws.  What it does to the
    files includes what the operations it is created with do
    ([ensureSandboxCopy] before a read or a write); the cache and the
    tracker are out of its reach. *)
Definition HostTool : Type :=
  gmap string string -> gmap string string * Outcome ToolResult.

Section Tools.
Context {platform : Platform} {times : FileTimes} {paths : PathLib}.

(** A call of the tracker or of the file system within a tool. *)
Definition liftIO {T : Type} (c : IO T) : Act ToolState T :=
  fun s => let '(w, r) := c (world s) in (withWorld w s, r).

Definition runHost (tool : HostTool) : Act ToolState ToolResult :=
  fun s =>
    let '(d, r) := tool (disk (world s)) in
    (withWorld (withDisk d (world s)) s, r).

Definition updateStatus : Act ToolState unit :=
  fun s =>
    ({| world := world s; sandboxState := sandboxState s;
        statusUpdates := statusUpdates s + 1 |}, Returned tt).

(** [SandboxState]: [getIgnoreMatcher], [getStats], [setStats], [rescan],
    [updateFile]. *)
Definition getIgnoreMatcher : Act ToolState (string -> bool) :=
  fun s =>
    match SandboxState.ignoreMatcher (sandboxState s) with
    | Some matcher => (s, Returned matcher)
    | None => (s, Rejected "SandboxState not initialized")
    end.

Definition getStats : Act ToolState (JsMap.t SandboxEntryStats.t) :=
  fun s => (s, Returned (SandboxState.stats (sandboxState s))).

Definition setStats (stats : JsMap.t SandboxEntryStats.t) : Act ToolState unit :=
  fun s =>
    (withSandboxState (SandboxState.withStats stats (sandboxState s)) s,
     Returned tt).

Definition rescan : Act ToolState (JsMap.t SandboxEntryStats.t) :=
  (matcher <- getIgnoreMatcher ;;
   fun s =>
     (s, scanDirectoryStats (world s)
                            (SandboxState.sandboxRoot (sandboxState s)) matcher))%act.

Definition updateFile (relativePath : string) : Act ToolState unit :=
  (matcher <- getIgnoreMatcher ;;
   fun s =>
     (withSandboxState
        (SandboxState.withStats
           (updateSandboxStatsForFile
              (SandboxState.sandboxRoot (sandboxState s))
              (SandboxState.stats (sandboxState s)) relativePath matcher
              (world s))
           (sandboxState s)) s,
      Returned tt))%act.

Definition rewriteResultPaths (result : ToolResult)
    (sandboxRoot realRoot : string) : ToolResult :=
  map (fun item =>
         match ContentItem.text item with
         | Some text =>
             if negb (String.eqb (ContentItem.type item) "text") then item
             else {| ContentItem.type := ContentItem.type item;
                     ContentItem.text :=
                       Some (replaceRootInText text sandboxRoot realRoot) |}
         | None => item
         end) result.

(** The message of the error [rewriteError] builds. *)
Definition rewriteError (message sandboxRoot realRoot : string) : string :=
  replaceRootInText message sandboxRoot realRoot.

(** [if (relativePath) { ... }] *)
Definition whenPath (relativePath : option string)
    (body : string -> Act ToolState unit) : Act ToolState unit :=
  match relativePath with
  | Some p => if truthy p then body p else retA tt
  | None => retA tt
  end.

(** [editExecute] and [writeExecute], which differ in the tool they
    wrap. *)
Definition trackedExecute (rt : Runtime) (inputPath : string) (tool : HostTool)
  : Act ToolState ToolResult :=
  let realRoot := runtimeRealRoot rt in
  let sandboxRoot := runtimeSandboxRoot rt in
  let absolutePath := resolveUserPath inputPath realRoot in
  let relativePath := toRelativePath absolutePath realRoot in
  (whenPath relativePath
     (fun p => liftIO (ensureBaseFromSandbox p)) ;;
   result <- runHost tool ;;
   whenPath relativePath
     (fun p =>
        _ <- liftIO (updateFromSandbox p) ;;
        liftIO (syncFileFromSandbox p sandboxRoot realRoot) ;;
        updateFile p ;;
        updateStatus) ;;
   retA (rewriteResultPaths result sandboxRoot realRoot))%act.

Definition editExecute := trackedExecute.

Definition writeExecute := trackedExecute.

(** [trackRead]: whatever fails inside is swallowed. *)
Definition trackRead (filePath realRoot : string) : Act ToolState unit :=
  tryCatch
    (let absolutePath := resolveUserPath filePath realRoot in
     let relativePath := toRelativePath absolutePath realRoot in
     whenPath relativePath
       (fun p =>
          liftIO (ensureBaseFromSandbox p) ;;
          _ <- liftIO (updateFromSandbox p) ;;
          updateStatus))%act
    (fun _ => retA tt).

Definition readExecute (rt : Runtime) (inputPath : string) (tool : HostTool)
  : Act ToolState ToolResult :=
  (result <- runHost tool ;;
   trackRead inputPath (runtimeRealRoot rt) ;;
   retA (rewriteResultPaths result (runtimeSandboxRoot rt) (runtimeRealRoot rt)))%act.

Definition mapInputPath (inputPath : option string)
    (realRoot sandboxRoot : string) : option string :=
  match inputPath with
  | Some p =>
      if negb (truthy p) then inputPath
      else
        let expanded := expandPath p in
        let absolutePath := resolveUserPath p realRoot in
        if isAbsolute expanded && isWithinRoot absolutePath realRoot
        then Some (mapToSandboxPath absolutePath realRoot sandboxRoot)
        else inputPath
  | None => None
  end.

(** [findExecute], [lsExecute] and [grepExecute]; the tool is given the
    mapped path. *)
Definition searchExecute (rt : Runtime) (inputPath : option string)
    (tool : option string -> HostTool) : Act ToolState ToolResult :=
  let realRoot := runtimeRealRoot rt in
  let sandboxRoot := runtimeSandboxRoot rt in
  let mappedPath := mapInputPath inputPath realRoot sandboxRoot in
  tryCatch
    (result <- runHost (tool mappedPath) ;;
     retA (rewriteResultPaths result sandboxRoot realRoot))%act
    (fun message => throwA (rewriteError message sandboxRoot realRoot)).

(** One turn of the loops of [bashExecute] over [diff.added] and
    [diff.changed], and one over [diff.removed]. *)
Definition trackChanged (rt : Runtime) (relativePath : string) : IO unit :=
  (ensureBaseFromDisk relativePath ;;
   _ <- updateFromSandbox relativePath ;;
   syncFileFromSandbox relativePath (runtimeSandboxRoot rt) (runtimeRealRoot rt))%io.

Definition trackRemoved (rt : Runtime) (relativePath : string) : IO unit :=
  (ensureBaseFromDisk relativePath ;;
   markDeleted relativePath ;;
   removeFileFromDisk relativePath (runtimeRealRoot rt))%io.

(** [bashExecute].  The command's outcome is kept, returned or thrown,
    until the changes are tracked.  The updates streamed through
    [onUpdate] while the command runs are not modelled, and a command
    that returns does return a result, so the check [if (!result)] never
    fires. *)
Definition bashExecute (rt : Runtime) (tool : HostTool)
  : Act ToolState ToolResult :=
  let realRoot := runtimeRealRoot rt in
  let sandboxRoot := runtimeSandboxRoot rt in
  (beforeStats <- getStats ;;
   outcome <- (fun s => let '(s', r) := runHost tool s in (s', Returned r)) ;;
   afterStats <- rescan ;;
   let diff := diffSandboxStats beforeStats afterStats in
   setStats afterStats ;;
   liftIO (forOf (added diff) (trackChanged rt)) ;;
   liftIO (forOf (changed diff) (trackChanged rt)) ;;
   liftIO (forOf (removed diff) (trackRemoved rt)) ;;
   (if (0 <? length (added diff) + length (changed diff)
             + length (removed diff))%nat
    then updateStatus else retA tt) ;;
   match outcome with
   | Rejected message => throwA (rewriteError message sandboxRoot realRoot)
   | Returned result => retA (rewriteResultPaths result sandboxRoot realRoot)
   end)%act.

(** The file at [absPath] set to [target]: written, or removed. *)
Definition putOrDelete (target : option string) (absPath : string)
    (d : gmap string string) : gmap string string :=
  match target with
  | Some content => <[absPath := content]> d
  | None => delete absPath d
  end.

(** The three loops of [bashExecute] as one loop. *)
Definition trackDiff (rt : Runtime) (removedPaths : list string)
    (relativePath : string) : IO unit :=
  if in_dec string_dec relativePath removedPaths
  then trackRemoved rt relativePath
  else trackChanged rt relativePath.

End Tools.

(** ** index.ts: the handlers of the events and of the tool *)

(** The session manager of the host: its state, [getLeafId()],
    [branch(entryId)] and [resetLeaf()]. *)
Class SessionManager : Type := {
  Host : Type;
  getLeafId : Host -> option string;
  branch : string -> Host -> Host * Outcome unit;
  resetLeaf : Host -> Host * Outcome unit
}.

(** One item of the [content] of a message, and the message of a
    [turn_end] event: anything that is not an object, or an object with
    its [role], its [stopReason] and its [content] if that is an array. *)
Inductive MessagePart : Type :=
| PartNotObject
| PartObject (type : option string).

Inductive TurnMessage : Type :=
| MessageNotObject
| MessageObject (role stopReason : option string)
                (content : option (list MessagePart)).

Definition isToolCallTurn (message : TurnMessage) : bool :=
  match message with
  | MessageNotObject => false
  | MessageObject role stopReason content =>
      if strictNeq role (Some "assistant") then false
      else if negb (strictNeq stopReason (Some "toolUse")) then true
      else
        match content with
        | None => false
        | Some items =>
            existsb
              (fun item =>
                 match item with
                 | PartNotObject => false
                 | PartObject type => negb (strictNeq type (Some "toolCall"))
                 end) items
        end
  end.

(** [SessionState] in full: the roots; the cache, the tracker and the
    sandbox state; and the fields the commands read or write. *)
Record ExtensionState : Type := {
  sessionRealRoot : string;
  sessionSandboxRoot : string;
  runtime : ToolState;
  navigation : SessionState
}.

Definition withRuntime (r : ToolState) (e : ExtensionState) : ExtensionState :=
  {| sessionRealRoot := sessionRealRoot e;
     sessionSandboxRoot := sessionSandboxRoot e;
     runtime := r; navigation := navigation e |}.

Definition withNavigation (n : SessionState) (e : ExtensionState)
  : ExtensionState :=
  {| sessionRealRoot := sessionRealRoot e;
     sessionSandboxRoot := sessionSandboxRoot e;
     runtime := runtime e; navigation := n |}.

Section Index.
Context {platform : Platform} {times : FileTimes} {paths : PathLib}
        {manager : SessionManager}.

(** The extension once initialized, with the session manager it talks
    to. *)
Record Running : Type := {
  session : ExtensionState;
  host : Host
}.

Definition withSession (e : ExtensionState) (r : Running) : Running :=
  {| session := e; host := host r |}.

Definition withHost (h : Host) (r : Running) : Running :=
  {| session := session r; host := h |}.

(** A call on the tracker or the sandbox state of the session. *)
Definition liftTool {T : Type} (c : Act ToolState T) : Act Running T :=
  fun r =>
    let '(t, result) := c (runtime (session r)) in
    (withSession (withRuntime t (session r)) r, result).

(** A call on the session manager. *)
Definition liftHost {T : Type} (c : Host -> Host * Outcome T) : Act Running T :=
  fun r => let '(h, result) := c (host r) in (withHost h r, result).

Definition modifyNavigation (f : SessionState -> SessionState)
  : Act Running unit :=
  fun r =>
    (withSession (withNavigation (f (navigation (session r))) (session r)) r,
     Returned tt).

Definition getNavigation : Act Running SessionState :=
  fun r => (r, Returned (navigation (session r))).

Definition syncLeafToSession (targetId : option string) : Act Running unit :=
  (match targetId with
   | None => liftHost resetLeaf
   | Some targetId => liftHost (branch targetId)
   end ;;
   (fun r => modifyNavigation (withCurrentLeafId (getLeafId (host r))) r) ;;
   (fun r =>
      liftTool
        (liftIO (restoreLeaf targetId
                   [sessionSandboxRoot (session r); sessionRealRoot (session r)]))
        r) ;;
   stats <- liftTool rescan ;;
   liftTool (setStats stats))%act.

Inductive NavigationAction : Type := actionUndo | actionRedo.

Definition actionName (action : NavigationAction) : string :=
  match action with
  | actionUndo => "undo"
  | actionRedo => "redo"
  end.

Definition actionLabel (action : NavigationAction) : string :=
  match action with
  | actionUndo => "Undo"
  | actionRedo => "Redo"
  end.

(** The [{ targetId?, message }] that [applyToolNavigation] returns. *)
Record NavigationReport : Type := {
  reportTargetId : option string;
  reportMessage : string
}.

Definition applyToolNavigation (action : NavigationAction)
  : Act Running NavigationReport :=
  (previous <- getNavigation ;;
   let previousLeaf := currentLeafId previous in
   let previousUndo := undoStack previous in
   let previousRedo := redoStack previous in
   let '(targetId, rest) :=
     match action with
     | actionUndo => pop (undoStack previous)
     | actionRedo => pop (redoStack previous)
     end in
   modifyNavigation
     (match action with
      | actionUndo => withUndoStack rest
      | actionRedo => withRedoStack rest
      end) ;;
   if negb (truthyOpt targetId) then
     retA {| reportTargetId := None;
             reportMessage := "No " +:+ actionName action +:+ " history." |}
   else
     (if truthyOpt previousLeaf then
        match previousLeaf with
        | Some leaf =>
            modifyNavigation
              (fun n =>
                 match action with
                 | actionUndo => withRedoStack (push (redoStack n) leaf) n
                 | actionRedo => withUndoStack (push (undoStack n) leaf) n
                 end)
        | None => retA tt
        end
      else retA tt) ;;
     tryCatch
       (liftTool (liftIO (saveLeaf previousLeaf)) ;;
        syncLeafToSession targetId ;;
        retA {| reportTargetId := targetId;
                reportMessage :=
                  actionLabel action
                  +:+ " applied: restored file snapshots for leaf "
                  +:+ match targetId with Some t => t | None => "" end
                  +:+ ". This tool does not update the UI or current turn context; changes apply on the next user prompt." |})
       (fun message =>
          modifyNavigation
            (fun n =>
               withCurrentLeafId previousLeaf
                 (withRedoStack ([] ++ previousRedo)
                    (withUndoStack ([] ++ previousUndo) n))) ;;
          syncLeafToSession previousLeaf ;;
          throwA ("Undo/redo tool failed: " +:+ message)))%act.

(** What [respond] returns: the text, the [targetId] of the details and
    [isError]. *)
Record ToolResponse : Type := {
  responseText : string;
  responseTargetId : option string;
  responseIsError : bool
}.

(** [execute] of the [undo_redo] tool for the actions [undo] and [redo],
    with the extension initialized and the signal not aborted. *)
Definition executeNavigation (action : NavigationAction)
  : Act Running ToolResponse :=
  ((fun r =>
      modifyNavigation
        (fun n =>
           if strictNeq (getLeafId (host r)) (currentLeafId n)
           then withCurrentLeafId (getLeafId (host r)) n
           else n) r) ;;
   result <- applyToolNavigation action ;;
   retA {| responseText := reportMessage result;
           responseTargetId := reportTargetId result;
           responseIsError := false |})%act.

(** The handler of [turn_end], for an initialized extension. *)
Definition handleTurnEnd (message : TurnMessage) : Act Running unit :=
  if isToolCallTurn message then retA tt
  else
    (fun r =>
       let leafId := getLeafId (host r) in
       ((if truthyOpt leafId
            && strictNeq leafId (currentLeafId (navigation (session r)))
         then
           modifyNavigation
             (fun n =>
                let n :=
                  if truthyOpt (currentLeafId n) then
                    match currentLeafId n with
                    | Some leaf => withUndoStack (push (undoStack n) leaf) n
                    | None => n
                    end
                  else n in
                withCurrentLeafId leafId n)
         else retA tt) ;;
        current <- getNavigation ;;
        liftTool (liftIO (saveLeaf (currentLeafId current))))%act r).

(** The handler of [session_tree], for an initialized extension. *)
Definition handleSessionTree (newLeafId oldLeafId : option string)
  : Act Running unit :=
  (modifyNavigation
     (fun n =>
        let n :=
          if negb (navigating n) && truthyOpt oldLeafId
             && strictNeq oldLeafId newLeafId
          then
            match oldLeafId with
            | Some old => withUndoStack (push (undoStack n) old) n
            | None => n
            end
          else n in
        withCurrentLeafId newLeafId n) ;;
   (fun r =>
      liftTool
        (liftIO (restoreLeaf newLeafId
                   [sessionSandboxRoot (session r); sessionRealRoot (session r)]))
        r) ;;
   stats <- liftTool rescan ;;
   liftTool (setStats stats) ;;
   modifyNavigation (withNavigating false))%act.

(** ** Definitions the statements about the handlers use *)

(** What [handleSessionTree] makes of the fields the commands read, when
    the restore and the scan succeed. *)
Definition sessionAfterTree (newLeafId oldLeafId : option string)
    (n : SessionState) : SessionState :=
  let n :=
    if negb (navigating n) && truthyOpt oldLeafId
       && strictNeq oldLeafId newLeafId
    then
      match oldLeafId with
      | Some old => withUndoStack (push (undoStack n) old) n
      | None => n
      end
    else n in
  withNavigating false (withCurrentLeafId newLeafId n).

(** A host whose [navigateTree targetId] fires [session_tree] for the move
    from the current leaf to the target, handled by [handleSessionTree]
    without an error, and then resolves. *)
Definition navigatesByTreeEvent (ctx : CommandCtx) : Prop :=
  exists wait nav,
    waitForIdle ctx = Some wait /\ navigateTree ctx = Some nav /\
    (forall n, wait n = (n, Returned tt)) /\
    (forall targetId n,
       nav targetId n
       = (sessionAfterTree (Some targetId) (currentLeafId n) n,
          Returned {| cancelled := false |})).

(** The stack an action pops, and the one it pushes on. *)
Definition ownStack (action : NavigationAction) (n : SessionState)
  : list string :=
  match action with
  | actionUndo => undoStack n
  | actionRedo => redoStack n
  end.

Definition otherStack (action : NavigationAction) (n : SessionState)
  : list string :=
  match action with
  | actionUndo => redoStack n
  | actionRedo => undoStack n
  end.

(** [previousLeaf] as [push] adds it: nothing when it is missing or
    empty. *)
Definition pushedLeaf (leaf : option string) : list string :=
  match leaf with
  | Some leaf => if truthy leaf then [leaf] else []
  | None => []
  end.

(** One run of a handler, whatever its outcome. *)
Inductive HandlerCall : Type :=
| CallTurnEnd (message : TurnMessage)
| CallSessionTree (newLeafId oldLeafId : option string)
| CallToolNavigation (action : NavigationAction).

Definition runHandler (call : HandlerCall) (r : Running) : Running :=
  match call with
  | CallTurnEnd message => fst (handleTurnEnd message r)
  | CallSessionTree newLeafId oldLeafId =>
      fst (handleSessionTree newLeafId oldLeafId r)
  | CallToolNavigation action => fst (applyToolNavigation action r)
  end.

(** A session manager whose [branch], when it returns, has made the entry
    the leaf. *)
Definition branchSetsLeaf : Prop :=
  forall entryId h h',
    branch entryId h = (h', Returned tt) -> getLeafId h' = Some entryId.

(** Every id on the two stacks is non-empty. *)
Definition stacksHoldIds (n : SessionState) : Prop :=
  Forall (fun id => truthy id = true) (undoStack n) /\
  Forall (fun id => truthy id = true) (redoStack n).

(** The two stacks of a running extension are those of another. *)
Definition sameStacks (r r' : Running) : Prop :=
  undoStack (navigation (session r')) = undoStack (navigation (session r)) /\
  redoStack (navigation (session r')) = redoStack (navigation (session r)).

Definition keepsStacks {T : Type} (c : Act Running T) : Prop :=
  forall r, sameStacks r (fst (c r)).

End Index.

(** ** Stand-ins for the platform, to run the definitions *)

Module Fixture.

Definition hashBuffer (buffer : string) : string := "sha256:" +:+ buffer.

Definition utf8RoundTrips (buffer : string) : bool := true.

Definition joinPath (root relativePath : string) : string :=
  root +:+ "/" +:+ relativePath.

Definition tracker0 : SnapshotTracker :=
  {| realRoot := "/real"; sandboxRoot := "/sandbox"; onStats := false;
     baseManifest := []; trackedManifest := []; leafCache := [] |}.

Definition world0 : World :=
  {| disk := ∅;
     cacheStore := {| blobsDir := ∅; basePath := None; leavesDir := ∅ |};
     tracker := tracker0; statsLog := [] |}.

(** An entry that exists and carries no hash. *)
Definition hashless : FileState.t :=
  {| FileState.exists_ := true; FileState.hash := None;
     FileState.size := None; FileState.binary := None |}.

Definition helloEntry : FileState.t :=
  {| FileState.exists_ := true; FileState.hash := Some "sha256:hello";
     FileState.size := Some 5; FileState.binary := Some false |}.

(** A base manifest with one entry of each kind, the blob of the third in
    the blob directory, and files at two of the paths under [/real]. *)
Definition world1 : World :=
  {| disk := <["/real/gone.txt" := "old"]> (<["/real/keep.txt" := "kept"]> ∅);
     cacheStore :=
       {| blobsDir := <["sha256:hello" := "hello"]> ∅;
          basePath := None; leavesDir := ∅ |};
     tracker :=
       {| realRoot := "/real"; sandboxRoot := "/sandbox"; onStats := true;
          baseManifest := [("gone.txt", FileState.absent);
                           ("keep.txt", hashless);
                           ("note.txt", helloEntry)];
          trackedManifest := []; leafCache := [] |};
     statsLog := [] |}.

(** Two tracked paths, one deleted and one with content, over an empty
    base. *)
Definition world2 : World :=
  {| disk := <["/real/gone.txt" := "old"]> ∅;
     cacheStore :=
       {| blobsDir := <["sha256:hello" := "hello"]> ∅;
          basePath := None; leavesDir := ∅ |};
     tracker :=
       {| realRoot := "/real"; sandboxRoot := "/sandbox"; onStats := true;
          baseManifest := [];
          trackedManifest := [("gone.txt", FileState.absent);
                              ("note.txt", helloEntry)];
          leafCache := [] |};
     statsLog := [] |}.

(** Two sandbox files with the same bytes, nothing stored yet. *)
Definition world3 : World :=
  {| disk := <["/sandbox/a.txt" := "same"]> (<["/sandbox/b.txt" := "same"]> ∅);
     cacheStore := {| blobsDir := ∅; basePath := None; leavesDir := ∅ |};
     tracker := tracker0; statsLog := [] |}.

(** The text whose lines are [lines], each ended by a newline. *)
Fixpoint text (lines : list string) : string :=
  match lines with
  | [] => ""
  | line :: rest => line +:+ String "010"%char (text rest)
  end.

Definition kept : list string :=
  ["k1"; "k2"; "k3"; "k4"; "k5"; "k6"; "k7"; "k8"; "k9"; "k10"].

Definition oldText : string := text (["a"] ++ kept ++ ["b"]).

Definition newText : string := text (["A"] ++ kept ++ ["B"]).

(** What [Diff.diffLines] returns for [oldText] and [newText]: the first
    and the last line replaced, the ten lines between them unchanged. *)
Definition diffLines (oldContent newContent : string) : list Part.t :=
  if String.eqb oldContent oldText && String.eqb newContent newText then
    [ {| Part.added := false; Part.removed := true; Part.value := text ["a"] |};
      {| Part.added := true; Part.removed := false; Part.value := text ["A"] |};
      {| Part.added := false; Part.removed := false;
         Part.value := text kept |};
      {| Part.added := false; Part.removed := true; Part.value := text ["b"] |};
      {| Part.added := true; Part.removed := false; Part.value := text ["B"] |} ]
  else [].

Definition platform : Platform :=
  Build_Platform hashBuffer utf8RoundTrips joinPath diffLines.

End Fixture.

(** ** Stand-ins for the host, to run the tools and the handlers *)

Module ToolFixture.

Definition reader : CacheReader :=
  {| toStringUtf8 := fun buffer => buffer;
     listLeafIdsOf := fun c => map fst (map_to_list (leavesDir c)) |}.

(** [s] without its first [n] characters. *)
Fixpoint dropChars (n : nat) (s : string) : string :=
  match n, s with
  | S k, String _ rest => dropChars k rest
  | _, _ => s
  end.

(** The files under [root], by their path relative to it. *)
Definition filesUnder (root : string) (d : gmap string string)
  : list (string * string) :=
  flat_map
    (fun kv =>
       if startsWith (fst kv) (root +:+ "/")
       then [(dropChars (String.length root + 1) (fst kv), snd kv)]
       else [])
    (map_to_list d).

Definition mtimeMsOf (w : World) (absolutePath : string) : Z :=
  match disk w !! absolutePath with
  | Some content => 1000 + Z.of_nat (String.length content)
  | None => 0
  end.

Definition scanDirectoryStats (w : World) (root : string)
    (ignores : string -> bool) : Outcome (JsMap.t SandboxEntryStats.t) :=
  Returned
    (flat_map
       (fun kv =>
          if ignores (fst kv) then []
          else [(fst kv,
                 SandboxEntryStats.mk
                   (Z.of_nat (String.length (snd kv)))
                   (mtimeMsOf w (root +:+ "/" +:+ fst kv)))])
       (filesUnder root (disk w))).

Definition times : FileTimes := Build_FileTimes mtimeMsOf scanDirectoryStats.

(** A regular expression source without its escapes. *)
Fixpoint unescape (source : string) : string :=
  match source with
  | EmptyString => ""
  | String c rest =>
      if Ascii.eqb c "\"%char then
        match rest with
        | EmptyString => ""
        | String c' rest' => String c' (unescape rest')
        end
      else String c (unescape rest)
  end.

(** [text] with every occurrence of [needle] replaced, left to right;
    [skip] characters are still part of the occurrence just replaced. *)
Fixpoint replaceAll (needle replacement : string) (skip : nat) (text : string)
  : string :=
  match text with
  | EmptyString => ""
  | String c rest =>
      match skip with
      | S k => replaceAll needle replacement k rest
      | O =>
          if startsWith text needle then
            replacement
            +:+ replaceAll needle replacement (String.length needle - 1) rest
          else String c (replaceAll needle replacement 0 rest)
      end
  end.

Definition relativeTo (from to : string) : string :=
  if String.eqb from to then ""
  else if startsWith to (from +:+ "/")
       then dropChars (String.length from + 1) to
       else "../" +:+ to.

Definition paths : PathLib :=
  {| sep := "/"%char;
     isAbsolute := fun p => startsWith p "/";
     resolve := fun cwd p => cwd +:+ "/" +:+ p;
     relative := relativeTo;
     pathJoin := fun a b => a +:+ "/" +:+ b;
     homedir := "/home/user";
     replaceUnicodeSpaces := fun value => value;
     replaceRegExp :=
       fun source text replacement =>
         replaceAll (unescape source) replacement 0 text |}.

(** A session manager that knows every entry but ["lost"]. *)
Definition manager : SessionManager :=
  {| Host := option string;
     getLeafId := fun h => h;
     branch := fun entryId h =>
                 if String.eqb entryId "lost"
                 then (h, Rejected "Entry lost not found")
                 else (Some entryId, Returned tt);
     resetLeaf := fun _ => (None, Returned tt) |}.

Definition runtime0 : Runtime :=
  {| runtimeRealRoot := "/real"; runtimeSandboxRoot := "/sandbox" |}.

Definition sandbox0 : SandboxState.t :=
  {| SandboxState.realRoot := "/real";
     SandboxState.sandboxRoot := "/sandbox";
     SandboxState.stats := [];
     SandboxState.ignoreMatcher := Some (fun _ => false) |}.

(** The tools over [world3]: two files in the sandbox, nothing tracked. *)
Definition tools0 : ToolState :=
  {| world := Fixture.world3; sandboxState := sandbox0; statusUpdates := 0 |}.

Definition said (text : string) : ToolResult :=
  [{| ContentItem.type := "text"; ContentItem.text := Some text |}].

(** A write tool that puts ["new"] into [a.txt], an edit tool that fails,
    a tool that removes [a.txt], a read tool, and a bash command that
    writes [c.txt], edits [a.txt] and removes [b.txt]. *)
Definition writeTool : HostTool :=
  fun d => (<["/sandbox/a.txt" := "new"]> d, Returned (said "wrote /sandbox/a.txt")).

Definition failingTool : HostTool :=
  fun d => (d, Rejected "no match in /sandbox/a.txt").

Definition removingTool : HostTool :=
  fun d => (delete "/sandbox/a.txt" d, Returned (said "done")).

Definition readTool : HostTool :=
  fun d => (d, Returned (said "same")).

Definition bashTool : HostTool :=
  fun d =>
    (<["/sandbox/c.txt" := "made"]>
       (<["/sandbox/a.txt" := "edited"]> (delete "/sandbox/b.txt" d)),
     Returned (said "ok in /sandbox")).

(** [tools0] after the first scan of the sandbox. *)
Definition toolsScanned : ToolState :=
  {| world := Fixture.world3;
     sandboxState :=
       SandboxState.withStats
         [("a.txt", SandboxEntryStats.mk 4 1004);
          ("b.txt", SandboxEntryStats.mk 4 1004)] sandbox0;
     statusUpdates := 0 |}.

(** [world1] with its blob directory emptied. *)
Definition world1NoBlobs : World :=
  withCacheStore {| blobsDir := ∅; basePath := None; leavesDir := ∅ |}
                 Fixture.world1.

(** A [Diff.diffLines] that knows whole texts only: equal texts are one
    unchanged part, different texts one removed and one added part. *)
Definition wholeTextDiff (oldContent newContent : string) : list Part.t :=
  if String.eqb oldContent newContent then
    [{| Part.added := false; Part.removed := false; Part.value := oldContent |}]
  else
    [{| Part.added := false; Part.removed := true; Part.value := oldContent |};
     {| Part.added := true; Part.removed := false; Part.value := newContent |}].

Definition wholeTextPlatform : Platform :=
  Build_Platform Fixture.hashBuffer Fixture.utf8RoundTrips Fixture.joinPath
                 wholeTextDiff.

(** Paths with the backslash as the separator. *)
Definition windowsPaths : PathLib :=
  {| sep := "\"%char;
     isAbsolute := fun p => startsWith p "C:\";
     resolve := fun cwd p => cwd +:+ "\" +:+ p;
     relative := relativeTo;
     pathJoin := fun a b => a +:+ "\" +:+ b;
     homedir := "C:\Users\user";
     replaceUnicodeSpaces := fun value => value;
     replaceRegExp :=
       fun source text replacement =>
         replaceAll (unescape source) replacement 0 text |}.

(** A session on leaf ["leaf-2"], with one id to undo to and one to redo
    to, and one whose undo stack ends in an entry the session manager has
    lost. *)
Definition navigation0 : SessionState :=
  {| currentLeafId := Some "leaf-2"; undoStack := ["leaf-0"; "leaf-1"];
     redoStack := ["leaf-3"]; navigating := false |}.

Definition running0 : @Running manager :=
  {| session := {| sessionRealRoot := "/real"; sessionSandboxRoot := "/sandbox";
                   runtime := tools0; navigation := navigation0 |};
     host := (Some "leaf-2" : @Host manager) |}.

Definition runningLost : @Running manager :=
  {| session := {| sessionRealRoot := "/real"; sessionSandboxRoot := "/sandbox";
                   runtime := tools0;
                   navigation := withUndoStack ["leaf-0"; "lost"] navigation0 |};
     host := (Some "leaf-2" : @Host manager) |}.

(** A command context whose [navigateTree] has the [session_tree] handler
    run for the move. *)
Definition treeCtx : CommandCtx :=
  {| waitForIdle := Some (fun n => (n, Returned tt));
     navigateTree :=
       Some (fun targetId n =>
               (sessionAfterTree (Some targetId) (currentLeafId n) n,
                Returned {| cancelled := false |})) |}.

End ToolFixture.

(** * Properties *)

Set Default Proof Using "Type".

Ltac world_simpl :=
  cbn [fst snd disk cacheStore tracker statsLog blobsDir basePath leavesDir
       realRoot sandboxRoot onStats baseManifest trackedManifest leafCache
       withDisk withCacheStore withTracker withStatsLog withBlobsDir
       withBasePath withLeavesDir withBaseManifest withTrackedManifest
       withLeafCache withBlobs newCache newTracker emitted].

(** ** Properties that do not depend on the platform *)

Lemma eqb_refl_true (k : string) : String.eqb k k = true.
Proof. apply String.eqb_refl. Qed.

Lemma eqb_false_ne (k k' : string) : k <> k' -> String.eqb k k' = false.
Proof. intros H. apply String.eqb_neq. exact H. Qed.

Lemma truthy_ne (s : string) : truthy s = true <-> s <> "".
Proof.
  unfold truthy. destruct (String.eqb_spec s ""); simpl; split; congruence.
Qed.

Section JsMapFacts.
Context {V : Type}.
Implicit Types (m : JsMap.t V) (k : string) (v : V).

Lemma get_set_eq m k v : JsMap.get (JsMap.set m k v) k = Some v.
Proof.
  induction m as [|[k' v'] m IH]; simpl.
  - now rewrite eqb_refl_true.
  - destruct (String.eqb_spec k' k) as [->|Hne]; simpl.
    + now rewrite eqb_refl_true.
    + rewrite eqb_false_ne by exact Hne. exact IH.
Qed.

Lemma get_set_ne m k k' v :
  k <> k' -> JsMap.get (JsMap.set m k v) k' = JsMap.get m k'.
Proof.
  intros Hne. induction m as [|[k0 v0] m IH]; simpl.
  - now rewrite eqb_false_ne.
  - destruct (String.eqb_spec k0 k) as [->|Hne0]; simpl.
    + now rewrite eqb_false_ne.
    + now rewrite IH.
Qed.

Lemma get_None_keys m k : JsMap.get m k = None <-> ~ In k (JsMap.keys m).
Proof.
  induction m as [|[k' v'] m IH]; simpl.
  - tauto.
  - destruct (String.eqb_spec k' k) as [->|Hne]; split.
    + discriminate.
    + intros H. exfalso. apply H. now left.
    + intros H [Heq|Hin]; [congruence | now apply IH].
    + intros H. apply IH. tauto.
Qed.

Lemma has_true_keys m k : JsMap.has m k = true <-> In k (JsMap.keys m).
Proof.
  unfold JsMap.has. destruct (JsMap.get m k) eqn:E.
  - split; [intros _ | reflexivity].
    destruct (in_dec string_dec k (JsMap.keys m)) as [Hin|Hout]; [exact Hin|].
    apply get_None_keys in Hout. congruence.
  - split; [discriminate|]. intros Hin. now apply get_None_keys in E.
Qed.

Lemma has_false_keys m k : JsMap.has m k = false <-> ~ In k (JsMap.keys m).
Proof.
  rewrite <- has_true_keys. destruct (JsMap.has m k); split; congruence.
Qed.

Lemma get_In m k v : JsMap.get m k = Some v -> In (k, v) m.
Proof.
  induction m as [|[k' v'] m IH]; simpl; [discriminate|].
  destruct (String.eqb_spec k' k) as [->|Hne].
  - intros [= ->]. now left.
  - intros H. right. now apply IH.
Qed.

Lemma In_get m k v : JsMap.wf m -> In (k, v) m -> JsMap.get m k = Some v.
Proof.
  unfold JsMap.wf, JsMap.keys.
  induction m as [|[k' v'] m IH]; simpl; [tauto|].
  intros Hnd [[= -> ->]|Hin].
  - now rewrite eqb_refl_true.
  - apply NoDup_cons in Hnd as [Hout Hnd].
    destruct (String.eqb_spec k' k) as [->|Hne].
    + exfalso. apply Hout. apply list_elem_of_In.
      change k with (fst (k, v)). now apply in_map.
    + now apply IH.
Qed.

Lemma set_fresh m k v :
  ~ In k (JsMap.keys m) -> JsMap.set m k v = m ++ [(k, v)].
Proof.
  induction m as [|[k' v'] m IH]; simpl; [reflexivity|].
  intros H. destruct (String.eqb_spec k' k) as [->|Hne]; [tauto|].
  rewrite IH by tauto. reflexivity.
Qed.

Lemma keys_set_present m k v :
  In k (JsMap.keys m) -> JsMap.keys (JsMap.set m k v) = JsMap.keys m.
Proof.
  induction m as [|[k' v'] m IH]; simpl; [tauto|].
  intros H. destruct (String.eqb_spec k' k) as [->|Hne]; simpl; [reflexivity|].
  f_equal. apply IH. destruct H; [congruence | assumption].
Qed.

Lemma wf_set m k v : JsMap.wf m -> JsMap.wf (JsMap.set m k v).
Proof.
  unfold JsMap.wf. intros Hnd.
  destruct (in_dec string_dec k (JsMap.keys m)) as [Hin|Hout].
  - now rewrite keys_set_present.
  - rewrite set_fresh by exact Hout. unfold JsMap.keys in *.
    rewrite map_app. simpl. apply NoDup_app. split; [exact Hnd|]. split.
    + intros x Hx. rewrite list_elem_of_In in Hx.
      intros Hx'. apply list_elem_of_In in Hx'. simpl in Hx'.
      destruct Hx' as [<-|[]]. contradiction.
    + apply NoDup_singleton.
Qed.

Lemma wf_fold_set (l : list (string * V)) m :
  JsMap.wf m ->
  JsMap.wf (fold_left (fun acc kv => JsMap.set acc (fst kv) (snd kv)) l m).
Proof.
  revert m. induction l as [|[k v] l IH]; simpl; intros m Hwf; [exact Hwf|].
  apply IH. now apply wf_set.
Qed.

Lemma wf_new_Map (l : list (string * V)) : JsMap.wf (JsMap.new_Map l).
Proof. apply wf_fold_set. unfold JsMap.wf. simpl. apply NoDup_nil_2. Qed.

Lemma fold_set_fresh (l : list (string * V)) m :
  JsMap.wf (m ++ l) ->
  fold_left (fun acc kv => JsMap.set acc (fst kv) (snd kv)) l m = m ++ l.
Proof.
  revert m. induction l as [|[k v] l IH]; simpl; intros m Hwf.
  - now rewrite app_nil_r.
  - assert (Hout : ~ In k (JsMap.keys m)).
    { unfold JsMap.wf, JsMap.keys in *. rewrite map_app in Hwf. simpl in Hwf.
      apply NoDup_app in Hwf as (_ & Hdis & _).
      intros Hin. apply (Hdis k); [now apply list_elem_of_In | left]. }
    rewrite set_fresh by exact Hout. rewrite IH.
    + now rewrite <- app_assoc.
    + now rewrite <- app_assoc.
Qed.

(** Copying a [Map] yields the same entries in the same order. *)
Lemma new_Map_id m : JsMap.wf m -> JsMap.new_Map m = m.
Proof. intros Hwf. unfold JsMap.new_Map. now rewrite fold_set_fresh. Qed.

(** The overlay loop of [restoreLeaf]: the last entry of a key wins, and
    the keys the overlay does not name keep the entry of the base. *)
Lemma get_fold_set (l : list (string * V)) m k :
  JsMap.get (fold_left (fun acc kv => JsMap.set acc (fst kv) (snd kv)) l m) k
  = match JsMap.get (rev l) k with
    | Some v => Some v
    | None => JsMap.get m k
    end.
Proof.
  revert m. induction l as [|[k' v'] l IH]; simpl; intros m; [reflexivity|].
  rewrite IH. clear IH.
  assert (Hrev : forall (r : JsMap.t V),
             JsMap.get (r ++ [(k', v')]) k
             = match JsMap.get r k with
               | Some v => Some v
               | None => if String.eqb k' k then Some v' else None
               end).
  { induction r as [|[k0 v0] r IHr]; simpl; [reflexivity|].
    destruct (String.eqb k0 k); [reflexivity | exact IHr]. }
  rewrite Hrev. destruct (JsMap.get (rev l) k); [reflexivity|].
  destruct (String.eqb_spec k' k) as [->|Hne].
  - apply get_set_eq.
  - now apply get_set_ne.
Qed.

Lemma get_rev_wf m k : JsMap.wf m -> JsMap.get (rev m) k = JsMap.get m k.
Proof.
  intros Hwf. destruct (JsMap.get m k) as [v|] eqn:E.
  - apply In_get.
    + unfold JsMap.wf, JsMap.keys in *. rewrite map_rev.
      apply NoDup_ListNoDup, List.NoDup_rev, NoDup_ListNoDup. exact Hwf.
    + apply in_rev. rewrite rev_involutive. now apply get_In.
  - apply get_None_keys. apply get_None_keys in E.
    unfold JsMap.keys in *. rewrite map_rev. now rewrite <- in_rev.
Qed.

End JsMapFacts.

Lemma strictNeq_true (a b : option string) : strictNeq a b = true <-> a <> b.
Proof.
  destruct a as [x|], b as [y|]; simpl; try (split; congruence).
  destruct (String.eqb_spec x y); simpl; split; congruence.
Qed.

Lemma strictNeq_false (a b : option string) : strictNeq a b = false <-> a = b.
Proof.
  destruct a as [x|], b as [y|]; simpl; try (split; congruence).
  destruct (String.eqb_spec x y); simpl; split; congruence.
Qed.

(** C4.  [describeChange] is defined on every pair of optional entries and
    follows the decision table: no change when neither entry exists (absent
    or [exists: false]); added when only the leaf entry exists; deleted when
    only the base entry exists; modified when both exist and their hashes
    differ; no change when both exist with equal hashes.  In particular two
    entries with equal existence and equal hash are never reported as a
    change. *)
Theorem describeChange_decision_table (baseEntry leafEntry : option FileState.t) :
  (existsOf baseEntry = false -> existsOf leafEntry = false ->
   describeChange baseEntry leafEntry = None) /\
  (existsOf baseEntry = false -> existsOf leafEntry = true ->
   describeChange baseEntry leafEntry = Some A) /\
  (existsOf baseEntry = true -> existsOf leafEntry = false ->
   describeChange baseEntry leafEntry = Some D) /\
  (existsOf baseEntry = true -> existsOf leafEntry = true ->
   hashOf baseEntry <> hashOf leafEntry ->
   describeChange baseEntry leafEntry = Some M) /\
  (existsOf baseEntry = true -> existsOf leafEntry = true ->
   hashOf baseEntry = hashOf leafEntry ->
   describeChange baseEntry leafEntry = None) /\
  (existsOf baseEntry = existsOf leafEntry ->
   hashOf baseEntry = hashOf leafEntry ->
   describeChange baseEntry leafEntry = None).
Proof.
  unfold describeChange.
  destruct (existsOf baseEntry) eqn:Hb, (existsOf leafEntry) eqn:Hl; simpl;
    repeat split; intros; try congruence.
  - apply strictNeq_true in H1. now rewrite H1.
  - apply strictNeq_false in H1. now rewrite H1.
  - apply strictNeq_false in H0. now rewrite H0.
Qed.

Lemma fold_diffAfterEntry before l addedAcc changedAcc :
  fold_left (diffAfterEntry before) l (addedAcc, changedAcc)
  = (addedAcc ++ addedOf before l, changedAcc ++ changedOf before l).
Proof.
  revert addedAcc changedAcc.
  induction l as [|[filePath entry] l IH]; intros addedAcc changedAcc.
  - unfold addedOf, changedOf. simpl. now rewrite !app_nil_r.
  - simpl. unfold addedOf, changedOf, JsMap.has in *. simpl.
    destruct (JsMap.get before filePath) as [previous|]; simpl.
    + destruct (statsDiffer previous entry); rewrite IH; simpl;
        now rewrite <- ?app_assoc.
    + rewrite IH. simpl. now rewrite <- app_assoc.
Qed.

Lemma fold_diffBeforeKey after ks removedAcc :
  fold_left (diffBeforeKey after) ks removedAcc
  = removedAcc ++ List.filter (fun k => negb (JsMap.has after k)) ks.
Proof.
  revert removedAcc. induction ks as [|k ks IH]; intros removedAcc; simpl.
  - now rewrite app_nil_r.
  - unfold diffBeforeKey at 2. rewrite IH.
    destruct (JsMap.has after k); simpl; [reflexivity|].
    now rewrite <- app_assoc.
Qed.

Lemma diffSandboxStats_eq before after :
  diffSandboxStats before after
  = {| added := addedOf before after;
       removed := List.filter (fun k => negb (JsMap.has after k))
                              (JsMap.keys before);
       changed := changedOf before after |}.
Proof.
  unfold diffSandboxStats. rewrite fold_diffAfterEntry, fold_diffBeforeKey.
  reflexivity.
Qed.

Lemma statsDiffer_true previous entry :
  statsDiffer previous entry = true <->
  SandboxEntryStats.size previous <> SandboxEntryStats.size entry \/
  SandboxEntryStats.mtimeMs previous <> SandboxEntryStats.mtimeMs entry.
Proof.
  unfold statsDiffer. rewrite orb_true_iff, !negb_true_iff, !Z.eqb_neq.
  reflexivity.
Qed.

(** C5.  [diffSandboxStats before after] partitions the paths: a path is
    listed as added exactly when it is in [after] only, as changed exactly
    when it is in both with a different size or modification time, as
    removed exactly when it is in [before] only, and a path in both with the
    same size and modification time is in none of the three lists.  On
    before = {a:(1,100), b:(2,200)} and after = {b:(3,200), c:(4,300)} the
    result is added = [c], changed = [b], removed = [a]. *)
Theorem diffSandboxStats_partitions :
  (forall (before after : JsMap.t SandboxEntryStats.t) (p : string),
     JsMap.wf after ->
     let d := diffSandboxStats before after in
     (In p (added d) <->
      JsMap.has after p = true /\ JsMap.has before p = false) /\
     (In p (changed d) <->
      exists a b, JsMap.get after p = Some a /\ JsMap.get before p = Some b /\
                  (SandboxEntryStats.size b <> SandboxEntryStats.size a \/
                   SandboxEntryStats.mtimeMs b <> SandboxEntryStats.mtimeMs a)) /\
     (In p (removed d) <->
      JsMap.has before p = true /\ JsMap.has after p = false) /\
     (forall a b, JsMap.get after p = Some a -> JsMap.get before p = Some b ->
                  SandboxEntryStats.size b = SandboxEntryStats.size a ->
                  SandboxEntryStats.mtimeMs b = SandboxEntryStats.mtimeMs a ->
                  ~ In p (added d) /\ ~ In p (changed d) /\ ~ In p (removed d))) /\
  diffSandboxStats
    [("a", SandboxEntryStats.mk 1 100); ("b", SandboxEntryStats.mk 2 200)]
    [("b", SandboxEntryStats.mk 3 200); ("c", SandboxEntryStats.mk 4 300)]
  = {| added := ["c"]; removed := ["a"]; changed := ["b"] |}.
Proof.
  split; [|reflexivity].
  intros before after p Hwf d. subst d. rewrite diffSandboxStats_eq. simpl.
  assert (Hadded : In p (addedOf before after) <->
                   JsMap.has after p = true /\ JsMap.has before p = false).
  { unfold addedOf. rewrite in_map_iff. split.
    - intros [[k a] [<- Hin]]. apply filter_In in Hin as [Hin Hneg].
      simpl in *. apply negb_true_iff in Hneg. split; [|exact Hneg].
      apply has_true_keys. change k with (fst (k, a)). now apply in_map.
    - intros [Hafter Hbefore]. apply has_true_keys in Hafter.
      apply in_map_iff in Hafter as [[k a] [<- Hin]].
      exists (k, a). split; [reflexivity|]. apply filter_In. simpl in *.
      now rewrite Hbefore. }
  assert (Hchanged : In p (changedOf before after) <->
            exists a b, JsMap.get after p = Some a /\ JsMap.get before p = Some b /\
              (SandboxEntryStats.size b <> SandboxEntryStats.size a \/
               SandboxEntryStats.mtimeMs b <> SandboxEntryStats.mtimeMs a)).
  { unfold changedOf. rewrite in_map_iff. split.
    - intros [[k a] [<- Hin]]. apply filter_In in Hin as [Hin Hdiff].
      simpl in *. destruct (JsMap.get before k) as [b|] eqn:Eb; [|discriminate].
      exists a, b. split; [now apply In_get|]. split; [reflexivity|].
      now apply statsDiffer_true.
    - intros (a & b & Ha & Hb & Hdiff). exists (p, a). split; [reflexivity|].
      apply filter_In. split; [now apply get_In|]. simpl. rewrite Hb.
      now apply statsDiffer_true. }
  assert (Hremoved : In p (List.filter (fun k => negb (JsMap.has after k))
                                       (JsMap.keys before)) <->
                     JsMap.has before p = true /\ JsMap.has after p = false).
  { rewrite filter_In, negb_true_iff, has_true_keys. reflexivity. }
  split; [exact Hadded|]. split; [exact Hchanged|]. split; [exact Hremoved|].
  intros a b Ha Hb Hsize Hmtime.
  rewrite Hadded, Hchanged, Hremoved. unfold JsMap.has. rewrite Ha, Hb.
  split; [intros [_ H]; discriminate|]. split; [|intros [_ H]; discriminate].
  intros (a' & b' & Ha' & Hb' & Hdiff).
  assert (a' = a) by congruence. assert (b' = b) by congruence. subst.
  destruct Hdiff; congruence.
Qed.

Lemma emitted_disk w : disk (emitted w) = disk w.
Proof. unfold emitted. now destruct (onStats (tracker w)). Qed.

Lemma emitted_tracker w : tracker (emitted w) = tracker w.
Proof. unfold emitted. now destruct (onStats (tracker w)). Qed.

Lemma emitted_cacheStore w : cacheStore (emitted w) = cacheStore w.
Proof. unfold emitted. now destruct (onStats (tracker w)). Qed.

Lemma withDisk_id w : withDisk (disk w) w = w.
Proof. now destruct w. Qed.

Lemma withDisk_withDisk d d' w : withDisk d (withDisk d' w) = withDisk d w.
Proof. reflexivity. Qed.

Lemma runOps_app ops ops' d : runOps (ops ++ ops') d = runOps ops' (runOps ops d).
Proof. unfold runOps. apply fold_left_app. Qed.

Lemma runOp_lookup op d absPath :
  runOp d op !! absPath
  = if String.eqb (opPath op) absPath then opResult op else d !! absPath.
Proof.
  destruct op as [q buffer|q]; simpl;
    destruct (String.eqb_spec q absPath) as [->|Hne].
  - apply lookup_insert_eq.
  - now apply lookup_insert_ne.
  - apply lookup_delete_eq.
  - now apply lookup_delete_ne.
Qed.

Lemma runOps_lookup ops d absPath :
  runOps ops d !! absPath
  = match lastOp ops absPath with
    | Some r => r
    | None => d !! absPath
    end.
Proof.
  revert d. induction ops as [|op ops IH]; intros d; simpl; [reflexivity|].
  change (runOps (op :: ops) d) with (runOps ops (runOp d op)).
  rewrite IH. destruct (lastOp ops absPath); [reflexivity|].
  rewrite runOp_lookup. now destruct (String.eqb (opPath op) absPath).
Qed.

(** Replaying the same operations changes nothing. *)
Lemma runOps_idempotent ops d : runOps ops (runOps ops d) = runOps ops d.
Proof.
  apply map_eq. intros absPath. rewrite !runOps_lookup.
  now destruct (lastOp ops absPath).
Qed.

Lemma lastOp_app ops ops' absPath :
  lastOp (ops ++ ops') absPath
  = match lastOp ops' absPath with
    | Some r => Some r
    | None => lastOp ops absPath
    end.
Proof.
  induction ops as [|op ops IH]; simpl.
  - now destruct (lastOp ops' absPath).
  - rewrite IH. now destruct (lastOp ops' absPath).
Qed.

Lemma withLeafCache_id t : withLeafCache (leafCache t) t = t.
Proof. now destruct t. Qed.

Lemma withTracker_id w : withTracker (tracker w) w = w.
Proof. now destruct w. Qed.

Lemma loadLeaf_eq leafId w :
  loadLeaf leafId w
  = (withTracker
       (withLeafCache
          (leafCacheAfterLoad (leafCache (tracker w)) (leavesDir (cacheStore w))
                              leafId) (tracker w)) w,
     Returned (JsMap.new_Map <$>
               loadedLeaf (leafCache (tracker w)) (leavesDir (cacheStore w))
                          leafId)).
Proof.
  unfold loadLeaf, loadedLeaf, leafCacheAfterLoad, bind, gets, ret, modify,
    readLeaf. simpl.
  destruct (JsMap.get (leafCache (tracker w)) leafId) as [cached|]; simpl.
  - now rewrite withLeafCache_id, withTracker_id.
  - destruct (leavesDir (cacheStore w) !! leafId) as [manifest|]; simpl.
    + reflexivity.
    + now rewrite withLeafCache_id, withTracker_id.
Qed.

Lemma restoreManifest_eq leafId w :
  restoreManifest leafId w
  = (withTracker
       (withLeafCache
          (leafCacheAfter (tracker w) (leavesDir (cacheStore w)) leafId)
          (tracker w)) w,
     Returned (effectiveManifest (tracker w) (leavesDir (cacheStore w)) leafId)).
Proof.
  unfold restoreManifest, effectiveManifest, leafCacheAfter, bind, gets, ret.
  destruct leafId as [id|]; simpl;
    [|now rewrite withLeafCache_id, withTracker_id].
  destruct (truthy id); simpl;
    [|now rewrite withLeafCache_id, withTracker_id].
  rewrite loadLeaf_eq.
  now destruct (loadedLeaf (leafCache (tracker w)) (leavesDir (cacheStore w)) id).
Qed.

Lemma loadedLeaf_after cache leaves leafId :
  loadedLeaf (leafCacheAfterLoad cache leaves leafId) leaves leafId
  = loadedLeaf cache leaves leafId.
Proof.
  unfold loadedLeaf, leafCacheAfterLoad.
  destruct (JsMap.get cache leafId) as [cached|] eqn:E; [now rewrite ?E|].
  destruct (leaves !! leafId) as [manifest|] eqn:El.
  - now rewrite get_set_eq.
  - now rewrite ?E, ?El.
Qed.

Lemma leafCacheAfterLoad_after cache leaves leafId :
  leafCacheAfterLoad (leafCacheAfterLoad cache leaves leafId) leaves leafId
  = leafCacheAfterLoad cache leaves leafId.
Proof.
  unfold leafCacheAfterLoad.
  destruct (JsMap.get cache leafId) as [cached|] eqn:E; [now rewrite ?E|].
  destruct (leaves !! leafId) as [manifest|] eqn:El.
  - now rewrite get_set_eq.
  - now rewrite ?E, ?El.
Qed.

Lemma wf_overlay (base leafManifest : Manifest) :
  JsMap.wf base -> JsMap.wf (overlay base leafManifest).
Proof. apply wf_fold_set. Qed.

Lemma effectiveManifest_wf t leaves leafId manifest :
  effectiveManifest t leaves leafId = Some manifest -> JsMap.wf manifest.
Proof.
  unfold effectiveManifest. intros H.
  destruct leafId as [id|].
  - destruct (truthy id).
    + destruct (loadedLeaf (leafCache t) leaves id); [|discriminate].
      injection H as <-. apply wf_overlay, wf_new_Map.
    + injection H as <-. apply wf_new_Map.
  - injection H as <-. apply wf_new_Map.
Qed.

Lemma withBlobs_id w : withBlobs (blobsDir (cacheStore w)) w = w.
Proof. destruct w as [d [b bp l] t sl]. reflexivity. Qed.

Lemma saveLeaf_eq leafId w :
  truthy leafId = true ->
  saveLeaf (Some leafId) w
  = (let snapshot := JsMap.new_Map (trackedManifest (tracker w)) in
     {| disk := disk w;
        cacheStore :=
          withLeavesDir (<[leafId := snapshot]> (leavesDir (cacheStore w)))
                        (cacheStore w);
        tracker := withLeafCache
                     (JsMap.set (leafCache (tracker w)) leafId snapshot)
                     (tracker w);
        statsLog := statsLog w |},
     Returned tt).
Proof. intros Ht. unfold saveLeaf. rewrite Ht. reflexivity. Qed.

Lemma FileState_inv_absent blobs : FileState_inv blobs FileState.absent.
Proof. split; [now intros _ | discriminate]. Qed.

Lemma writeSnapshotToCache_inv (snapshot : SnapshotData.t) (w : World) :
  exists e,
    snd (writeSnapshotToCache snapshot w) = Returned e /\
    FileState_inv
      (blobsDir (cacheStore (fst (writeSnapshotToCache snapshot w)))) e.
Proof.
  unfold writeSnapshotToCache.
  destruct (SnapshotData.exists_ snapshot); simpl;
    [|exists FileState.absent; split;
      [reflexivity | apply FileState_inv_absent]].
  destruct (SnapshotData.buffer snapshot) as [buffer|];
    [|exists FileState.absent; split;
      [reflexivity | apply FileState_inv_absent]].
  destruct (SnapshotData.hash snapshot) as [hash|];
    [|exists FileState.absent; split;
      [reflexivity | apply FileState_inv_absent]].
  destruct (truthy hash);
    [|exists FileState.absent; split;
      [reflexivity | apply FileState_inv_absent]].
  unfold bind, writeBlob, ret.
  destruct (blobsDir (cacheStore w) !! hash) as [stored|] eqn:E; simpl;
    eexists; (split; [reflexivity|]); (split; [discriminate|]);
    simpl; intros _ h [= <-].
  - rewrite E. eauto.
  - rewrite lookup_insert_eq. eauto.
Qed.

Lemma get_set_changed (m : Manifest) k v q e :
  JsMap.get (JsMap.set m k v) q = Some e -> JsMap.get m q <> Some e ->
  q = k /\ e = v.
Proof.
  intros Hget Hne. destruct (string_dec k q) as [->|Hkq].
  - rewrite get_set_eq in Hget. injection Hget as <-. now split.
  - rewrite get_set_ne in Hget by exact Hkq. contradiction.
Qed.

Lemma In_set_inv {V : Type} (m : JsMap.t V) k v x :
  In x (JsMap.set m k v) -> x = (k, v) \/ In x m.
Proof.
  induction m as [|[k' v'] m IH]; simpl.
  - intros [<-|[]]. now left.
  - destruct (String.eqb_spec k' k) as [->|Hne]; simpl.
    + intros [<-|Hin]; [now left | right; now right].
    + intros [<-|Hin]; [right; now left|].
      destruct (IH Hin) as [->|Hin']; [now left | right; now right].
Qed.

Lemma In_fold_set_inv {V : Type} (l : list (string * V)) (m : JsMap.t V) x :
  In x (fold_left (fun acc kv => JsMap.set acc (fst kv) (snd kv)) l m) ->
  In x l \/ In x m.
Proof.
  revert m. induction l as [|[k v] l IH]; simpl; intros m Hin; [now right|].
  destruct (IH _ Hin) as [Hl|Hm]; [left; now right|].
  destruct (In_set_inv _ _ _ _ Hm) as [->|Hm']; [left; now left | now right].
Qed.

Lemma In_new_Map_inv {V : Type} (l : list (string * V)) x :
  In x (JsMap.new_Map l) -> In x l.
Proof.
  intros Hin. destruct (In_fold_set_inv _ _ _ Hin) as [H|[]]. exact H.
Qed.

Lemma get_overlay (base leafManifest : Manifest) p e :
  JsMap.wf leafManifest ->
  JsMap.get leafManifest p = Some e ->
  JsMap.get (overlay base leafManifest) p = Some e.
Proof.
  intros Hwf Hget. unfold overlay.
  now rewrite get_fold_set, get_rev_wf, Hget.
Qed.

Lemma writeFile_eq absPath content w :
  writeFile absPath content w
  = (withDisk (<[absPath := content]> (disk w)) w, Returned tt).
Proof. reflexivity. Qed.

Lemma cp_eq source target content w :
  disk w !! source = Some content ->
  cp source target w = (withDisk (<[target := content]> (disk w)) w, Returned tt).
Proof. intros H. unfold cp, bind, readFile. now rewrite H. Qed.

Lemma loadBase_none w : basePath (cacheStore w) = None -> loadBase w = (w, Returned tt).
Proof. intros H. unfold loadBase, bind, readBase, gets. now rewrite H. Qed.

(** What a failed [/undo] leaves: whatever fails (waiting for idle, the
    navigation, or its cancellation), the top of the undo stack stays
    popped and the current leaf stays pushed on the redo stack; only the
    current leaf is what it was before the command. *)
Lemma navigateTo_failure ctx session targetId wait nav :
  waitForIdle ctx = Some wait -> navigateTree ctx = Some nav ->
  (exists s message,
     wait (withNavigating true session) = (s, Rejected message)) \/
  (exists s s' message,
     wait (withNavigating true session) = (s, Returned tt) /\
     nav targetId s = (s', Rejected message)) \/
  (exists s s',
     wait (withNavigating true session) = (s, Returned tt) /\
     nav targetId s = (s', Returned {| cancelled := true |})) ->
  let after := fst (navigateTo ctx session targetId) in
  undoStack after = undoStack session /\
  redoStack after = redoStack session /\
  currentLeafId after = currentLeafId session /\
  navigating after = false.
Proof.
  intros Hwait Hnav Hfail after. subst after. unfold navigateTo.
  rewrite Hwait, Hnav.
  destruct Hfail as [(s & message & H1)|[(s & s' & message & H1 & H2)|
                                         (s & s' & H1 & H2)]];
    rewrite H1; try rewrite H2; simpl; repeat split; reflexivity.
Qed.

Lemma pop_snoc (a : list string) (x : string) : pop (a ++ [x]) = (Some x, a).
Proof. unfold pop. now rewrite last_snoc, removelast_last. Qed.

(** The state a failed [/undo] ends in, for a session with a current leaf
    and a non-empty undo stack. *)
Lemma undoCommand_failure ctx (leaf targetId : string) (rest redo : list string)
    (nav : bool) :
  navigationFails ctx -> truthy leaf = true -> truthy targetId = true ->
  exists notices,
    undoCommand ctx
      (Some {| currentLeafId := Some leaf; undoStack := rest ++ [targetId];
               redoStack := redo; navigating := nav |})
    = (Some {| currentLeafId := Some leaf; undoStack := rest;
               redoStack := redo ++ [leaf]; navigating := false |},
       notices).
Proof.
  intros (wait & navTree & Hwait & Hnav & Hfail) Hleaf Htarget.
  unfold undoCommand. cbn [undoStack]. rewrite pop_snoc, Htarget.
  cbn [currentLeafId withUndoStack truthyOpt]. rewrite Hleaf.
  unfold withRedoStack, withUndoStack, push.
  cbn [currentLeafId undoStack redoStack navigating].
  set (session := {| currentLeafId := Some leaf; undoStack := rest |}).
  pose proof (navigateTo_failure ctx session targetId wait navTree Hwait Hnav
                (Hfail targetId _)) as (Hu & Hr & Hc & Hn).
  destruct (navigateTo ctx session targetId) as [[leaf' undo' redo' nav'] notices].
  simpl in *. subst. eauto.
Qed.

(** C1, at a failing input.  With the undo stack [leaf-1, leaf-2], an
    empty redo stack and the current leaf leaf-3, a [/undo] whose
    [navigateTree] throws ends with the undo stack [leaf-1] and the redo
    stack [leaf-3]: the stacks are not what they were when the command
    began.  A [/redo] whose navigation is cancelled does the same on the
    other side. *)
Theorem failed_undo_redo_command_changes_stacks :
  undoCommand
    {| waitForIdle := Some (fun s => (s, Returned tt));
       navigateTree := Some (fun _ s => (s, Rejected "navigation failed")) |}
    (Some {| currentLeafId := Some "leaf-3"; undoStack := ["leaf-1"; "leaf-2"];
             redoStack := []; navigating := false |})
  = (Some {| currentLeafId := Some "leaf-3"; undoStack := ["leaf-1"];
             redoStack := ["leaf-3"]; navigating := false |},
     [{| noticeMessage := "navigation failed"; noticeLevel := warning |}]) /\
  redoCommand
    {| waitForIdle := Some (fun s => (s, Returned tt));
       navigateTree :=
         Some (fun _ s => (s, Returned {| cancelled := true |})) |}
    (Some {| currentLeafId := Some "leaf-3"; undoStack := ["leaf-1"; "leaf-2"];
             redoStack := ["leaf-4"]; navigating := false |})
  = (Some {| currentLeafId := Some "leaf-3";
             undoStack := ["leaf-1"; "leaf-2"; "leaf-3"];
             redoStack := []; navigating := false |},
     [{| noticeMessage := "Navigation cancelled"; noticeLevel := warning |}]).
Proof. split; reflexivity. Qed.

Lemma fold_contextLine lineNumWidth lines st :
  let st' := fold_left (contextLine lineNumWidth) lines st in
  output st' = output st ++ numberedContext lineNumWidth (oldLineNum st) lines /\
  oldLineNum st' = (oldLineNum st + length lines)%nat /\
  newLineNum st' = (newLineNum st + length lines)%nat /\
  lastWasChange st' = lastWasChange st /\
  firstChangedLine st' = firstChangedLine st.
Proof.
  revert st. induction lines as [|line rest IH]; intros st; simpl.
  - rewrite app_nil_r. repeat split; lia.
  - destruct (IH (contextLine lineNumWidth st line)) as (Ho & Hold & Hnew & Hl & Hf).
    rewrite Ho, Hold, Hnew, Hl, Hf. simpl. rewrite <- app_assoc. simpl.
    repeat split; lia.
Qed.

Lemma skipLines_spec lineNumWidth skipped st :
  let st' := skipLines lineNumWidth skipped st in
  output st'
  = output st ++ (if (0 <? skipped)%nat then [ellipsisLine lineNumWidth] else []) /\
  oldLineNum st' = (oldLineNum st + skipped)%nat /\
  newLineNum st' = (newLineNum st + skipped)%nat /\
  lastWasChange st' = lastWasChange st /\
  firstChangedLine st' = firstChangedLine st.
Proof.
  unfold skipLines. destruct (Nat.ltb_spec 0 skipped); simpl.
  - repeat split; reflexivity.
  - rewrite app_nil_r. repeat split; lia.
Qed.

Lemma fold_changedLine_flags lineNumWidth part raw st :
  let st' :=
    fold_left
      (fun st line =>
         if Part.added part then addedLine lineNumWidth st line
         else removedLine lineNumWidth st line)
      raw st in
  (exists printed, output st' = output st ++ printed) /\
  lastWasChange st' = lastWasChange st.
Proof.
  revert st. induction raw as [|line rest IH]; intros st; simpl.
  - split; [exists []; now rewrite app_nil_r | reflexivity].
  - destruct (IH (if Part.added part then addedLine lineNumWidth st line
                  else removedLine lineNumWidth st line))
      as ((printed & Ho) & Hl).
    rewrite Ho, Hl.
    destruct (Part.added part); simpl; rewrite <- app_assoc; eauto.
Qed.

Lemma changedPart_lastWasChange lineNumWidth part raw st :
  lastWasChange (changedPart lineNumWidth part raw st) = true.
Proof. reflexivity. Qed.

Lemma changedPart_output lineNumWidth part raw st :
  exists printed,
    output (changedPart lineNumWidth part raw st) = output st ++ printed.
Proof.
  unfold changedPart. cbn [withLastWasChange output].
  destruct (firstChangedLine st);
    match goal with
    | |- context [fold_left ?f raw ?st0] =>
        destruct (fold_changedLine_flags lineNumWidth part raw st0)
          as ((printed & Ho) & _)
    end; cbv zeta in Ho; rewrite Ho; eauto.
Qed.

Lemma unchangedPart_output contextLines lineNumWidth nextPartIsChange raw st :
  exists printed,
    output (unchangedPart contextLines lineNumWidth nextPartIsChange raw st)
    = output st ++ printed.
Proof.
  unfold unchangedPart. cbn [withLastWasChange output].
  destruct (lastWasChange st || nextPartIsChange).
  - destruct (negb (lastWasChange st));
      match goal with
      | |- context [if ?c then _ else _] => destruct c
      end;
      match goal with
      | |- context [skipLines _ ?b (fold_left _ ?l (skipLines _ ?a st))] =>
          pose proof (skipLines_spec lineNumWidth a st) as (Ho1 & _);
          pose proof (fold_contextLine lineNumWidth l
                        (skipLines lineNumWidth a st)) as (Ho2 & _);
          pose proof (skipLines_spec lineNumWidth b
                        (fold_left (contextLine lineNumWidth) l
                                   (skipLines lineNumWidth a st))) as (Ho3 & _)
      end;
      cbv zeta in *; rewrite Ho3, Ho2, Ho1, <- !app_assoc; eauto.
  - exists []. simpl. now rewrite app_nil_r.
Qed.

Lemma diffLoop_output contextLines lineNumWidth parts st :
  exists printed,
    output (diffLoop contextLines lineNumWidth parts st) = output st ++ printed.
Proof.
  revert st. induction parts as [|part rest IH]; intros st; simpl.
  - exists []. now rewrite app_nil_r.
  - match goal with
    | |- context [diffLoop _ _ rest ?st1] =>
        destruct (IH st1) as (printed & Ho); rewrite Ho
    end.
    destruct (Part.added part || Part.removed part).
    + destruct (changedPart_output lineNumWidth part
                  (popEmptyLast (split_newline (Part.value part))) st)
        as (printed1 & Ho1).
      rewrite Ho1, <- app_assoc. eauto.
    + match goal with
      | |- context [unchangedPart _ _ ?b ?raw st] =>
          destruct (unchangedPart_output contextLines lineNumWidth b raw st)
            as (printed1 & Ho1)
      end.
      rewrite Ho1, <- app_assoc. eauto.
Qed.

Lemma unchangedPart_between contextLines lineNumWidth raw st :
  lastWasChange st = true ->
  output (unchangedPart contextLines lineNumWidth true raw st)
  = output st ++ numberedContext lineNumWidth (oldLineNum st) raw.
Proof.
  intros Hlast. unfold unchangedPart. rewrite Hlast. cbn [orb negb andb].
  pose proof (skipLines_spec lineNumWidth 0 st) as (Ho1 & Hold1 & _).
  pose proof (fold_contextLine lineNumWidth raw (skipLines lineNumWidth 0 st))
    as (Ho2 & _).
  pose proof (skipLines_spec lineNumWidth 0
                (fold_left (contextLine lineNumWidth) raw
                           (skipLines lineNumWidth 0 st)))
    as (Ho3 & _).
  cbv zeta in *. cbn [withLastWasChange output].
  rewrite Ho3, Ho2, Ho1, Hold1. simpl.
  now rewrite !app_nil_r, Nat.add_0_r.
Qed.

(** In the loop, an unchanged part that stands between two changed parts
    is printed whole, whatever the context window. *)
Lemma diffLoop_run_between_changes contextLines lineNumWidth
    (change1 run change2 : Part.t) (rest : list Part.t) (st : DiffLoop) :
  isChange change1 = true -> isChange run = false -> isChange change2 = true ->
  let st1 := changedPart lineNumWidth change1 (rawLines change1) st in
  exists printed,
    output (diffLoop contextLines lineNumWidth
              (change1 :: run :: change2 :: rest) st)
    = output st1
      ++ numberedContext lineNumWidth (oldLineNum st1) (rawLines run)
      ++ printed.
Proof.
  intros H1 Hrun H2 st1. unfold isChange, rawLines in *.
  cbn [diffLoop]. rewrite H1, Hrun, H2. fold st1.
  match goal with
  | |- context [diffLoop _ _ rest ?st3] =>
      destruct (diffLoop_output contextLines lineNumWidth rest st3)
        as (printed3 & Ho3); rewrite Ho3
  end.
  match goal with
  | |- context [changedPart _ change2 ?raw ?st2] =>
      destruct (changedPart_output lineNumWidth change2 raw st2)
        as (printed2 & Ho2); rewrite Ho2
  end.
  rewrite unchangedPart_between by reflexivity.
  rewrite <- !app_assoc. eauto.
Qed.


(** ** Properties of the tracker *)

Section EngineFacts.
Context {platform : Platform}.

Lemma applyEntry_ops targetRoot kv w :
  applyEntry targetRoot kv w
  = match entryOps (blobsDir (cacheStore w)) targetRoot kv with
    | Some ops => (withDisk (runOps ops (disk w)) w, Returned tt)
    | None => (w, Rejected "ENOENT")
    end.
Proof.
  destruct kv as [relativePath entry].
  unfold applyEntry, entryOps, modify, ret, bind, readBlob. simpl.
  destruct (FileState.exists_ entry); simpl; [|reflexivity].
  destruct (FileState.hash entry) as [hash|]; simpl;
    [|now rewrite withDisk_id].
  destruct (truthy hash); simpl; [|now rewrite withDisk_id].
  now destruct (blobsDir (cacheStore w) !! hash).
Qed.

Lemma applyManifest_ops manifest targetRoot w :
  applyManifest manifest targetRoot w
  = (withDisk (runOps (fst (manifestOps (blobsDir (cacheStore w)) targetRoot
                                        manifest)) (disk w)) w,
     rejectedIf (snd (manifestOps (blobsDir (cacheStore w)) targetRoot manifest))).
Proof.
  unfold applyManifest. revert w.
  induction manifest as [|kv rest IH]; intros w; simpl.
  - unfold ret. now rewrite withDisk_id.
  - unfold bind. rewrite applyEntry_ops.
    destruct (entryOps (blobsDir (cacheStore w)) targetRoot kv) as [ops|];
      simpl; [|now rewrite withDisk_id].
    rewrite IH. simpl.
    destruct (manifestOps (blobsDir (cacheStore w)) targetRoot rest)
      as [ops' ok]. simpl.
    now rewrite runOps_app.
Qed.

Lemma forOf_applyManifest_ops manifest roots w :
  forOf roots (fun root => applyManifest manifest root) w
  = (withDisk (runOps (fst (rootsOps (blobsDir (cacheStore w)) manifest roots))
                      (disk w)) w,
     rejectedIf (snd (rootsOps (blobsDir (cacheStore w)) manifest roots))).
Proof.
  revert w. induction roots as [|root rest IH]; intros w; simpl.
  - unfold ret. now rewrite withDisk_id.
  - unfold bind. rewrite applyManifest_ops.
    destruct (manifestOps (blobsDir (cacheStore w)) root manifest)
      as [ops ok]. simpl.
    destruct ok; simpl; [|reflexivity].
    rewrite IH. simpl.
    destruct (rootsOps (blobsDir (cacheStore w)) manifest rest) as [ops' ok'].
    simpl. now rewrite runOps_app.
Qed.

Lemma restoreLeaf_eq leafId applyRoots w :
  restoreLeaf leafId applyRoots w = restoreLeafResult leafId applyRoots w.
Proof.
  unfold restoreLeaf, restoreLeafResult, bind. rewrite restoreManifest_eq.
  destruct (effectiveManifest (tracker w) (leavesDir (cacheStore w)) leafId)
    as [manifest|]; [|reflexivity].
  rewrite forOf_applyManifest_ops. simpl.
  destruct (rootsOps (blobsDir (cacheStore w)) manifest applyRoots)
    as [ops ok]. simpl.
  destruct ok; reflexivity.
Qed.


Lemma lastOp_entryOps_other blobs root kv ops absPath :
  entryOps blobs root kv = Some ops ->
  joinPath root (fst kv) <> absPath ->
  lastOp ops absPath = None.
Proof.
  unfold entryOps. intros Hops Hne.
  destruct (FileState.exists_ (snd kv)); simpl in Hops.
  - destruct (FileState.hash (snd kv)) as [hash|]; simpl in Hops.
    + destruct (truthy hash); simpl in Hops.
      * destruct (blobs !! hash); [|discriminate].
        injection Hops as <-. simpl. now rewrite eqb_false_ne.
      * now injection Hops as <-.
    + now injection Hops as <-.
  - injection Hops as <-. simpl. now rewrite eqb_false_ne.
Qed.

Lemma lastOp_entryOps_same blobs root p e ops :
  entryOps blobs root (p, e) = Some ops ->
  lastOp ops (joinPath root p) = entryEffect blobs e.
Proof.
  unfold entryOps, entryEffect. simpl. intros Hops.
  destruct (FileState.exists_ e); simpl in *.
  - destruct (FileState.hash e) as [hash|]; simpl in *.
    + destruct (truthy hash); simpl in *.
      * destruct (blobs !! hash); [|discriminate].
        injection Hops as <-. simpl. now rewrite eqb_refl_true.
      * now injection Hops as <-.
    + now injection Hops as <-.
  - injection Hops as <-. simpl. now rewrite eqb_refl_true.
Qed.

Lemma lastOp_manifestOps_other blobs root manifest absPath :
  (forall q, In q (JsMap.keys manifest) -> joinPath root q <> absPath) ->
  lastOp (fst (manifestOps blobs root manifest)) absPath = None.
Proof.
  induction manifest as [|kv rest IH]; simpl; intros Hne; [reflexivity|].
  destruct (entryOps blobs root kv) as [ops|] eqn:Hops; [|reflexivity].
  destruct (manifestOps blobs root rest) as [ops' ok]. simpl in *.
  rewrite lastOp_app, IH by (intros q Hq; apply Hne; now right).
  eapply lastOp_entryOps_other; [exact Hops|]. apply Hne. now left.
Qed.

Lemma lastOp_manifestOps_entry blobs root manifest p e :
  snd (manifestOps blobs root manifest) = true ->
  JsMap.wf manifest ->
  (forall q, In q (JsMap.keys manifest) ->
             joinPath root q = joinPath root p -> q = p) ->
  In (p, e) manifest ->
  lastOp (fst (manifestOps blobs root manifest)) (joinPath root p)
  = entryEffect blobs e.
Proof.
  unfold JsMap.wf.
  induction manifest as [|[p0 e0] rest IH]; simpl; intros Hok Hwf Hinj Hin;
    [tauto|].
  apply NoDup_cons in Hwf as [Hout Hwf]. rewrite list_elem_of_In in Hout.
  destruct (entryOps blobs root (p0, e0)) as [ops|] eqn:Hops;
    [|discriminate].
  destruct (manifestOps blobs root rest) as [ops' ok] eqn:Hrest.
  simpl in *. subst ok. rewrite lastOp_app.
  destruct Hin as [[= -> ->]|Hin].
  - replace (lastOp ops' (joinPath root p)) with (@None (option string)).
    + now apply lastOp_entryOps_same.
    + symmetry. change ops' with (fst (ops', true)). rewrite <- Hrest.
      apply lastOp_manifestOps_other. intros q Hq Heq.
      assert (q = p) by (apply Hinj; [now right | exact Heq]). congruence.
  - assert (Hp : In p (JsMap.keys rest)).
    { change p with (fst (p, e)). now apply in_map. }
    rewrite IH; try assumption; try reflexivity.
    + destruct (entryEffect blobs e) eqn:Heff; [reflexivity|].
      eapply lastOp_entryOps_other; [exact Hops|]. simpl. intros Heq.
      assert (p0 = p) by (apply Hinj; [now left | exact Heq]). congruence.
    + intros q Hq. apply Hinj. now right.
Qed.

Lemma lastOp_rootsOps_entry blobs manifest roots root p e :
  snd (rootsOps blobs manifest roots) = true ->
  JsMap.wf manifest ->
  pathsDistinct roots manifest ->
  In root roots -> In (p, e) manifest ->
  lastOp (fst (rootsOps blobs manifest roots)) (joinPath root p)
  = entryEffect blobs e.
Proof.
  intros Hok Hwf Hdist Hroot Hin.
  assert (Hp : In p (JsMap.keys manifest)).
  { change p with (fst (p, e)). now apply in_map. }
  induction roots as [|r0 rest IH]; simpl in *; [tauto|].
  destruct (manifestOps blobs r0 manifest) as [ops ok] eqn:Hm.
  destruct ok; [|discriminate].
  destruct (rootsOps blobs manifest rest) as [ops' ok'] eqn:Hr.
  simpl in *. subst ok'. rewrite lastOp_app.
  assert (Hdist' : pathsDistinct rest manifest).
  { intros r r' a b Hr1 Hr2. apply Hdist; now right. }
  assert (Hhead : root = r0 -> lastOp ops (joinPath root p) = entryEffect blobs e).
  { intros ->. change ops with (fst (ops, true)). rewrite <- Hm.
    apply lastOp_manifestOps_entry; try assumption.
    - now rewrite Hm.
    - intros q Hq Heq.
      destruct (Hdist r0 r0 q p) as [_ Hqp]; simpl; auto. }
  assert (Hother : root <> r0 -> lastOp ops (joinPath root p) = None).
  { intros Hne. change ops with (fst (ops, true)). rewrite <- Hm.
    apply lastOp_manifestOps_other. intros q Hq Heq.
    destruct (Hdist r0 root q p) as [Hrr _]; simpl; auto. }
  destruct (in_dec string_dec root rest) as [Hrest|Hrest].
  - rewrite (IH eq_refl Hdist' Hrest).
    destruct (entryEffect blobs e) eqn:Heff; [reflexivity|].
    destruct (string_dec root r0) as [Heq|Hne].
    + now rewrite Hhead.
    + now apply Hother.
  - destruct Hroot as [<-|Hroot]; [|contradiction].
    replace (lastOp ops' (joinPath r0 p)) with (@None (option string)).
    + now apply Hhead.
    + symmetry. clear IH Hhead Hother.
      revert ops' Hr Hrest Hdist. clear Hdist'.
      induction rest as [|r1 rest IH1]; simpl; intros ops' Hr Hrest Hdist.
      * now injection Hr as <-.
      * destruct (manifestOps blobs r1 manifest) as [ops1 ok1] eqn:Hm1.
        destruct ok1; [|discriminate].
        destruct (rootsOps blobs manifest rest) as [ops2 ok2] eqn:Hr2.
        injection Hr as <- ->. rewrite lastOp_app.
        rewrite (IH1 ops2); try reflexivity.
        -- change ops1 with (fst (ops1, true)). rewrite <- Hm1.
           apply lastOp_manifestOps_other. intros q Hq Heq.
           apply Hrest. left.
           destruct (Hdist r1 r0 q p) as [Hrr _]; simpl; auto.
        -- tauto.
        -- intros r r' a b Hr1 Hr2'. apply Hdist.
           ++ destruct Hr1 as [<-|Hr1]; [now left | right; now right].
           ++ destruct Hr2' as [<-|Hr2']; [now left | right; now right].
Qed.

Lemma manifestOps_ok blobs root manifest :
  blobsAvailable blobs manifest -> snd (manifestOps blobs root manifest) = true.
Proof.
  induction manifest as [|[p e] rest IH]; simpl; intros Hav; [reflexivity|].
  assert (Hrest : snd (manifestOps blobs root rest) = true).
  { apply IH. intros p' e' h Hin. apply (Hav p' e' h). now right. }
  assert (Hentry : exists ops, entryOps blobs root (p, e) = Some ops).
  { unfold entryOps. simpl. destruct (FileState.exists_ e) eqn:He; simpl; eauto.
    destruct (FileState.hash e) as [hash|] eqn:Hh; simpl; eauto.
    destruct (truthy hash) eqn:Ht; simpl; eauto.
    destruct (Hav p e hash) as [buffer Hb]; auto; [now left|].
    rewrite Hb. eauto. }
  destruct Hentry as [ops ->].
  destruct (manifestOps blobs root rest) as [ops' ok]. exact Hrest.
Qed.

Lemma rootsOps_ok blobs manifest roots :
  blobsAvailable blobs manifest -> snd (rootsOps blobs manifest roots) = true.
Proof.
  intros Hav. induction roots as [|root rest IH]; simpl; [reflexivity|].
  pose proof (manifestOps_ok blobs root manifest Hav) as Hm.
  destruct (manifestOps blobs root manifest) as [ops ok]. simpl in Hm. subst ok.
  destruct (rootsOps blobs manifest rest) as [ops' ok']. exact IH.
Qed.

Lemma restoreLeaf_disk_lookup leafId applyRoots w manifest root p e :
  effectiveManifest (tracker w) (leavesDir (cacheStore w)) leafId = Some manifest ->
  blobsAvailable (blobsDir (cacheStore w)) manifest ->
  pathsDistinct applyRoots manifest ->
  In root applyRoots -> In (p, e) manifest ->
  snd (restoreLeaf leafId applyRoots w) = Returned tt /\
  trackedManifest (tracker (fst (restoreLeaf leafId applyRoots w))) = manifest /\
  disk (fst (restoreLeaf leafId applyRoots w)) !! joinPath root p
  = match entryEffect (blobsDir (cacheStore w)) e with
    | Some r => r
    | None => disk w !! joinPath root p
    end.
Proof.
  intros Heff Hav Hdist Hroot Hin.
  rewrite restoreLeaf_eq. unfold restoreLeafResult. rewrite Heff.
  pose proof (rootsOps_ok _ manifest applyRoots Hav) as Hok.
  pose proof (effectiveManifest_wf _ _ _ _ Heff) as Hwf.
  rewrite Hok. cbn [fst snd]. rewrite emitted_tracker, emitted_disk. simpl.
  split; [reflexivity|]. split; [now apply new_Map_id|].
  rewrite runOps_lookup.
  now rewrite (lastOp_rootsOps_entry _ manifest applyRoots root p e).
Qed.

Lemma restoreLeaf_returns (leafId : option string)
    (applyRoots : list string) (w : World) (manifest : Manifest) :
  effectiveManifest (tracker w) (leavesDir (cacheStore w)) leafId = Some manifest ->
  blobsAvailable (blobsDir (cacheStore w)) manifest ->
  snd (restoreLeaf leafId applyRoots w) = Returned tt.
Proof.
  intros Heff Hav.
  rewrite restoreLeaf_eq. unfold restoreLeafResult. rewrite Heff.
  now rewrite (rootsOps_ok _ manifest applyRoots Hav).
Qed.


(** C10, amended.  For a non-empty leaf id whose manifest is neither in
    the leaf cache nor in the leaves directory, [restoreLeaf] returns and
    leaves the whole world as it was: no file is written or deleted at any
    root, the tracked manifest, the leaf cache and the reported stats are
    unchanged, and the base manifest is not applied. *)
Theorem restoreLeaf_unknown_leaf_noop (leafId : string)
    (applyRoots : list string) (w : World) :
  leafId <> "" ->
  JsMap.get (leafCache (tracker w)) leafId = None ->
  leavesDir (cacheStore w) !! leafId = None ->
  restoreLeaf (Some leafId) applyRoots w = (w, Returned tt).
Proof.
  intros Hne Hcache Hstore. apply truthy_ne in Hne.
  rewrite restoreLeaf_eq.
  unfold restoreLeafResult, effectiveManifest, leafCacheAfter, loadedLeaf,
    leafCacheAfterLoad.
  rewrite Hne, Hcache, Hstore.
  now rewrite withLeafCache_id, withTracker_id.
Qed.

Lemma readSnapshot_eq absPath w :
  readSnapshot absPath w = (w, Returned (snapshotOf (disk w !! absPath))).
Proof. unfold readSnapshot, snapshotOf. now destruct (disk w !! absPath). Qed.

Lemma writeSnapshotToCache_eq content w :
  writeSnapshotToCache (snapshotOf content) w
  = (withBlobs (blobsAfter content (blobsDir (cacheStore w))) w,
     Returned (entryOf content)).
Proof.
  unfold writeSnapshotToCache, snapshotOf, entryOf, blobsAfter.
  destruct content as [buffer|]; simpl; [|unfold ret; now rewrite withBlobs_id].
  destruct (truthy (hashBuffer buffer)); simpl;
    [|unfold ret; now rewrite withBlobs_id].
  unfold bind, writeBlob, ret.
  destruct (blobsDir (cacheStore w) !! hashBuffer buffer);
    [now rewrite withBlobs_id | reflexivity].
Qed.

Lemma ensureBase_eq relativePath sourceRoot w :
  ensureBase relativePath sourceRoot w
  = if JsMap.has (baseManifest (tracker w)) relativePath then (w, Returned tt)
    else
      let content := disk w !! joinPath sourceRoot relativePath in
      let base := JsMap.set (baseManifest (tracker w)) relativePath
                            (entryOf content) in
      ({| disk := disk w;
          cacheStore :=
            {| blobsDir := blobsAfter content (blobsDir (cacheStore w));
               basePath := Some base;
               leavesDir := leavesDir (cacheStore w) |};
          tracker := withBaseManifest base (tracker w);
          statsLog := statsLog w |},
       Returned tt).
Proof.
  unfold ensureBase.
  destruct (JsMap.has (baseManifest (tracker w)) relativePath); [reflexivity|].
  unfold bind. rewrite readSnapshot_eq, writeSnapshotToCache_eq. reflexivity.
Qed.

Lemma updateFromSandbox_eq relativePath w :
  updateFromSandbox relativePath w
  = let content := disk w !! joinPath (sandboxRoot (tracker w)) relativePath in
    let t := withTrackedManifest
               (JsMap.set (trackedManifest (tracker w)) relativePath
                          (entryOf content)) (tracker w) in
    ({| disk := disk w;
        cacheStore :=
          withBlobsDir (blobsAfter content (blobsDir (cacheStore w)))
                       (cacheStore w);
        tracker := t;
        statsLog := if onStats t then statsLog w ++ [getTrackedStats t]
                    else statsLog w |},
     Returned (entryOf content)).
Proof.
  unfold updateFromSandbox, bind.
  rewrite readSnapshot_eq, writeSnapshotToCache_eq.
  unfold emitStats, modify, ret. simpl.
  now destruct (onStats (tracker w)).
Qed.

Lemma entryOf_inv content blobs :
  FileState_inv (blobsAfter content blobs) (entryOf content).
Proof.
  unfold entryOf, blobsAfter. destruct content as [buffer|];
    [|apply FileState_inv_absent].
  destruct (truthy (hashBuffer buffer)); [|apply FileState_inv_absent].
  split; [discriminate|]. simpl. intros _ h [= <-].
  destruct (blobs !! hashBuffer buffer) eqn:E.
  - rewrite E. eauto.
  - rewrite lookup_insert_eq. eauto.
Qed.


(** C6.  Writing a blob is idempotent and deduplicating: [writeBlob] for a
    hash that is already in the blob directory changes nothing (it checks
    for the file first), so writing twice is writing once; and since the
    key is the digest of the bytes alone, snapshotting two paths with the
    same content stores one blob under one key: the second snapshot adds
    nothing, and from an empty blob directory exactly one blob is stored. *)
Theorem writeBlob_idempotent_dedup :
  (forall (hash buffer : string) (w : World),
     writeBlob hash buffer (fst (writeBlob hash buffer w))
     = (fst (writeBlob hash buffer w), Returned tt)) /\
  (forall (hash buffer : string) (w : World),
     is_Some (blobsDir (cacheStore w) !! hash) ->
     writeBlob hash buffer w = (w, Returned tt)) /\
  (forall (p1 p2 content : string) (w : World),
     truthy (hashBuffer content) = true ->
     disk w !! joinPath (sandboxRoot (tracker w)) p1 = Some content ->
     disk w !! joinPath (sandboxRoot (tracker w)) p2 = Some content ->
     let first := updateFromSandbox p1 w in
     let second := updateFromSandbox p2 (fst first) in
     (exists e1 e2,
        snd first = Returned e1 /\ snd second = Returned e2 /\
        FileState.hash e1 = Some (hashBuffer content) /\
        FileState.hash e2 = Some (hashBuffer content)) /\
     blobsDir (cacheStore (fst second)) = blobsDir (cacheStore (fst first)) /\
     dom (blobsDir (cacheStore (fst second)))
     = dom (blobsDir (cacheStore w)) ∪ {[hashBuffer content]} /\
     (blobsDir (cacheStore w) = ∅ ->
      blobsDir (cacheStore (fst second)) = {[hashBuffer content := content]} /\
      size (blobsDir (cacheStore (fst second))) = 1%nat)).
Proof.
  assert (Hpresent : forall (hash buffer : string) (w : World),
            is_Some (blobsDir (cacheStore w) !! hash) ->
            writeBlob hash buffer w = (w, Returned tt)).
  { intros hash buffer w [b Hb]. unfold writeBlob. now rewrite Hb. }
  split; [|split; [exact Hpresent|]].
  - intros hash buffer w. apply Hpresent. unfold writeBlob.
    destruct (blobsDir (cacheStore w) !! hash) eqn:E; simpl.
    + rewrite E. eauto.
    + rewrite lookup_insert_eq. eauto.
  - intros p1 p2 content w Ht H1 H2 first second. subst first second.
    rewrite !updateFromSandbox_eq. simpl. rewrite H1, H2.
    unfold entryOf, blobsAfter. rewrite Ht. simpl.
    split; [eexists _, _; repeat split; reflexivity|].
    destruct (blobsDir (cacheStore w) !! hashBuffer content) as [b|] eqn:E.
    + rewrite E. split; [reflexivity|]. split.
      * apply set_eq. intros h. rewrite elem_of_union, elem_of_singleton.
        split; [now left|]. intros [Hh| ->]; [exact Hh|].
        apply elem_of_dom. eauto.
      * intros Hempty. rewrite Hempty, lookup_empty in E. discriminate.
    + rewrite lookup_insert_eq. split; [reflexivity|]. split.
      * rewrite dom_insert_L. apply set_eq. intros h.
        rewrite !elem_of_union, elem_of_singleton. tauto.
      * intros ->. split; [reflexivity|].
        rewrite map_size_insert_None by apply lookup_empty.
        now rewrite map_size_empty.
Qed.

(** Saving the tracked manifest under a leaf id and restoring that leaf at
    one root. *)
Lemma saveLeaf_restoreLeaf_lookup (w : World) (leafId root : string) :
  truthy leafId = true ->
  JsMap.wf (trackedManifest (tracker w)) ->
  blobsAvailable (blobsDir (cacheStore w)) (baseManifest (tracker w)) ->
  blobsAvailable (blobsDir (cacheStore w)) (trackedManifest (tracker w)) ->
  pathsDistinct [root] (baseManifest (tracker w) ++ trackedManifest (tracker w)) ->
  let restored :=
    restoreLeaf (Some leafId) [root] (fst (saveLeaf (Some leafId) w)) in
  snd restored = Returned tt /\
  forall p e,
    JsMap.get (trackedManifest (tracker w)) p = Some e ->
    disk (fst restored) !! joinPath root p
    = match entryEffect (blobsDir (cacheStore w)) e with
      | Some r => r
      | None => disk w !! joinPath root p
      end.
Proof.
  intros Ht Hwf Hbase Htracked Hdist restored. subst restored.
  rewrite saveLeaf_eq by exact Ht. cbv zeta. simpl fst.
  rewrite (new_Map_id _ Hwf).
  set (saved := {| disk := disk w |}).
  set (eff := overlay (JsMap.new_Map (baseManifest (tracker w)))
                      (trackedManifest (tracker w))).
  assert (Heff : effectiveManifest (tracker saved) (leavesDir (cacheStore saved))
                                   (Some leafId) = Some eff).
  { unfold effectiveManifest, loadedLeaf. rewrite Ht. simpl.
    rewrite get_set_eq. now rewrite (new_Map_id _ Hwf). }
  assert (Hsub : forall x, In x eff ->
            In x (baseManifest (tracker w) ++ trackedManifest (tracker w))).
  { intros x Hx. apply in_or_app.
    destruct (In_fold_set_inv _ _ _ Hx) as [H|H]; [now right|].
    left. now apply In_new_Map_inv. }
  assert (Hav : blobsAvailable (blobsDir (cacheStore saved)) eff).
  { intros q e' h Hin. apply Hsub, in_app_or in Hin as [Hin|Hin];
      [now apply (Hbase q e' h) | now apply (Htracked q e' h)]. }
  assert (Hdist' : pathsDistinct [root] eff).
  { intros r r' a b Hr Hr' Ha Hb. apply Hdist; try assumption.
    + apply in_map_iff in Ha as [x [<- Hx]]. apply in_map. now apply Hsub.
    + apply in_map_iff in Hb as [x [<- Hx]]. apply in_map. now apply Hsub. }
  split.
  - now apply (restoreLeaf_returns (Some leafId) [root] saved eff).
  - intros p e Hget.
    destruct (restoreLeaf_disk_lookup (Some leafId) [root] saved eff root p e)
      as (_ & _ & Hlookup); try assumption.
    + now left.
    + apply get_In. now apply get_overlay.
Qed.

Lemma saveRestoreScenario_updated (realRoot sandboxRoot : string)
    (d0 : gmap string string) :
  truthy (hashBuffer "base") = true ->
  truthy (hashBuffer "updated") = true ->
  hashBuffer "base" <> hashBuffer "updated" ->
  snd (saveRestoreScenario realRoot sandboxRoot
         {| disk := d0; cacheStore := newCache;
            tracker := newTracker realRoot sandboxRoot; statsLog := [] |})
  = Returned "updated".
Proof.
  intros Hbase Hupdated Hne.
  unfold saveRestoreScenario. cbv zeta.
  set (realPath := joinPath realRoot "note.txt").
  set (sandboxPath := joinPath sandboxRoot "note.txt").
  unfold bind at 1. rewrite writeFile_eq. world_simpl.
  unfold bind at 1.
  rewrite (cp_eq _ _ "base") by (world_simpl; apply lookup_insert_eq).
  world_simpl.
  unfold bind at 1. rewrite loadBase_none by reflexivity.
  unfold bind at 1. unfold ensureBaseFromSandbox. rewrite ensureBase_eq.
  world_simpl. cbn [JsMap.has JsMap.get JsMap.set]. fold sandboxPath.
  rewrite lookup_insert_eq. unfold entryOf at 1 2, blobsAfter at 1.
  rewrite Hbase, lookup_empty.
  unfold bind at 1. rewrite writeFile_eq. world_simpl.
  unfold bind at 1. rewrite updateFromSandbox_eq. world_simpl.
  fold sandboxPath. rewrite lookup_insert_eq.
  unfold entryOf, blobsAfter. rewrite Hupdated.
  rewrite lookup_insert_ne by exact Hne. rewrite lookup_empty.
  cbn [JsMap.set].
  unfold bind at 1. rewrite saveLeaf_eq by reflexivity. world_simpl.
  unfold bind at 1. rewrite writeFile_eq. world_simpl.
  unfold bind at 1. rewrite restoreLeaf_eq.
  unfold restoreLeafResult, effectiveManifest, leafCacheAfter, loadedLeaf,
    leafCacheAfterLoad.
  world_simpl. change (truthy "leaf-1") with true. cbv iota.
  rewrite !get_set_eq.
  cbn [JsMap.new_Map overlay fold_left JsMap.set fst snd].
  rewrite !eqb_refl_true.
  cbn [rootsOps manifestOps entryOps fst snd FileState.exists_ FileState.hash
       negb truthyOpt].
  rewrite Hupdated. cbn [negb]. rewrite lookup_insert_eq.
  cbn [app fst snd runOps fold_left runOp]. world_simpl.
  unfold readFile. world_simpl. fold realPath.
  now rewrite lookup_insert_eq.
Qed.


End EngineFacts.

(** * The theorems at concrete inputs *)

Lemma describeChange_decision_table_witness :
  describeChange None None = None /\
  describeChange None (Some Fixture.helloEntry) = Some A /\
  describeChange (Some Fixture.helloEntry) (Some FileState.absent) = Some D /\
  describeChange (Some Fixture.helloEntry) (Some Fixture.hashless) = Some M /\
  describeChange (Some Fixture.helloEntry) (Some Fixture.helloEntry) = None /\
  describeChange (Some FileState.absent) None = None.
Proof.
  refine (conj _ (conj _ (conj _ (conj _ (conj _ _))))).
  - destruct (describeChange_decision_table None None) as (H & _).
    apply H; reflexivity.
  - destruct (describeChange_decision_table None (Some Fixture.helloEntry))
      as (_ & H & _).
    apply H; reflexivity.
  - destruct (describeChange_decision_table (Some Fixture.helloEntry)
                                            (Some FileState.absent))
      as (_ & _ & H & _).
    apply H; reflexivity.
  - destruct (describeChange_decision_table (Some Fixture.helloEntry)
                                            (Some Fixture.hashless))
      as (_ & _ & _ & H & _).
    apply H; [reflexivity | reflexivity | discriminate].
  - destruct (describeChange_decision_table (Some Fixture.helloEntry)
                                            (Some Fixture.helloEntry))
      as (_ & _ & _ & _ & H & _).
    apply H; reflexivity.
  - destruct (describeChange_decision_table (Some FileState.absent) None)
      as (_ & _ & _ & _ & _ & H).
    apply H; reflexivity.
Defined.

Lemma diffSandboxStats_partitions_witness :
  In "c" (added (diffSandboxStats
                   [("a", SandboxEntryStats.mk 1 100);
                    ("b", SandboxEntryStats.mk 2 200)]
                   [("b", SandboxEntryStats.mk 3 200);
                    ("c", SandboxEntryStats.mk 4 300)])) /\
  In "b" (changed (diffSandboxStats
                     [("a", SandboxEntryStats.mk 1 100);
                      ("b", SandboxEntryStats.mk 2 200)]
                     [("b", SandboxEntryStats.mk 3 200);
                      ("c", SandboxEntryStats.mk 4 300)])) /\
  In "a" (removed (diffSandboxStats
                     [("a", SandboxEntryStats.mk 1 100);
                      ("b", SandboxEntryStats.mk 2 200)]
                     [("b", SandboxEntryStats.mk 3 200);
                      ("c", SandboxEntryStats.mk 4 300)])).
Proof.
  assert (Hwf : JsMap.wf [("b", SandboxEntryStats.mk 3 200);
                          ("c", SandboxEntryStats.mk 4 300)]).
  { unfold JsMap.wf. simpl. apply NoDup_ListNoDup.
    repeat constructor; simpl; intuition discriminate. }
  refine (conj _ (conj _ _)).
  - apply (proj1 diffSandboxStats_partitions _ _ "c" Hwf). split; reflexivity.
  - apply (proj1 diffSandboxStats_partitions _ _ "b" Hwf).
    exists (SandboxEntryStats.mk 3 200), (SandboxEntryStats.mk 2 200).
    refine (conj eq_refl (conj eq_refl _)). left. simpl. lia.
  - apply (proj1 diffSandboxStats_partitions _ _ "a" Hwf). split; reflexivity.
Defined.

Section Instances.

#[local] Existing Instance Fixture.platform.

Ltac split_In :=
  repeat match goal with
         | H : _ \/ _ |- _ => destruct H as [H|H]
         | H : False |- _ => destruct H
         | H : (_, _) = (_, _) |- _ => injection H as <- <-
         end.

Lemma world1_blobsAvailable :
  blobsAvailable (blobsDir (cacheStore Fixture.world1))
                 (baseManifest (tracker Fixture.world1)).
Proof.
  intros p e h Hin He Hh Ht. simpl in Hin. split_In; subst;
    simpl in He, Hh; try discriminate.
  injection Hh as <-. now exists "hello".
Qed.

Lemma world1_pathsDistinct :
  pathsDistinct ["/sandbox"; "/real"] (baseManifest (tracker Fixture.world1)).
Proof.
  intros r r' p q Hr Hr' Hp Hq Heq. simpl in Hr, Hr', Hp, Hq.
  split_In; subst; try (split; reflexivity); vm_compute in Heq; discriminate.
Qed.



Lemma restoreLeaf_unknown_leaf_noop_witness :
  restoreLeaf (Some "leaf-9") ["/sandbox"; "/real"] Fixture.world1
  = (Fixture.world1, Returned tt).
Proof.
  apply (restoreLeaf_unknown_leaf_noop "leaf-9" ["/sandbox"; "/real"]
           Fixture.world1).
  - discriminate.
  - reflexivity.
  - reflexivity.
Defined.

(** C10 as stated fails on the empty leaf id: it is not null, no manifest
    is cached or stored for it, and [restoreLeaf] applies the base. *)
Lemma restoreLeaf_empty_leaf_id_applies_base :
  JsMap.get (leafCache (tracker Fixture.world1)) "" = None /\
  leavesDir (cacheStore Fixture.world1) !! "" = None /\
  disk Fixture.world1 !! joinPath "/real" "gone.txt" = Some "old" /\
  disk (fst (restoreLeaf (Some "") ["/sandbox"; "/real"] Fixture.world1))
    !! joinPath "/real" "gone.txt" = None /\
  trackedManifest (tracker Fixture.world1) = [] /\
  trackedManifest
    (tracker (fst (restoreLeaf (Some "") ["/sandbox"; "/real"] Fixture.world1)))
  = baseManifest (tracker Fixture.world1) /\
  statsLog (fst (restoreLeaf (Some "") ["/sandbox"; "/real"] Fixture.world1))
  = [{| fileCount := 2; totalBytes := 5 |}].
Proof. vm_compute. repeat split; reflexivity. Qed.

Lemma world2_wf : JsMap.wf (trackedManifest (tracker Fixture.world2)).
Proof.
  unfold JsMap.wf. simpl. apply NoDup_ListNoDup.
  repeat constructor; simpl; intuition discriminate.
Qed.

Lemma world2_blobsAvailable :
  blobsAvailable (blobsDir (cacheStore Fixture.world2))
                 (trackedManifest (tracker Fixture.world2)).
Proof.
  intros p e h Hin He Hh Ht. simpl in Hin. split_In; subst;
    simpl in He, Hh; try discriminate.
  injection Hh as <-. now exists "hello".
Qed.

Lemma world2_pathsDistinct :
  pathsDistinct ["/real"]
    (baseManifest (tracker Fixture.world2)
     ++ trackedManifest (tracker Fixture.world2)).
Proof.
  intros r r' p q Hr Hr' Hp Hq Heq. simpl in Hr, Hr', Hp, Hq.
  split_In; subst; try (split; reflexivity); vm_compute in Heq; discriminate.
Qed.


Lemma writeBlob_idempotent_dedup_witness :
  blobsDir (cacheStore
              (fst (updateFromSandbox "b.txt"
                      (fst (updateFromSandbox "a.txt" Fixture.world3)))))
  = {[hashBuffer "same" := "same"]} /\
  size (blobsDir (cacheStore
                    (fst (updateFromSandbox "b.txt"
                            (fst (updateFromSandbox "a.txt" Fixture.world3))))))
  = 1%nat.
Proof.
  destruct writeBlob_idempotent_dedup as (_ & _ & Hdedup).
  destruct (Hdedup "a.txt" "b.txt" "same" Fixture.world3)
    as (_ & _ & _ & Hone).
  - reflexivity.
  - reflexivity.
  - reflexivity.
  - apply Hone. reflexivity.
Defined.




End Instances.

(** * Properties of the rest of the extension *)

Section TrackerExtra.
Context {platform : Platform}.

Lemma lastOp_rootsOps_other blobs manifest roots absPath :
  (forall root q, In root roots -> In q (JsMap.keys manifest) ->
                  joinPath root q <> absPath) ->
  lastOp (fst (rootsOps blobs manifest roots)) absPath = None.
Proof.
  induction roots as [|root rest IH]; intros H; simpl; [reflexivity|].
  destruct (manifestOps blobs root manifest) as [ops ok] eqn:E.
  assert (Hm : lastOp ops absPath = None).
  { change ops with (fst (ops, ok)). rewrite <- E.
    apply lastOp_manifestOps_other. intros q Hq. apply H; [now left | exact Hq]. }
  destruct ok; [|exact Hm].
  assert (Hr : lastOp (fst (rootsOps blobs manifest rest)) absPath = None).
  { apply IH. intros root' q Hroot Hq. apply H; [now right | exact Hq]. }
  destruct (rootsOps blobs manifest rest) as [ops' ok']. simpl in *.
  rewrite lastOp_app. now rewrite Hr.
Qed.

Lemma restoreLeaf_cache (leafId : option string) (applyRoots : list string)
    (w : World) :
  cacheStore (fst (restoreLeaf leafId applyRoots w)) = cacheStore w /\
  baseManifest (tracker (fst (restoreLeaf leafId applyRoots w)))
  = baseManifest (tracker w).
Proof.
  rewrite restoreLeaf_eq. unfold restoreLeafResult.
  destruct (effectiveManifest (tracker w) (leavesDir (cacheStore w)) leafId)
    as [manifest|].
  - destruct (snd (rootsOps (blobsDir (cacheStore w)) manifest applyRoots));
      cbn [fst]; rewrite ?emitted_cacheStore, ?emitted_tracker;
      world_simpl; auto.
  - world_simpl. auto.
Qed.

(** X1.  [restoreLeaf] touches nothing but the paths of the effective
    manifest under the roots it is given: every other file is as it was,
    and so are the cache store (blobs, base file, leaf files) and the base
    manifest, whether the call returns or rejects. *)
Theorem restoreLeaf_leaves_other_paths (leafId : option string)
    (applyRoots : list string) (w : World) :
  let after := fst (restoreLeaf leafId applyRoots w) in
  cacheStore after = cacheStore w /\
  baseManifest (tracker after) = baseManifest (tracker w) /\
  forall absPath,
    (forall manifest root p,
       effectiveManifest (tracker w) (leavesDir (cacheStore w)) leafId
       = Some manifest ->
       In root applyRoots -> In p (JsMap.keys manifest) ->
       joinPath root p <> absPath) ->
    disk after !! absPath = disk w !! absPath.
Proof.
  cbv zeta. rewrite restoreLeaf_eq. unfold restoreLeafResult.
  destruct (effectiveManifest (tracker w) (leavesDir (cacheStore w)) leafId)
    as [manifest|] eqn:Heff.
  - assert (Hdisk : forall absPath,
      (forall manifest' root p,
         Some manifest = Some manifest' ->
         In root applyRoots -> In p (JsMap.keys manifest') ->
         joinPath root p <> absPath) ->
      runOps (fst (rootsOps (blobsDir (cacheStore w)) manifest applyRoots))
             (disk w) !! absPath = disk w !! absPath).
    { intros absPath H. rewrite runOps_lookup, lastOp_rootsOps_other; [reflexivity|].
      intros root q Hroot Hq. now apply (H manifest). }
    destruct (snd (rootsOps (blobsDir (cacheStore w)) manifest applyRoots));
      cbn [fst]; rewrite ?emitted_cacheStore, ?emitted_tracker, ?emitted_disk;
      world_simpl; auto.
  - world_simpl. auto.
Qed.

Lemma manifestOps_missing blobs root manifest p e h :
  In (p, e) manifest -> FileState.exists_ e = true ->
  FileState.hash e = Some h -> truthy h = true -> blobs !! h = None ->
  snd (manifestOps blobs root manifest) = false.
Proof.
  intros Hin He Hh Ht Hb. induction manifest as [|kv rest IH]; [destruct Hin|].
  simpl. destruct Hin as [->|Hin].
  - unfold entryOps. simpl. rewrite He, Hh. simpl. rewrite Ht. simpl.
    now rewrite Hb.
  - destruct (entryOps blobs root kv); [|reflexivity].
    specialize (IH Hin). destruct (manifestOps blobs root rest). simpl in *.
    exact IH.
Qed.

(** X2.  When a blob of the effective manifest is missing from the blob
    directory, [restoreLeaf] over at least one root rejects, and the
    tracked manifest and the reported stats stay as they were: the tracked
    manifest is replaced only after every root has been written.  Over no
    root at all nothing is read, and the call returns with the effective
    manifest as the tracked one. *)
Theorem restoreLeaf_missing_blob_rejects (leafId : option string)
    (w : World) (manifest : Manifest) :
  effectiveManifest (tracker w) (leavesDir (cacheStore w)) leafId
  = Some manifest ->
  (forall root rest p e h,
     In (p, e) manifest -> FileState.exists_ e = true ->
     FileState.hash e = Some h -> truthy h = true ->
     blobsDir (cacheStore w) !! h = None ->
     let after := restoreLeaf leafId (root :: rest) w in
     (exists message, snd after = Rejected message) /\
     trackedManifest (tracker (fst after)) = trackedManifest (tracker w) /\
     statsLog (fst after) = statsLog w) /\
  (let after := restoreLeaf leafId [] w in
   snd after = Returned tt /\
   trackedManifest (tracker (fst after)) = manifest /\
   disk (fst after) = disk w).
Proof.
  intros Heff. split.
  - intros root rest p e h Hin He Hh Ht Hb. cbv zeta.
    rewrite restoreLeaf_eq. unfold restoreLeafResult. rewrite Heff.
    cbn [rootsOps].
    pose proof (manifestOps_missing _ root _ _ _ _ Hin He Hh Ht Hb) as Hm.
    destruct (manifestOps (blobsDir (cacheStore w)) root manifest) as [ops ok].
    simpl in Hm. subst ok. world_simpl. eauto.
  - cbv zeta. rewrite restoreLeaf_eq. unfold restoreLeafResult. rewrite Heff.
    cbn [rootsOps fst snd runOps fold_left].
    rewrite emitted_tracker, emitted_disk. world_simpl.
    pose proof (effectiveManifest_wf _ _ _ _ Heff) as Hwf.
    now rewrite (new_Map_id _ Hwf).
Qed.


Lemma blobsAfter_keeps content blobs h buffer :
  blobs !! h = Some buffer -> blobsAfter content blobs !! h = Some buffer.
Proof.
  intros H. unfold blobsAfter. destruct content as [c|]; [|exact H].
  destruct (truthy (hashBuffer c)); [|exact H].
  destruct (blobs !! hashBuffer c) eqn:E; [exact H|].
  rewrite lookup_insert_ne; [exact H|]. intros Heq. congruence.
Qed.

Lemma blobsAfter_contentAddressed content blobs :
  contentAddressed blobs -> contentAddressed (blobsAfter content blobs).
Proof.
  intros Hca h buffer. unfold blobsAfter. destruct content as [c|]; [|apply Hca].
  destruct (truthy (hashBuffer c)); [|apply Hca].
  destruct (blobs !! hashBuffer c) eqn:E; [apply Hca|].
  destruct (decide (hashBuffer c = h)) as [<-|Hne].
  - rewrite lookup_insert_eq. now intros [= <-].
  - rewrite lookup_insert_ne by exact Hne. apply Hca.
Qed.

(** What a call does to the blob directory and to the base manifest. *)
Lemma runTrackerCall_blobs call w :
  blobsDir (cacheStore (fst (runTrackerCall call w)))
  = blobsDir (cacheStore w) \/
  exists content,
    blobsDir (cacheStore (fst (runTrackerCall call w)))
    = blobsAfter content (blobsDir (cacheStore w)).
Proof.
  destruct call as [|manifest|p|p|p|p|leafId|leafId|leafId applyRoots]; simpl.
  - left. unfold loadBase, bind, readBase, gets, modify.
    now destruct (basePath (cacheStore w)).
  - left. unfold setTrackedManifest, bind, modify, emitStats. simpl.
    now destruct (onStats (tracker w)).
  - unfold ensureBaseFromSandbox. rewrite ensureBase_eq.
    destruct (JsMap.has (baseManifest (tracker w)) p); simpl; eauto.
  - unfold ensureBaseFromDisk. rewrite ensureBase_eq.
    destruct (JsMap.has (baseManifest (tracker w)) p); simpl; eauto.
  - unfold bind. rewrite updateFromSandbox_eq. simpl. eauto.
  - left. unfold markDeleted, bind, modify, emitStats. simpl.
    now destruct (onStats (tracker w)).
  - left. destruct leafId as [leafId|]; [|reflexivity]. unfold saveLeaf.
    now destruct (truthy leafId).
  - left. unfold bind. now rewrite loadLeaf_eq.
  - left. destruct (restoreLeaf_cache leafId applyRoots w) as (H & _).
    cbv zeta in H. now rewrite H.
Qed.

Lemma runTrackerCall_base call w :
  call <> CallLoadBase ->
  baseManifest (tracker (fst (runTrackerCall call w))) = baseManifest (tracker w) \/
  exists p e,
    JsMap.has (baseManifest (tracker w)) p = false /\
    baseManifest (tracker (fst (runTrackerCall call w)))
    = baseManifest (tracker w) ++ [(p, e)].
Proof.
  intros Hcall.
  assert (Hensure : forall p sourceRoot,
    baseManifest (tracker (fst (ensureBase p sourceRoot w)))
    = baseManifest (tracker w) \/
    exists q e,
      JsMap.has (baseManifest (tracker w)) q = false /\
      baseManifest (tracker (fst (ensureBase p sourceRoot w)))
      = baseManifest (tracker w) ++ [(q, e)]).
  { intros p sourceRoot. rewrite ensureBase_eq.
    destruct (JsMap.has (baseManifest (tracker w)) p) eqn:Hhas; [now left|].
    right. exists p. eexists. split; [exact Hhas|]. simpl.
    apply set_fresh. now apply has_false_keys. }
  destruct call as [|manifest|p|p|p|p|leafId|leafId|leafId applyRoots]; simpl.
  - congruence.
  - left. unfold setTrackedManifest, bind, modify, emitStats. simpl.
    now destruct (onStats (tracker w)).
  - apply Hensure.
  - apply Hensure.
  - left. unfold bind. now rewrite updateFromSandbox_eq.
  - left. unfold markDeleted, bind, modify, emitStats. simpl.
    now destruct (onStats (tracker w)).
  - left. destruct leafId as [leafId|]; [|reflexivity]. unfold saveLeaf.
    now destruct (truthy leafId).
  - left. unfold bind. now rewrite loadLeaf_eq.
  - left. destruct (restoreLeaf_cache leafId applyRoots w) as (_ & H).
    exact H.
Qed.

(** X4.  The base manifest is write-once.  Whatever method of the tracker
    is called after [loadBase], the base manifest is what it was or has
    one entry more, for a path it did not have, added last: an entry of
    the base is never replaced or removed, so the base keeps the first
    snapshot taken of each path. *)
Theorem baseManifest_write_once (call : TrackerCall) (w : World) :
  call <> CallLoadBase ->
  let w' := fst (runTrackerCall call w) in
  (baseManifest (tracker w') = baseManifest (tracker w) \/
   exists p e,
     JsMap.has (baseManifest (tracker w)) p = false /\
     baseManifest (tracker w') = baseManifest (tracker w) ++ [(p, e)]) /\
  forall p e,
    JsMap.get (baseManifest (tracker w)) p = Some e ->
    JsMap.get (baseManifest (tracker w')) p = Some e.
Proof.
  intros Hcall w'. subst w'.
  pose proof (runTrackerCall_base call w Hcall) as H. split; [exact H|].
  intros p e Hget. destruct H as [-> | (q & e' & Hhas & ->)]; [exact Hget|].
  clear Hhas. induction (baseManifest (tracker w)) as [|[k v] m IH];
    [discriminate|].
  simpl in *. destruct (String.eqb k p); [exact Hget | now apply IH].
Qed.

(** X5.  The blob directory only grows, and stays content-addressed.
    Whatever method of the tracker is called, a blob that is in the
    directory is still there with the same bytes afterwards; and if every
    blob was stored under the digest of its bytes, so is every blob
    afterwards. *)
Theorem blobs_append_only (call : TrackerCall) (w : World) :
  let w' := fst (runTrackerCall call w) in
  (forall h buffer,
     blobsDir (cacheStore w) !! h = Some buffer ->
     blobsDir (cacheStore w') !! h = Some buffer) /\
  (contentAddressed (blobsDir (cacheStore w)) ->
   contentAddressed (blobsDir (cacheStore w'))).
Proof.
  cbv zeta. destruct (runTrackerCall_blobs call w) as [-> | (content & ->)].
  - auto.
  - split.
    + intros h buffer. apply blobsAfter_keeps.
    + apply blobsAfter_contentAddressed.
Qed.

Lemma new_Map_new_Map {V : Type} (m : JsMap.t V) :
  JsMap.new_Map (JsMap.new_Map m) = JsMap.new_Map m.
Proof. apply new_Map_id, wf_new_Map. Qed.

(** X6.  A saved leaf is a snapshot.  After [saveLeaf id] with a non-empty
    id, [loadLeaf id] returns a copy of the manifest that was tracked at
    the time of the save and changes nothing; and it still returns that
    manifest after the tracker has recorded further changes
    ([ensureBaseFromSandbox], [ensureBaseFromDisk], [updateFromSandbox],
    [markDeleted]).  [saveLeaf] with [null] or the empty id does
    nothing. *)
Theorem saveLeaf_loadLeaf_snapshot (w : World) :
  (forall leafId,
     truthy leafId = true ->
     let saved := fst (saveLeaf (Some leafId) w) in
     let snapshot := JsMap.new_Map (trackedManifest (tracker w)) in
     loadLeaf leafId saved = (saved, Returned (Some snapshot)) /\
     forall op,
       snd (loadLeaf leafId (fst (runTrackerOp op saved)))
       = Returned (Some snapshot)) /\
  saveLeaf None w = (w, Returned tt) /\
  saveLeaf (Some "") w = (w, Returned tt).
Proof.
  split; [|split; reflexivity].
  intros leafId Ht saved snapshot. subst saved.
  rewrite (saveLeaf_eq leafId w Ht). cbv zeta. cbn [fst].
  fold snapshot. split.
  - rewrite loadLeaf_eq. unfold loadedLeaf, leafCacheAfterLoad. world_simpl.
    rewrite get_set_eq. cbn [fmap option_fmap option_map].
    unfold snapshot at 5. rewrite new_Map_new_Map. reflexivity.
  - intros op.
    match goal with
    | |- context [runTrackerOp op ?s] => set (saved := s)
    end.
    assert (Hcache : leafCache (tracker (fst (runTrackerOp op saved)))
                     = leafCache (tracker saved)).
    { destruct op as [p|p|p|p]; simpl.
      - unfold ensureBaseFromSandbox. rewrite ensureBase_eq.
        now destruct (JsMap.has (baseManifest (tracker saved)) p).
      - unfold ensureBaseFromDisk. rewrite ensureBase_eq.
        now destruct (JsMap.has (baseManifest (tracker saved)) p).
      - unfold bind. now rewrite updateFromSandbox_eq.
      - unfold markDeleted, bind, modify, emitStats. simpl.
        now destruct (onStats (tracker w)). }
    rewrite loadLeaf_eq. cbn [snd]. unfold loadedLeaf. rewrite Hcache.
    unfold saved. world_simpl. rewrite get_set_eq. simpl.
    unfold snapshot. now rewrite new_Map_new_Map.
Qed.

Lemma getTrackedStats_statsOfList t :
  getTrackedStats t
  = statsOfList (JsMap.values (trackedManifest t))
                {| fileCount := 0; totalBytes := 0 |}.
Proof. reflexivity. Qed.

Lemma statsOfList_cons e l acc :
  statsOfList (e :: l) acc
  = statsOfList l
      (if negb (FileState.exists_ e) then acc
       else {| fileCount := fileCount acc + 1;
               totalBytes := totalBytes acc
                             + match FileState.size e with
                               | Some n => n
                               | None => 0
                               end |}).
Proof. reflexivity. Qed.

Lemma statsOfList_acc l acc :
  fileCount (statsOfList l acc)
  = fileCount acc + fileCount (statsOfList l {| fileCount := 0; totalBytes := 0 |}) /\
  totalBytes (statsOfList l acc)
  = totalBytes acc + totalBytes (statsOfList l {| fileCount := 0; totalBytes := 0 |}).
Proof.
  revert acc. induction l as [|e l IH]; intros acc.
  - simpl. lia.
  - rewrite !statsOfList_cons. destruct (FileState.exists_ e); cbn [negb].
    + rewrite (proj1 (IH _)), (proj2 (IH _)).
      rewrite (proj1 (IH {| fileCount := 0 + 1; totalBytes := _ |})),
              (proj2 (IH {| fileCount := 0 + 1; totalBytes := _ |})).
      cbn [fileCount totalBytes]. lia.
    + apply IH.
Qed.

Lemma statsOfList_values_set (m : Manifest) p e :
  let zero := {| fileCount := 0; totalBytes := 0 |} in
  fileCount (statsOfList (JsMap.values (JsMap.set m p e)) zero)
  = fileCount (statsOfList (JsMap.values m) zero)
    - fst (statsOf (JsMap.get m p)) + fst (statsOf (Some e)) /\
  totalBytes (statsOfList (JsMap.values (JsMap.set m p e)) zero)
  = totalBytes (statsOfList (JsMap.values m) zero)
    - snd (statsOf (JsMap.get m p)) + snd (statsOf (Some e)).
Proof.
  cbv zeta. induction m as [|[k v] m IH].
  - cbn [JsMap.set JsMap.get JsMap.values map snd].
    rewrite statsOfList_cons. unfold statsOf.
    destruct (FileState.exists_ e); cbn; lia.
  - cbn [JsMap.set JsMap.get]. destruct (String.eqb k p).
    + cbn [JsMap.values map snd]. rewrite !statsOfList_cons. unfold statsOf.
      destruct (FileState.exists_ e), (FileState.exists_ v); cbn [negb fst snd];
        rewrite ?(proj1 (statsOfList_acc _ {| fileCount := 0 + 1; totalBytes := _ |})),
                ?(proj2 (statsOfList_acc _ {| fileCount := 0 + 1; totalBytes := _ |}));
        cbn [fileCount totalBytes]; lia.
    + cbn [JsMap.values map snd]. rewrite !statsOfList_cons.
      fold (JsMap.values (JsMap.set m p e)). fold (JsMap.values m).
      destruct (FileState.exists_ v); cbn [negb].
      * rewrite (proj1 (statsOfList_acc (JsMap.values (JsMap.set m p e)) _)),
                (proj2 (statsOfList_acc (JsMap.values (JsMap.set m p e)) _)).
        rewrite (proj1 (statsOfList_acc (JsMap.values m) {| fileCount := 0 + 1; totalBytes := _ |})),
                (proj2 (statsOfList_acc (JsMap.values m) {| fileCount := 0 + 1; totalBytes := _ |})).
        cbn [fileCount totalBytes]. lia.
      * exact IH.
Qed.

Lemma getTrackedStats_set t p e :
  let t' := withTrackedManifest (JsMap.set (trackedManifest t) p e) t in
  fileCount (getTrackedStats t')
  = fileCount (getTrackedStats t)
    - fst (statsOf (JsMap.get (trackedManifest t) p)) + fst (statsOf (Some e)) /\
  totalBytes (getTrackedStats t')
  = totalBytes (getTrackedStats t)
    - snd (statsOf (JsMap.get (trackedManifest t) p)) + snd (statsOf (Some e)).
Proof.
  cbv zeta. rewrite !getTrackedStats_statsOfList.
  cbn [withTrackedManifest trackedManifest].
  apply statsOfList_values_set.
Qed.

Lemma markDeleted_eq relativePath w :
  markDeleted relativePath w
  = (emitted
       (withTracker
          (withTrackedManifest
             (JsMap.set (trackedManifest (tracker w)) relativePath
                        FileState.absent) (tracker w)) w),
     Returned tt).
Proof. reflexivity. Qed.

Lemma setTrackedManifest_eq manifest w :
  setTrackedManifest manifest w
  = (emitted
       (withTracker
          (withTrackedManifest (JsMap.new_Map manifest) (tracker w)) w),
     Returned tt).
Proof. reflexivity. Qed.

Lemma fileCount_bounds l :
  0 <= fileCount (statsOfList l {| fileCount := 0; totalBytes := 0 |})
  <= Z.of_nat (length l).
Proof.
  induction l as [|e l IH]; [simpl; lia|].
  rewrite statsOfList_cons. destruct (FileState.exists_ e); cbn [negb].
  - rewrite (proj1 (statsOfList_acc _ _)). cbn [fileCount length]. lia.
  - cbn [length]. lia.
Qed.



(** X9.  What [updateFromSandbox] records can be read back.  For a sandbox
    file with the given content, whose digest is non-empty and names no
    blob yet or a blob with these very bytes, [updateFromSandbox] returns
    an entry that exists, carries the digest and the length of the content,
    and is the tracked entry of the path; and [readBlob] of the digest then
    returns the content. *)
Theorem updateFromSandbox_content_readable (relativePath content : string)
    (w : World) :
  disk w !! joinPath (sandboxRoot (tracker w)) relativePath = Some content ->
  truthy (hashBuffer content) = true ->
  blobsDir (cacheStore w) !! hashBuffer content = None \/
  blobsDir (cacheStore w) !! hashBuffer content = Some content ->
  let updated := updateFromSandbox relativePath w in
  exists entry,
    snd updated = Returned entry /\
    FileState.exists_ entry = true /\
    FileState.hash entry = Some (hashBuffer content) /\
    FileState.size entry = Some (Z.of_nat (String.length content)) /\
    JsMap.get (trackedManifest (tracker (fst updated))) relativePath
    = Some entry /\
    readBlob (hashBuffer content) (fst updated)
    = (fst updated, Returned content).
Proof.
  intros Hfile Ht Hblob. cbv zeta. rewrite updateFromSandbox_eq, Hfile.
  cbv zeta. cbn [fst snd entryOf blobsAfter]. rewrite Ht.
  eexists. split; [reflexivity|]. cbn [FileState.exists_ FileState.hash FileState.size].
  repeat (split; [reflexivity|]). split.
  - world_simpl. apply get_set_eq.
  - unfold readBlob. world_simpl.
    destruct Hblob as [Hb | Hb]; rewrite Hb.
    + now rewrite lookup_insert_eq.
    + now rewrite Hb.
Qed.

Lemma emitted_statsLog w :
  statsLog (emitted w)
  = if onStats (tracker w) then statsLog w ++ [getTrackedStats (tracker w)]
    else statsLog w.
Proof. unfold emitted. now destruct (onStats (tracker w)). Qed.

Lemma restoreLeaf_statsLog leafId applyRoots w :
  let after := restoreLeaf leafId applyRoots w in
  statsLog (fst after)
  = match effectiveManifest (tracker w) (leavesDir (cacheStore w)) leafId,
          snd after with
    | Some _, Returned _ =>
        if onStats (tracker w)
        then statsLog w ++ [getTrackedStats (tracker (fst after))]
        else statsLog w
    | _, _ => statsLog w
    end.
Proof.
  cbv zeta. rewrite restoreLeaf_eq. unfold restoreLeafResult.
  destruct (effectiveManifest (tracker w) (leavesDir (cacheStore w)) leafId)
    as [manifest|]; [|reflexivity].
  destruct (snd (rootsOps (blobsDir (cacheStore w)) manifest applyRoots));
    [|reflexivity].
  cbn [fst snd]. rewrite emitted_statsLog, emitted_tracker. reflexivity.
Qed.



End TrackerExtra.

(** ** The textual diff: what is never left out *)

Lemma filter_app_nochange (l printed : list string) :
  Forall (fun line => isChangedLine line = false) printed ->
  List.filter isChangedLine (l ++ printed) = List.filter isChangedLine l.
Proof.
  intros H. rewrite List.filter_app.
  assert (Hnil : List.filter isChangedLine printed = []).
  { induction H as [|line rest Hline _ IH]; [reflexivity|].
    simpl. now rewrite Hline. }
  rewrite Hnil. apply app_nil_r.
Qed.

Lemma filter_app_allchange (l printed : list string) :
  Forall (fun line => isChangedLine line = true) printed ->
  List.filter isChangedLine (l ++ printed)
  = List.filter isChangedLine l ++ printed.
Proof.
  intros H. rewrite List.filter_app. f_equal.
  induction H as [|line rest Hline _ IH]; [reflexivity|].
  simpl. now rewrite Hline, IH.
Qed.

Lemma numberedContext_nochange lineNumWidth start lines :
  Forall (fun line => isChangedLine line = false)
         (numberedContext lineNumWidth start lines).
Proof.
  revert start. induction lines as [|line rest IH]; intros start; simpl;
    constructor; [reflexivity | apply IH].
Qed.

Lemma numberedChange_allchange sign lineNumWidth start lines :
  sign = "+" \/ sign = "-" ->
  Forall (fun line => isChangedLine line = true)
         (numberedChange sign lineNumWidth start lines).
Proof.
  intros Hsign. revert start.
  induction lines as [|line rest IH]; intros start; simpl; constructor;
    [destruct Hsign as [-> | ->]; reflexivity | apply IH].
Qed.

Lemma fold_addedLine lineNumWidth lines st :
  let st' := fold_left (addedLine lineNumWidth) lines st in
  output st' = output st ++ numberedChange "+" lineNumWidth (newLineNum st) lines /\
  oldLineNum st' = oldLineNum st /\
  newLineNum st' = (newLineNum st + length lines)%nat /\
  lastWasChange st' = lastWasChange st /\
  firstChangedLine st' = firstChangedLine st.
Proof.
  revert st. induction lines as [|line rest IH]; intros st; simpl.
  - rewrite app_nil_r. repeat split; lia.
  - destruct (IH (addedLine lineNumWidth st line)) as (Ho & Hold & Hnew & Hl & Hf).
    rewrite Ho, Hold, Hnew, Hl, Hf. simpl. rewrite <- app_assoc. simpl.
    repeat split; lia.
Qed.

Lemma fold_removedLine lineNumWidth lines st :
  let st' := fold_left (removedLine lineNumWidth) lines st in
  output st' = output st ++ numberedChange "-" lineNumWidth (oldLineNum st) lines /\
  oldLineNum st' = (oldLineNum st + length lines)%nat /\
  newLineNum st' = newLineNum st /\
  lastWasChange st' = lastWasChange st /\
  firstChangedLine st' = firstChangedLine st.
Proof.
  revert st. induction lines as [|line rest IH]; intros st; simpl.
  - rewrite app_nil_r. repeat split; lia.
  - destruct (IH (removedLine lineNumWidth st line)) as (Ho & Hold & Hnew & Hl & Hf).
    rewrite Ho, Hold, Hnew, Hl, Hf. simpl. rewrite <- app_assoc. simpl.
    repeat split; lia.
Qed.

Lemma changedPart_spec lineNumWidth part raw st :
  let st' := changedPart lineNumWidth part raw st in
  output st'
  = output st
    ++ (if Part.added part
        then numberedChange "+" lineNumWidth (newLineNum st) raw
        else numberedChange "-" lineNumWidth (oldLineNum st) raw) /\
  oldLineNum st'
  = (if Part.added part then oldLineNum st
     else oldLineNum st + length raw)%nat /\
  newLineNum st'
  = (if Part.added part then newLineNum st + length raw
     else newLineNum st)%nat /\
  firstChangedLine st'
  = match firstChangedLine st with
    | Some n => Some n
    | None => Some (newLineNum st)
    end.
Proof.
  cbv zeta. unfold changedPart. cbn [withLastWasChange output oldLineNum newLineNum
                                      firstChangedLine].
  destruct (Part.added part).
  - match goal with
    | |- context [fold_left ?f raw ?st0] =>
        change (fold_left f raw st0)
          with (fold_left (addedLine lineNumWidth) raw st0);
        destruct (fold_addedLine lineNumWidth raw st0) as (Ho & Hold & Hnew & _ & Hf)
    end.
    cbv zeta in *. rewrite Ho, Hold, Hnew, Hf.
    destruct (firstChangedLine st) eqn:Efirst; cbn; rewrite ?Efirst; auto.
  - match goal with
    | |- context [fold_left ?f raw ?st0] =>
        change (fold_left f raw st0)
          with (fold_left (removedLine lineNumWidth) raw st0);
        destruct (fold_removedLine lineNumWidth raw st0) as (Ho & Hold & Hnew & _ & Hf)
    end.
    cbv zeta in *. rewrite Ho, Hold, Hnew, Hf.
    destruct (firstChangedLine st) eqn:Efirst; cbn; rewrite ?Efirst; auto.
Qed.

Lemma unchangedPart_spec contextLines lineNumWidth nextPartIsChange raw st :
  let st' := unchangedPart contextLines lineNumWidth nextPartIsChange raw st in
  (exists printed,
     output st' = output st ++ printed /\
     Forall (fun line => isChangedLine line = false) printed) /\
  oldLineNum st' = (oldLineNum st + length raw)%nat /\
  newLineNum st' = (newLineNum st + length raw)%nat /\
  firstChangedLine st' = firstChangedLine st.
Proof.
  cbv zeta. unfold unchangedPart.
  assert (Hell : forall n : nat,
            Forall (fun line => isChangedLine line = false)
                   (if (0 <? n)%nat then [ellipsisLine lineNumWidth] else [])).
  { intros n. destruct (0 <? n)%nat; repeat constructor. }
  assert (Hshown : forall a l b,
    (a + length l + b = length raw)%nat ->
    let st' :=
      withLastWasChange false
        (skipLines lineNumWidth b
           (fold_left (contextLine lineNumWidth) l (skipLines lineNumWidth a st))) in
    (exists printed,
       output st' = output st ++ printed /\
       Forall (fun line => isChangedLine line = false) printed) /\
    oldLineNum st' = (oldLineNum st + length raw)%nat /\
    newLineNum st' = (newLineNum st + length raw)%nat /\
    firstChangedLine st' = firstChangedLine st).
  { intros a l b Hlen. cbv zeta.
    cbn [withLastWasChange output oldLineNum newLineNum firstChangedLine].
    pose proof (skipLines_spec lineNumWidth a st) as (Ho1 & Hold1 & Hnew1 & _ & Hf1).
    pose proof (fold_contextLine lineNumWidth l (skipLines lineNumWidth a st))
      as (Ho2 & Hold2 & Hnew2 & _ & Hf2).
    pose proof (skipLines_spec lineNumWidth b
                  (fold_left (contextLine lineNumWidth) l
                             (skipLines lineNumWidth a st)))
      as (Ho3 & Hold3 & Hnew3 & _ & Hf3).
    cbv zeta in *.
    rewrite Ho3, Ho2, Ho1, Hold3, Hold2, Hold1, Hnew3, Hnew2, Hnew1, Hf3, Hf2, Hf1,
      <- !app_assoc.
    split; [|repeat split; lia].
    eexists. split; [reflexivity|].
    repeat apply Forall_app_2; auto using numberedContext_nochange. }
  destruct (lastWasChange st) eqn:Hlast, nextPartIsChange; cbn [orb negb andb].
  - apply (Hshown 0%nat raw 0%nat). lia.
  - destruct (Nat.ltb_spec contextLines (length raw)) as [Hlt|Hge].
    + apply (Hshown 0%nat (take contextLines raw) (length raw - contextLines)%nat).
      rewrite length_take. lia.
    + apply (Hshown 0%nat raw 0%nat). lia.
  - apply (Hshown (length raw - contextLines)%nat
                  (drop (length raw - contextLines) raw) 0%nat).
    rewrite length_drop. lia.
  - cbn [withLastWasChange output oldLineNum newLineNum firstChangedLine].
    split; [exists []; split; [now rewrite app_nil_r | constructor]|].
    auto.
Qed.

Section DiffFacts.
Context {platform : Platform}.

Lemma diffLoop_changed contextLines lineNumWidth parts st :
  List.filter isChangedLine (output (diffLoop contextLines lineNumWidth parts st))
  = List.filter isChangedLine (output st)
    ++ changedLines lineNumWidth parts (oldLineNum st) (newLineNum st) /\
  firstChangedLine (diffLoop contextLines lineNumWidth parts st)
  = match firstChangedLine st with
    | Some n => Some n
    | None => firstChange parts (newLineNum st)
    end.
Proof.
  revert st. induction parts as [|part rest IH]; intros st.
  - simpl. rewrite app_nil_r. now destruct (firstChangedLine st).
  - cbn [diffLoop changedLines firstChange]. unfold isChange.
    fold (rawLines part).
    destruct (Part.added part) eqn:Hadded; cbn [orb].
    + destruct (IH (changedPart lineNumWidth part (rawLines part) st)) as [Ho Hf].
      destruct (changedPart_spec lineNumWidth part (rawLines part) st)
        as (Ho1 & Hold1 & Hnew1 & Hf1).
      cbv zeta in *. rewrite Hadded in *.
      rewrite Ho, Hf, Ho1, Hold1, Hnew1, Hf1.
      rewrite filter_app_allchange
        by (apply numberedChange_allchange; now left).
      rewrite <- app_assoc. split; [reflexivity|].
      now destruct (firstChangedLine st).
    + destruct (Part.removed part) eqn:Hremoved.
      * destruct (IH (changedPart lineNumWidth part (rawLines part) st)) as [Ho Hf].
        destruct (changedPart_spec lineNumWidth part (rawLines part) st)
          as (Ho1 & Hold1 & Hnew1 & Hf1).
        cbv zeta in *. rewrite Hadded in *.
        rewrite Ho, Hf, Ho1, Hold1, Hnew1, Hf1.
        rewrite filter_app_allchange
          by (apply numberedChange_allchange; now right).
        rewrite <- app_assoc. split; [reflexivity|].
        now destruct (firstChangedLine st).
      * match goal with
        | |- context [unchangedPart _ _ ?next _ st] =>
            destruct (IH (unchangedPart contextLines lineNumWidth next
                                        (rawLines part) st)) as [Ho Hf];
            destruct (unchangedPart_spec contextLines lineNumWidth next
                                         (rawLines part) st)
              as ((printed & Ho1 & Hprinted) & Hold1 & Hnew1 & Hf1)
        end.
        cbv zeta in *. rewrite Ho, Hf, Ho1, Hold1, Hnew1, Hf1.
        now rewrite filter_app_nochange.
Qed.

Lemma diffLoop_unchanged contextLines lineNumWidth parts st :
  Forall (fun part => isChange part = false) parts ->
  lastWasChange st = false ->
  output (diffLoop contextLines lineNumWidth parts st) = output st.
Proof.
  intros Hparts. revert st.
  induction Hparts as [|part rest Hpart Hrest IH]; intros st Hlast;
    [reflexivity|].
  cbn [diffLoop]. unfold isChange in Hpart. rewrite Hpart.
  assert (Hnext : match rest with
                  | next :: _ => Part.added next || Part.removed next
                  | [] => false
                  end = false).
  { destruct Hrest as [|next rest' Hnext _]; [reflexivity | exact Hnext]. }
  rewrite Hnext, IH.
  - unfold unchangedPart. rewrite Hlast. reflexivity.
  - reflexivity.
Qed.

(** X12.  The diff never leaves out a change.  Of the lines
    [generateDiffString] prints, those that start with [+] or [-] are,
    in order, every line of every added or removed part, each with its
    line number in the new or in the old text: the context window only
    ever drops unchanged lines.  The line it reports as the first change
    is the line of the new text at which the first changed part starts,
    and it is undefined when no part is a change. *)
Theorem generateDiffString_shows_every_change (oldContent newContent : string)
    (contextLines : nat) :
  let lineNumWidth :=
    String.length
      (String_ (Nat.max (length (split_newline oldContent))
                        (length (split_newline newContent)))) in
  let parts := diffLines oldContent newContent in
  let lines := diffOutputLines oldContent newContent contextLines in
  fst (generateDiffString oldContent newContent contextLines)
  = join_newline lines /\
  List.filter isChangedLine lines = changedLines lineNumWidth parts 1 1 /\
  snd (generateDiffString oldContent newContent contextLines)
  = firstChange parts 1.
Proof.
  cbv zeta. unfold generateDiffString, diffOutputLines. cbv zeta. cbn [fst snd].
  split; [reflexivity|].
  match goal with
  | |- context [diffLoop ?c ?w ?parts ?st0] =>
      destruct (diffLoop_changed c w parts st0) as [Ho Hf]
  end.
  rewrite Ho, Hf. split; reflexivity.
Qed.

(** X13.  Without a change there is no diff: when none of the parts that
    [Diff.diffLines] returns is added or removed, [generateDiffString]
    returns the empty text and no first changed line, whatever the length
    of the texts and the context window. *)
Theorem generateDiffString_no_change_is_empty (oldContent newContent : string)
    (contextLines : nat) :
  Forall (fun part => isChange part = false) (diffLines oldContent newContent) ->
  generateDiffString oldContent newContent contextLines = ("", None).
Proof.
  intros Hparts. unfold generateDiffString. cbv zeta.
  match goal with
  | |- context [diffLoop ?c ?w ?parts ?st0] =>
      destruct (diffLoop_changed c w parts st0) as [_ Hf];
      rewrite Hf, (diffLoop_unchanged c w parts st0 Hparts eq_refl)
  end.
  cbn [output firstChangedLine newLineNum join_newline]. f_equal.
  clear Hf. generalize 1%nat.
  induction Hparts as [|part rest Hpart _ IH]; intros n; [reflexivity|].
  simpl. rewrite Hpart. apply IH.
Qed.

End DiffFacts.

Section DiffStackFacts.
Context {platform : Platform} {reader : CacheReader}.

Lemma entryText_world entry w : fst (entryText entry w) = w.
Proof.
  unfold entryText. destruct (existsOf entry && truthyOpt (hashOf entry));
    [|reflexivity].
  destruct (hashOf entry) as [hash|]; [|reflexivity].
  unfold bind, readBlob. now destruct (blobsDir (cacheStore w) !! hash).
Qed.

Lemma entryText_missing entry hash w :
  existsOf entry = true -> hashOf entry = Some hash -> truthy hash = true ->
  blobsDir (cacheStore w) !! hash = None ->
  exists message, entryText entry w = (w, Rejected message).
Proof.
  intros He Hh Ht Hb. unfold entryText. rewrite He, Hh. cbn [truthyOpt].
  rewrite Ht. cbn [andb]. unfold bind, readBlob. rewrite Hb. eauto.
Qed.

Lemma formatTextDiff_world baseEntry leafEntry w :
  fst (formatTextDiff baseEntry leafEntry w) = w.
Proof.
  unfold formatTextDiff, bind.
  pose proof (entryText_world baseEntry w) as Hw1.
  destruct (entryText baseEntry w) as [w1 [baseText|message]];
    cbn [fst] in Hw1; subst w1; [|reflexivity].
  pose proof (entryText_world leafEntry w) as Hw2.
  destruct (entryText leafEntry w) as [w2 [leafText|message]];
    cbn [fst] in Hw2; subst w2; reflexivity.
Qed.

Lemma formatTextDiff_nonempty baseEntry leafEntry w text :
  snd (formatTextDiff baseEntry leafEntry w) = Returned text -> text <> "".
Proof.
  unfold formatTextDiff, bind.
  destruct (entryText baseEntry w) as [w1 [baseText|message]]; [|discriminate].
  destruct (entryText leafEntry w1) as [w2 [leafText|message]]; [|discriminate].
  cbn [ret snd]. intros [= <-].
  match goal with
  | |- (if truthy ?d then _ else _) <> _ =>
      destruct (truthy d) eqn:Hd; [now apply truthy_ne | discriminate]
  end.
Qed.

Lemma formatTextDiff_missing baseEntry leafEntry entry hash w :
  entry = baseEntry \/ entry = leafEntry ->
  existsOf entry = true -> hashOf entry = Some hash -> truthy hash = true ->
  blobsDir (cacheStore w) !! hash = None ->
  exists message, snd (formatTextDiff baseEntry leafEntry w) = Rejected message.
Proof.
  intros Hentry He Hh Ht Hb. unfold formatTextDiff, bind.
  destruct Hentry as [-> | ->].
  - destruct (entryText_missing _ _ _ He Hh Ht Hb) as (message & ->). eauto.
  - pose proof (entryText_world baseEntry w) as Hw1.
    destruct (entryText baseEntry w) as [w1 [baseText|message]];
      cbn [fst] in Hw1; subst w1; [|eauto].
    destruct (entryText_missing _ _ _ He Hh Ht Hb) as (message & ->). eauto.
Qed.

Lemma formatDiffText_cases baseEntry leafEntry :
  formatDiffText baseEntry leafEntry
  = if negb (existsOf baseEntry) && negb (existsOf leafEntry)
    then ret "No changes recorded."
    else if binaryOf leafEntry || binaryOf baseEntry
    then ret (match existsOf baseEntry, existsOf leafEntry with
              | false, false => "No changes recorded."
              | false, true => "Binary file added."
              | true, false => "Binary file deleted."
              | true, true => "Binary file modified."
              end)
    else formatTextDiff baseEntry leafEntry.
Proof.
  unfold formatDiffText, formatTextDiff. cbv zeta.
  now destruct (existsOf baseEntry), (existsOf leafEntry),
    (binaryOf leafEntry || binaryOf baseEntry).
Qed.

(** X14.  [formatDiffText] always has something to say and never changes
    anything.  It leaves the world as it is; the text it returns is never
    empty; for two entries that do not exist it is "No changes recorded.";
    when either entry is flagged binary it is one of the three binary
    messages, chosen by existence alone, and no blob is read (so the call
    returns even if the blobs are gone); and for text entries a blob that
    is missing from the blob directory makes the call reject. *)
Theorem formatDiffText_messages (baseEntry leafEntry : option FileState.t)
    (w : World) :
  fst (formatDiffText baseEntry leafEntry w) = w /\
  (forall text,
     snd (formatDiffText baseEntry leafEntry w) = Returned text -> text <> "") /\
  (existsOf baseEntry = false -> existsOf leafEntry = false ->
   snd (formatDiffText baseEntry leafEntry w) = Returned "No changes recorded.") /\
  (binaryOf leafEntry || binaryOf baseEntry = true ->
   snd (formatDiffText baseEntry leafEntry w)
   = Returned
       (match existsOf baseEntry, existsOf leafEntry with
        | false, false => "No changes recorded."
        | false, true => "Binary file added."
        | true, false => "Binary file deleted."
        | true, true => "Binary file modified."
        end)) /\
  (binaryOf leafEntry || binaryOf baseEntry = false ->
   forall entry hash,
     (entry = baseEntry \/ entry = leafEntry) ->
     existsOf entry = true -> hashOf entry = Some hash -> truthy hash = true ->
     blobsDir (cacheStore w) !! hash = None ->
     exists message,
       snd (formatDiffText baseEntry leafEntry w) = Rejected message).
Proof.
  rewrite formatDiffText_cases.
  destruct (negb (existsOf baseEntry) && negb (existsOf leafEntry)) eqn:Hnone.
  - apply andb_prop in Hnone as [Hbase Hleaf].
    apply negb_true_iff in Hbase, Hleaf. rewrite Hbase, Hleaf. cbn [ret fst snd].
    repeat split; try reflexivity.
    + intros text [= <-]. discriminate.
    + intros _ entry hash [-> | ->] He; congruence.
  - destruct (binaryOf leafEntry || binaryOf baseEntry) eqn:Hbin.
    + cbn [ret fst snd]. repeat split; try discriminate.
      * intros text [= <-].
        destruct (existsOf baseEntry), (existsOf leafEntry); discriminate.
      * intros Hbase Hleaf. rewrite Hbase, Hleaf in Hnone. discriminate.
    + split; [apply formatTextDiff_world|].
      split; [intros text; apply formatTextDiff_nonempty|].
      split; [intros Hbase Hleaf; rewrite Hbase, Hleaf in Hnone; discriminate|].
      split; [discriminate|].
      intros _ entry hash. apply formatTextDiff_missing.
Qed.

Lemma collectUiDiffItems_flat_map baseManifest leafId leafManifest :
  collectUiDiffItems baseManifest leafId leafManifest
  = flat_map (uiItemsOfEntry baseManifest leafId) leafManifest.
Proof.
  unfold collectUiDiffItems.
  assert (H : forall items,
    fold_left
      (fun items kv =>
         let '(filePath, leafEntry) := kv in
         let baseEntry := JsMap.get baseManifest filePath in
         match describeChange baseEntry (Some leafEntry) with
         | None => items
         | Some change =>
             items
             ++ [{| UiDiffItem.leafId := leafId;
                    UiDiffItem.path := filePath;
                    UiDiffItem.change := change;
                    UiDiffItem.label :=
                      "[" +:+ leafId +:+ "] " +:+ letterString change
                          +:+ " " +:+ filePath |}]
         end)
      leafManifest items
    = items ++ flat_map (uiItemsOfEntry baseManifest leafId) leafManifest).
  { induction leafManifest as [|[filePath leafEntry] rest IH]; intros items.
    - simpl. now rewrite app_nil_r.
    - cbn [fold_left flat_map]. rewrite IH. unfold uiItemsOfEntry at 2.
      cbn [fst snd].
      destruct (describeChange (JsMap.get baseManifest filePath) (Some leafEntry));
        [now rewrite <- app_assoc | reflexivity]. }
  apply (H []).
Qed.

Lemma listDiffItemsOfLeaf_eq baseManifest items leafId w :
  listDiffItemsOfLeaf baseManifest items leafId w
  = (w, Returned
          (items
           ++ match leavesDir (cacheStore w) !! leafId with
              | Some leafManifest =>
                  map toDiffItem
                      (collectUiDiffItems baseManifest leafId leafManifest)
              | None => []
              end)).
Proof.
  unfold listDiffItemsOfLeaf, bind, readLeaf, gets. cbn [fst snd].
  destruct (leavesDir (cacheStore w) !! leafId) as [leafManifest|];
    [|now rewrite app_nil_r].
  unfold ret. f_equal. f_equal. rewrite collectUiDiffItems_flat_map.
  revert items. induction leafManifest as [|[filePath leafEntry] rest IH];
    intros items.
  - simpl. now rewrite app_nil_r.
  - cbn [fold_left flat_map]. rewrite IH, map_app, app_assoc. f_equal.
    unfold uiItemsOfEntry. cbn [fst snd].
    destruct (describeChange (JsMap.get baseManifest filePath) (Some leafEntry));
      [reflexivity | now rewrite app_nil_r].
Qed.

Lemma forEachLeaf_eq baseManifest leafIds items w :
  forEachLeaf baseManifest leafIds items w
  = (w, Returned
          (items
           ++ flat_map
                (fun leafId =>
                   match leavesDir (cacheStore w) !! leafId with
                   | Some leafManifest =>
                       map toDiffItem
                           (collectUiDiffItems baseManifest leafId leafManifest)
                   | None => []
                   end) leafIds)).
Proof.
  revert items. induction leafIds as [|leafId rest IH]; intros items.
  - simpl. now rewrite app_nil_r.
  - cbn [forEachLeaf flat_map]. unfold bind.
    rewrite listDiffItemsOfLeaf_eq, IH. now rewrite app_assoc.
Qed.

(** X15.  The list of the tool and the list of the picker show the same
    changes.  [listDiffItems] changes nothing and returns, for the leaf
    ids in the order the cache lists them, the items
    [collectUiDiffItems] collects for the stored manifest of each leaf
    (none for an id without one), each with its letter spelled out.  An
    item is collected for an entry of a leaf manifest exactly when
    [describeChange] finds a change against the base; the items keep the
    order of the manifest. *)
Theorem listDiffItems_agrees_with_picker (w : World) :
  let base := JsMap.new_Map (baseManifest (tracker w)) in
  listDiffItems w
  = (w, Returned
          (flat_map
             (fun leafId =>
                match leavesDir (cacheStore w) !! leafId with
                | Some leafManifest =>
                    map toDiffItem (collectUiDiffItems base leafId leafManifest)
                | None => []
                end)
             (listLeafIdsOf (cacheStore w)))) /\
  forall leafId leafManifest,
    map (fun item => (UiDiffItem.path item, UiDiffItem.change item))
        (collectUiDiffItems base leafId leafManifest)
    = flat_map
        (fun kv =>
           match describeChange (JsMap.get base (fst kv)) (Some (snd kv)) with
           | Some change => [(fst kv, change)]
           | None => []
           end) leafManifest /\
    Forall (fun item => UiDiffItem.leafId item = leafId)
           (collectUiDiffItems base leafId leafManifest).
Proof.
  cbv zeta. split.
  - unfold listDiffItems, listLeafIds, gets, bind.
    now rewrite forEachLeaf_eq.
  - intros leafId leafManifest. rewrite collectUiDiffItems_flat_map. split.
    + induction leafManifest as [|kv rest IH]; [reflexivity|].
      cbn [flat_map]. rewrite map_app, IH. f_equal.
      unfold uiItemsOfEntry.
      now destruct (describeChange
                      (JsMap.get (JsMap.new_Map (baseManifest (tracker w))) (fst kv))
                      (Some (snd kv))).
    + induction leafManifest as [|kv rest IH]; [constructor|].
      cbn [flat_map]. apply Forall_app_2; [|exact IH].
      unfold uiItemsOfEntry.
      destruct (describeChange
                  (JsMap.get (JsMap.new_Map (baseManifest (tracker w))) (fst kv))
                  (Some (snd kv))); repeat constructor.
Qed.

End DiffStackFacts.

Section SandboxFacts.
Context {platform : Platform} {times : FileTimes}.

Lemma copyFile_eq source target w :
  copyFile source target w
  = match disk w !! source with
    | Some content => (withDisk (<[target := content]> (disk w)) w, Returned tt)
    | None => (w, Rejected "ENOENT")
    end.
Proof.
  unfold copyFile, bind, readFile. now destruct (disk w !! source).
Qed.



Lemma get_delete_ne {V : Type} (m : JsMap.t V) k k' :
  k <> k' -> JsMap.get (JsMap.delete m k) k' = JsMap.get m k'.
Proof.
  intros Hne. induction m as [|[k0 v0] m IH]; simpl; [reflexivity|].
  destruct (String.eqb_spec k0 k) as [->|Hne0]; simpl.
  - now rewrite eqb_false_ne.
  - now rewrite IH.
Qed.

Lemma get_delete_eq {V : Type} (m : JsMap.t V) k :
  JsMap.wf m -> JsMap.get (JsMap.delete m k) k = None.
Proof.
  unfold JsMap.wf, JsMap.keys. induction m as [|[k0 v0] m IH]; simpl;
    [reflexivity|].
  intros Hnd. apply NoDup_cons in Hnd as [Hout Hnd].
  destruct (String.eqb_spec k0 k) as [->|Hne0]; simpl.
  - apply get_None_keys. intros Hin. apply Hout.
    now apply list_elem_of_In.
  - rewrite eqb_false_ne by exact Hne0. now apply IH.
Qed.

Lemma wf_delete {V : Type} (m : JsMap.t V) k :
  JsMap.wf m -> JsMap.wf (JsMap.delete m k).
Proof.
  unfold JsMap.wf, JsMap.keys. induction m as [|[k0 v0] m IH]; simpl;
    [auto|].
  intros Hnd. apply NoDup_cons in Hnd as [Hout Hnd].
  destruct (String.eqb k0 k); [exact Hnd|].
  simpl. apply NoDup_cons. split; [|now apply IH].
  intros Hin. apply Hout. apply list_elem_of_In in Hin. apply list_elem_of_In.
  clear -Hin. induction m as [|[k1 v1] m IH]; simpl in *; [exact Hin|].
  destruct (String.eqb k1 k); simpl in *; [now right|].
  destruct Hin as [->|Hin]; [now left | right; now apply IH].
Qed.

(** X18.  [updateSandboxStatsForFile] brings the stats of one path up to
    date and leaves the others alone.  Afterwards the stats map has an
    entry for the path exactly when the path is not ignored and the
    sandbox has the file, and the entry is then the file's size and
    modification time; the entry of every other path is what it was; and
    a path that is the empty string is never treated as ignored. *)
Theorem updateSandboxStatsForFile_refreshes_one_path (sandboxRoot : string)
    (stats : JsMap.t SandboxEntryStats.t) (relativePath : string)
    (ignores : string -> bool) (w : World) :
  JsMap.wf stats ->
  let after := updateSandboxStatsForFile sandboxRoot stats relativePath ignores w in
  JsMap.wf after /\
  JsMap.get after relativePath
  = (if shouldIgnore ignores relativePath false then None
     else statFile w (joinPath sandboxRoot relativePath)) /\
  (forall other,
     other <> relativePath -> JsMap.get after other = JsMap.get stats other) /\
  (forall isDir, shouldIgnore ignores "" isDir = false).
Proof.
  intros Hwf. cbv zeta. unfold updateSandboxStatsForFile.
  split; [|split; [|split]].
  - destruct (shouldIgnore ignores relativePath false); [now apply wf_delete|].
    destruct (statFile w (joinPath sandboxRoot relativePath));
      [now apply wf_set | now apply wf_delete].
  - destruct (shouldIgnore ignores relativePath false);
      [now apply get_delete_eq|].
    destruct (statFile w (joinPath sandboxRoot relativePath));
      [apply get_set_eq | now apply get_delete_eq].
  - intros other Hne.
    destruct (shouldIgnore ignores relativePath false);
      [apply get_delete_ne; congruence|].
    destruct (statFile w (joinPath sandboxRoot relativePath));
      [apply get_set_ne; congruence | apply get_delete_ne; congruence].
  - reflexivity.
Qed.

End SandboxFacts.

(** ** The stat diff, both ways *)

Lemma filter_map_fst {V : Type} (f : string -> bool) (l : list (string * V)) :
  map fst (List.filter (fun kv => f (fst kv)) l) = List.filter f (map fst l).
Proof.
  induction l as [|kv l IH]; [reflexivity|].
  simpl. destruct (f (fst kv)); simpl; now rewrite IH.
Qed.

Lemma changedOf_self (m : JsMap.t SandboxEntryStats.t) (l : list (string * SandboxEntryStats.t)) :
  (forall kv, In kv l -> JsMap.get m (fst kv) = Some (snd kv)) ->
  changedOf m l = [].
Proof.
  intros H. unfold changedOf. induction l as [|kv l IH]; [reflexivity|].
  simpl. rewrite (H kv) by now left.
  assert (Hsame : statsDiffer (snd kv) (snd kv) = false).
  { unfold statsDiffer. now rewrite !Z.eqb_refl. }
  rewrite Hsame. apply IH. intros kv' Hin. apply H. now right.
Qed.

Lemma diffSandboxStats_disjoint (before after : JsMap.t SandboxEntryStats.t) p :
  let d := diffSandboxStats before after in
  ~ (In p (added d) /\ In p (changed d)) /\
  ~ (In p (added d) /\ In p (removed d)) /\
  ~ (In p (changed d) /\ In p (removed d)).
Proof.
  cbv zeta. rewrite diffSandboxStats_eq. cbn [added removed changed].
  unfold addedOf, changedOf. repeat split.
  - intros [Ha Hc]. apply in_map_iff in Ha as [[k v] [<- Ha]].
    apply List.filter_In in Ha as [_ Ha].
    apply in_map_iff in Hc as [[k' v'] [Hk Hc]].
    apply List.filter_In in Hc as [_ Hc]. cbn [fst snd] in *. subst k'.
    unfold JsMap.has in Ha. destruct (JsMap.get before k); discriminate.
  - intros [Ha Hr]. apply in_map_iff in Ha as [[k v] [<- Ha]].
    apply List.filter_In in Ha as [Ha _].
    apply List.filter_In in Hr as [_ Hr]. cbn [fst] in *.
    assert (Hk : JsMap.has after k = true)
      by (apply has_true_keys; now apply (in_map fst) in Ha).
    rewrite Hk in Hr. discriminate.
  - intros [Hc Hr]. apply in_map_iff in Hc as [[k v] [<- Hc]].
    apply List.filter_In in Hc as [Hc _]. cbn [fst] in *.
    apply List.filter_In in Hr as [_ Hr].
    assert (Hk : JsMap.has after k = true)
      by (apply has_true_keys; now apply (in_map fst) in Hc).
    rewrite Hk in Hr. discriminate.
Qed.

Lemma diffSandboxStats_in_after (before after : JsMap.t SandboxEntryStats.t) p :
  let d := diffSandboxStats before after in
  In p (added d) \/ In p (changed d) -> In p (JsMap.keys after).
Proof.
  cbv zeta. rewrite diffSandboxStats_eq. cbn [added changed].
  unfold addedOf, changedOf.
  intros [H|H]; apply in_map_iff in H as [[k v] [<- H]];
    apply List.filter_In in H as [H _]; now apply (in_map fst) in H.
Qed.

(** X19.  The stat diff read backwards.  What [diffSandboxStats] lists as
    added from [before] to [after] is, item for item, what it lists as
    removed from [after] to [before], and the other way round; no path is
    in two of the three lists; and the diff of a map with itself is
    empty. *)
Theorem diffSandboxStats_reversed (before after : JsMap.t SandboxEntryStats.t) :
  let forward := diffSandboxStats before after in
  let backward := diffSandboxStats after before in
  added forward = removed backward /\
  removed forward = added backward /\
  (forall p,
     ~ (In p (added forward) /\ In p (changed forward)) /\
     ~ (In p (added forward) /\ In p (removed forward)) /\
     ~ (In p (changed forward) /\ In p (removed forward))) /\
  (JsMap.wf before ->
   diffSandboxStats before before
   = {| added := []; removed := []; changed := [] |}).
Proof.
  cbv zeta. rewrite !diffSandboxStats_eq. cbn [added removed changed].
  unfold addedOf, JsMap.keys.
  rewrite !(filter_map_fst (fun k => negb (JsMap.has _ k))).
  split; [reflexivity|]. split; [reflexivity|]. split.
  - intros p. pose proof (diffSandboxStats_disjoint before after p) as H.
    cbv zeta in H. rewrite diffSandboxStats_eq in H.
    cbn [added removed changed] in H. unfold addedOf, JsMap.keys in H.
    rewrite !(filter_map_fst (fun k => negb (JsMap.has _ k))) in H. exact H.
  - intros Hwf.
    assert (Hnone : List.filter (fun k => negb (JsMap.has before k))
                                (map fst before) = []).
    { assert (H : forall l : list string,
                (forall k, In k l -> JsMap.has before k = true) ->
                List.filter (fun k => negb (JsMap.has before k)) l = []).
      { induction l as [|k l IH]; intros H; [reflexivity|].
        simpl. rewrite (H k) by now left. simpl. apply IH.
        intros k' Hin. apply H. now right. }
      apply H. intros k Hin. now apply has_true_keys. }
    rewrite Hnone, changedOf_self; [reflexivity|].
    intros [k v] Hin. now apply In_get.
Qed.

Lemma splitChar_nonempty c s : splitChar c s <> [].
Proof.
  destruct s as [|x rest]; simpl; [discriminate|].
  destruct (Ascii.eqb x c); [discriminate|].
  destruct (splitChar c rest); discriminate.
Qed.

Lemma joinChar_cons d piece pieces :
  pieces <> [] ->
  joinChar d (piece :: pieces) = piece +:+ String d (joinChar d pieces).
Proof. destruct pieces; [congruence | reflexivity]. Qed.

Lemma joinChar_cons_head d x piece pieces :
  joinChar d (String x piece :: pieces) = String x (joinChar d (piece :: pieces)).
Proof. destruct pieces; reflexivity. Qed.

Lemma joinChar_splitChar c d s :
  joinChar d (splitChar c s) = replaceChar c d s.
Proof.
  induction s as [|x rest IH]; [reflexivity|].
  cbn [splitChar replaceChar]. destruct (Ascii.eqb x c).
  - rewrite joinChar_cons by apply splitChar_nonempty.
    simpl. now rewrite IH.
  - destruct (splitChar c rest) as [|piece pieces] eqn:E.
    + now destruct (splitChar_nonempty c rest).
    + rewrite joinChar_cons_head. now rewrite IH.
Qed.

Lemma replaceChar_back c d s :
  hasChar d s = false -> replaceChar d c (replaceChar c d s) = s.
Proof.
  induction s as [|x rest IH]; [reflexivity|].
  cbn [hasChar replaceChar]. intros H. apply orb_false_iff in H as [Hx Hrest].
  rewrite (IH Hrest). f_equal.
  destruct (Ascii.eqb_spec x c) as [->|Hne].
  - now rewrite Ascii.eqb_refl.
  - now rewrite Hx.
Qed.

Lemma replaceChar_same c s : replaceChar c c s = s.
Proof.
  induction s as [|x rest IH]; [reflexivity|].
  cbn [replaceChar]. rewrite IH. f_equal.
  now destruct (Ascii.eqb_spec x c) as [->|].
Qed.

Lemma hasChar_replaceChar c d s :
  c <> d -> hasChar c (replaceChar c d s) = false.
Proof.
  intros Hne. induction s as [|x rest IH]; [reflexivity|].
  cbn [replaceChar hasChar]. rewrite IH.
  destruct (Ascii.eqb_spec x c) as [->|Hx].
  - destruct (Ascii.eqb_spec d c); [congruence | reflexivity].
  - destruct (Ascii.eqb_spec x c); [congruence | reflexivity].
Qed.

Section PathFacts.
Context {paths : PathLib}.

(** X20.  [toPosix] and [fromPosix] swap the separator for the slash and
    back, character by character, and undo each other on the paths they
    are meant for: [fromPosix (toPosix value)] is [value] when [value]
    holds no slash (or the separator is the slash), [toPosix (fromPosix
    value)] is [value] when [value] holds no separator (or the separator
    is the slash), and the result of [toPosix] holds no separator unless
    the separator is the slash. *)
Theorem toPosix_fromPosix_round_trip (value : string) :
  toPosix value = replaceChar sep "/" value /\
  fromPosix value = replaceChar "/" sep value /\
  (hasChar "/" value = false \/ sep = "/"%char ->
   fromPosix (toPosix value) = value) /\
  (hasChar sep value = false \/ sep = "/"%char ->
   toPosix (fromPosix value) = value) /\
  (sep <> "/"%char -> hasChar sep (toPosix value) = false).
Proof.
  unfold toPosix, fromPosix. rewrite !joinChar_splitChar.
  split; [reflexivity|]. split; [reflexivity|]. split; [|split].
  - intros [H | ->].
    + now apply replaceChar_back.
    + now rewrite !replaceChar_same.
  - intros [H | ->].
    + now apply replaceChar_back.
    + now rewrite !replaceChar_same.
  - intros Hne. now apply hasChar_replaceChar.
Qed.

End PathFacts.

Section ToolFacts.
Context {platform : Platform} {times : FileTimes} {paths : PathLib}.

Lemma ensureBaseFromSandbox_frame p w :
  let w' := fst (ensureBaseFromSandbox p w) in
  snd (ensureBaseFromSandbox p w) = Returned tt /\
  disk w' = disk w /\
  trackedManifest (tracker w') = trackedManifest (tracker w) /\
  sandboxRoot (tracker w') = sandboxRoot (tracker w) /\
  realRoot (tracker w') = realRoot (tracker w) /\
  statsLog w' = statsLog w /\
  baseManifest (tracker w')
  = (if JsMap.has (baseManifest (tracker w)) p then baseManifest (tracker w)
     else JsMap.set (baseManifest (tracker w)) p
            (entryOf (disk w !! joinPath (sandboxRoot (tracker w)) p))).
Proof.
  cbv zeta. unfold ensureBaseFromSandbox. rewrite ensureBase_eq.
  destruct (JsMap.has (baseManifest (tracker w)) p); cbn; auto 10.
Qed.

Lemma liftIO_eq {T : Type} (c : IO T) s :
  liftIO c s = (withWorld (fst (c (world s))) s, snd (c (world s))).
Proof. unfold liftIO. now destruct (c (world s)). Qed.

Lemma bindA_liftIO {T U : Type} (c : IO T) (k : T -> Act ToolState U) s :
  bindA (liftIO c) k s
  = match snd (c (world s)) with
    | Returned v => k v (withWorld (fst (c (world s))) s)
    | Rejected message => (withWorld (fst (c (world s))) s, Rejected message)
    end.
Proof.
  unfold bindA. rewrite liftIO_eq. now destruct (snd (c (world s))).
Qed.

Lemma bindA_runHost {U : Type} tool (k : ToolResult -> Act ToolState U) s :
  bindA (runHost tool) k s
  = match snd (tool (disk (world s))) with
    | Returned v =>
        k v (withWorld (withDisk (fst (tool (disk (world s)))) (world s)) s)
    | Rejected message =>
        (withWorld (withDisk (fst (tool (disk (world s)))) (world s)) s,
         Rejected message)
    end.
Proof.
  unfold bindA, runHost. now destruct (tool (disk (world s))) as [d [v|m]].
Qed.

Lemma updateFromSandbox_returns p w :
  exists entry, snd (updateFromSandbox p w) = Returned entry.
Proof. rewrite updateFromSandbox_eq. cbv zeta. eauto. Qed.

Lemma trackedExecute_eq rt inputPath p tool matcher s :
  toRelativePath (resolveUserPath inputPath (runtimeRealRoot rt))
                 (runtimeRealRoot rt) = Some p ->
  truthy p = true ->
  SandboxState.ignoreMatcher (sandboxState s) = Some matcher ->
  trackedExecute rt inputPath tool s
  = let w1 := fst (ensureBaseFromSandbox p (world s)) in
    let w2 := withDisk (fst (tool (disk w1))) w1 in
    match snd (tool (disk w1)) with
    | Rejected message => (withWorld w2 s, Rejected message)
    | Returned result =>
        let w3 := fst (updateFromSandbox p w2) in
        let synced :=
          copyFile (joinPath (runtimeSandboxRoot rt) p)
                   (joinPath (runtimeRealRoot rt) p) w3 in
        match snd synced with
        | Rejected message => (withWorld (fst synced) s, Rejected message)
        | Returned _ =>
            ({| world := fst synced;
                sandboxState :=
                  SandboxState.withStats
                    (updateSandboxStatsForFile
                       (SandboxState.sandboxRoot (sandboxState s))
                       (SandboxState.stats (sandboxState s)) p matcher
                       (fst synced))
                    (sandboxState s);
                statusUpdates := statusUpdates s + 1 |},
             Returned (rewriteResultPaths result (runtimeSandboxRoot rt)
                                          (runtimeRealRoot rt)))
        end
    end.
Proof.
  intros Hrel Htruthy Hmatcher. unfold trackedExecute. cbv zeta.
  rewrite Hrel. unfold whenPath. rewrite Htruthy.
  rewrite bindA_liftIO.
  pose proof (ensureBaseFromSandbox_frame p (world s)) as Hensure.
  cbv zeta in Hensure. destruct Hensure as (Hr & _). rewrite Hr.
  set (w1 := fst (ensureBaseFromSandbox p (world s))).
  rewrite bindA_runHost. cbn [world withWorld].
  destruct (snd (tool (disk w1))) as [result|message]; [|reflexivity].
  set (w2 := withDisk (fst (tool (disk w1))) w1).
  unfold bindA at 1. rewrite bindA_liftIO. cbn [world withWorld].
  destruct (updateFromSandbox_returns p w2) as (entry & Hentry). rewrite Hentry.
  set (w3 := fst (updateFromSandbox p w2)).
  rewrite bindA_liftIO. cbn [world withWorld]. unfold syncFileFromSandbox.
  destruct (snd (copyFile (joinPath (runtimeSandboxRoot rt) p)
                          (joinPath (runtimeRealRoot rt) p) w3))
    as [[]|message]; [|reflexivity].
  set (w4 := fst (copyFile (joinPath (runtimeSandboxRoot rt) p)
                           (joinPath (runtimeRealRoot rt) p) w3)).
  unfold updateFile, getIgnoreMatcher, bindA. cbn [sandboxState withWorld].
  rewrite Hmatcher. reflexivity.
Qed.


Lemma forOf_app {T : Type} (l1 l2 : list T) (body : T -> IO unit) w :
  forOf (l1 ++ l2) body w
  = (forOf l1 body ;; forOf l2 body)%io w.
Proof.
  revert w. induction l1 as [|x l1 IH]; intros w.
  - reflexivity.
  - cbn [app forOf]. unfold bind in *.
    destruct (body x w) as [w1 [[]|message]]; [|reflexivity].
    apply IH.
Qed.

Lemma ensureBaseFromDisk_frame p w :
  let w' := fst (ensureBaseFromDisk p w) in
  snd (ensureBaseFromDisk p w) = Returned tt /\
  disk w' = disk w /\
  trackedManifest (tracker w') = trackedManifest (tracker w) /\
  sandboxRoot (tracker w') = sandboxRoot (tracker w) /\
  realRoot (tracker w') = realRoot (tracker w) /\
  baseManifest (tracker w')
  = (if JsMap.has (baseManifest (tracker w)) p then baseManifest (tracker w)
     else JsMap.set (baseManifest (tracker w)) p
            (entryOf (disk w !! joinPath (realRoot (tracker w)) p))).
Proof.
  cbv zeta. unfold ensureBaseFromDisk. rewrite ensureBase_eq.
  destruct (JsMap.has (baseManifest (tracker w)) p); cbn; auto 10.
Qed.

(** What one turn of a loop of [bashExecute] leaves. *)
Lemma trackChanged_step rt p content w :
  disk w !! joinPath (runtimeSandboxRoot rt) p = Some content ->
  sandboxRoot (tracker w) = runtimeSandboxRoot rt ->
  let w' := fst (trackChanged rt p w) in
  snd (trackChanged rt p w) = Returned tt /\
  disk w' = <[joinPath (runtimeRealRoot rt) p := content]> (disk w) /\
  trackedManifest (tracker w')
  = JsMap.set (trackedManifest (tracker w)) p (entryOf (Some content)) /\
  baseManifest (tracker w')
  = (if JsMap.has (baseManifest (tracker w)) p then baseManifest (tracker w)
     else JsMap.set (baseManifest (tracker w)) p
            (entryOf (disk w !! joinPath (realRoot (tracker w)) p))) /\
  sandboxRoot (tracker w') = sandboxRoot (tracker w) /\
  realRoot (tracker w') = realRoot (tracker w).
Proof.
  intros Hfile Hroot. cbv zeta.
  remember (trackChanged rt p w) as res eqn:Hres.
  unfold trackChanged in Hres.
  pose proof (ensureBaseFromDisk_frame p w) as Hensure. cbv zeta in Hensure.
  destruct Hensure as (Hr & Hd1 & Ht1 & Hs1 & Hr1 & Hb1).
  unfold bind at 1 in Hres. destruct (ensureBaseFromDisk p w) as [w1 r1].
  cbn [fst snd] in *. subst r1.
  unfold bind at 1 in Hres. rewrite updateFromSandbox_eq in Hres.
  cbv zeta in Hres. rewrite Hs1, Hroot, Hd1, Hfile in Hres.
  unfold syncFileFromSandbox in Hres. rewrite copyFile_eq in Hres.
  cbn [disk] in Hres. rewrite Hfile in Hres. subst res.
  cbn [fst snd]. world_simpl. rewrite ?Ht1, ?Hb1, ?Hs1, ?Hr1, ?Hd1. auto 10.
Qed.

Lemma trackRemoved_step rt p w :
  let w' := fst (trackRemoved rt p w) in
  snd (trackRemoved rt p w) = Returned tt /\
  disk w' = delete (joinPath (runtimeRealRoot rt) p) (disk w) /\
  trackedManifest (tracker w')
  = JsMap.set (trackedManifest (tracker w)) p FileState.absent /\
  baseManifest (tracker w')
  = (if JsMap.has (baseManifest (tracker w)) p then baseManifest (tracker w)
     else JsMap.set (baseManifest (tracker w)) p
            (entryOf (disk w !! joinPath (realRoot (tracker w)) p))) /\
  sandboxRoot (tracker w') = sandboxRoot (tracker w) /\
  realRoot (tracker w') = realRoot (tracker w).
Proof.
  cbv zeta.
  remember (trackRemoved rt p w) as res eqn:Hres.
  unfold trackRemoved in Hres.
  pose proof (ensureBaseFromDisk_frame p w) as Hensure. cbv zeta in Hensure.
  destruct Hensure as (Hr & Hd1 & Ht1 & Hs1 & Hr1 & Hb1).
  unfold bind at 1 in Hres. destruct (ensureBaseFromDisk p w) as [w1 r1].
  cbn [fst snd] in *. subst r1.
  unfold bind at 1 in Hres. rewrite markDeleted_eq in Hres.
  unfold removeFileFromDisk, rmForce, modify in Hres. subst res.
  cbn [fst snd]. world_simpl.
  rewrite emitted_disk, emitted_tracker. world_simpl.
  rewrite ?Ht1, ?Hb1, ?Hs1, ?Hr1, ?Hd1. auto 10.
Qed.

Lemma putOrDelete_lookup target absPath d other :
  putOrDelete target absPath d !! other
  = if decide (absPath = other) then target else d !! other.
Proof.
  unfold putOrDelete. destruct target as [content|]; destruct (decide (absPath = other)) as [->|Hne].
  - apply lookup_insert_eq.
  - now apply lookup_insert_ne.
  - apply lookup_delete_eq.
  - now apply lookup_delete_ne.
Qed.

Section TrackLoop.
Variable rt : Runtime.
Variable body : string -> IO unit.
Variable target : string -> option string.
Variable entry : string -> FileState.t.
Variable domain : list string.
Variable w0 : World.

Hypothesis Hsep :
  forall p q,
    joinPath (runtimeRealRoot rt) p <> joinPath (runtimeSandboxRoot rt) q.
Hypothesis Hinj :
  forall p q,
    joinPath (runtimeRealRoot rt) p = joinPath (runtimeRealRoot rt) q -> p = q.
Hypothesis Hstep :
  forall p w,
    In p domain ->
    sandboxRoot (tracker w) = runtimeSandboxRoot rt -> realRoot (tracker w) = runtimeRealRoot rt ->
    (forall q, disk w !! joinPath (runtimeSandboxRoot rt) q = disk w0 !! joinPath (runtimeSandboxRoot rt) q) ->
    snd (body p w) = Returned tt /\
    disk (fst (body p w)) = putOrDelete (target p) (joinPath (runtimeRealRoot rt) p) (disk w) /\
    trackedManifest (tracker (fst (body p w)))
    = JsMap.set (trackedManifest (tracker w)) p (entry p) /\
    baseManifest (tracker (fst (body p w)))
    = (if JsMap.has (baseManifest (tracker w)) p then baseManifest (tracker w)
       else JsMap.set (baseManifest (tracker w)) p
              (entryOf (disk w !! joinPath (runtimeRealRoot rt) p))) /\
    sandboxRoot (tracker (fst (body p w))) = runtimeSandboxRoot rt /\
    realRoot (tracker (fst (body p w))) = runtimeRealRoot rt.

Lemma forOf_track (l : list string) (w : World) :
  incl l domain ->
  sandboxRoot (tracker w) = runtimeSandboxRoot rt -> realRoot (tracker w) = runtimeRealRoot rt ->
  (forall q, disk w !! joinPath (runtimeSandboxRoot rt) q = disk w0 !! joinPath (runtimeSandboxRoot rt) q) ->
  let w' := fst (forOf l body w) in
  snd (forOf l body w) = Returned tt /\
  sandboxRoot (tracker w') = runtimeSandboxRoot rt /\ realRoot (tracker w') = runtimeRealRoot rt /\
  (forall p, In p l -> disk w' !! joinPath (runtimeRealRoot rt) p = target p) /\
  (forall absPath,
     (forall p, In p l -> joinPath (runtimeRealRoot rt) p <> absPath) ->
     disk w' !! absPath = disk w !! absPath) /\
  (forall p, In p l ->
     JsMap.get (trackedManifest (tracker w')) p = Some (entry p)) /\
  (forall q, ~ In q l ->
     JsMap.get (trackedManifest (tracker w')) q
     = JsMap.get (trackedManifest (tracker w)) q) /\
  (forall q e,
     JsMap.get (baseManifest (tracker w)) q = Some e ->
     JsMap.get (baseManifest (tracker w')) q = Some e) /\
  (forall p, In p l ->
     JsMap.get (baseManifest (tracker w)) p = None ->
     JsMap.get (baseManifest (tracker w')) p
     = Some (entryOf (disk w !! joinPath (runtimeRealRoot rt) p))) /\
  (forall q, ~ In q l ->
     JsMap.get (baseManifest (tracker w')) q
     = JsMap.get (baseManifest (tracker w)) q).
Proof using Hsep Hinj Hstep.
  revert w. induction l as [|x rest IH]; intros w Hincl Hs Hr Hsandbox.
  - cbn [forOf]. unfold ret. cbn [fst snd].
    repeat split; try assumption; try reflexivity; intros;
      try contradiction; auto.
  - assert (Hx : In x domain) by (apply Hincl; now left).
    assert (Hrest : incl rest domain)
      by (intros y Hy; apply Hincl; now right).
    destruct (Hstep x w Hx Hs Hr Hsandbox)
      as (Hret & Hd1 & Ht1 & Hb1 & Hs1 & Hr1).
    cbn [forOf]. unfold bind. destruct (body x w) as [w1 r1].
    cbn [fst snd] in *. subst r1.
    assert (Hsandbox1 : forall q, disk w1 !! joinPath (runtimeSandboxRoot rt) q = disk w0 !! joinPath (runtimeSandboxRoot rt) q).
    { intros q. rewrite Hd1, putOrDelete_lookup.
      destruct (decide (joinPath (runtimeRealRoot rt) x = joinPath (runtimeSandboxRoot rt) q)) as [Heq|_];
        [now apply Hsep in Heq | apply Hsandbox]. }
    destruct (IH w1 Hrest Hs1 Hr1 Hsandbox1)
      as (Hret' & Hs' & Hr' & Hdisk & Hother & Htracked & Htother & Hbkeep
          & Hbnew & Hbother).
    cbv zeta in *.
    assert (Hbase1 : forall q e,
              JsMap.get (baseManifest (tracker w)) q = Some e ->
              JsMap.get (baseManifest (tracker w1)) q = Some e).
    { intros q e Hget. rewrite Hb1.
      destruct (JsMap.has (baseManifest (tracker w)) x) eqn:Hhas; [exact Hget|].
      destruct (string_dec x q) as [->|Hne].
      - unfold JsMap.has in Hhas. now rewrite Hget in Hhas.
      - now rewrite get_set_ne. }
    split; [exact Hret'|]. split; [exact Hs'|]. split; [exact Hr'|].
    split; [|split; [|split; [|split; [|split; [|split]]]]].
    + intros p [<-|Hin].
      * destruct (in_dec string_dec x rest) as [Hin|Hout]; [now apply Hdisk|].
        rewrite Hother.
        -- rewrite Hd1, putOrDelete_lookup.
           now destruct (decide (joinPath (runtimeRealRoot rt) x = joinPath (runtimeRealRoot rt) x)).
        -- intros q Hq Heq. apply Hinj in Heq. now subst q.
      * now apply Hdisk.
    + intros absPath Habs. rewrite Hother.
      * rewrite Hd1, putOrDelete_lookup.
        destruct (decide (joinPath (runtimeRealRoot rt) x = absPath)) as [Heq|_]; [|reflexivity].
        exfalso. apply (Habs x); [now left | exact Heq].
      * intros q Hq. apply Habs. now right.
    + intros p [<-|Hin].
      * destruct (in_dec string_dec x rest) as [Hin|Hout]; [now apply Htracked|].
        rewrite (Htother x Hout), Ht1. apply get_set_eq.
      * now apply Htracked.
    + intros q Hq. rewrite Htother by (intros Hin; apply Hq; now right).
      rewrite Ht1. apply get_set_ne. intros ->. apply Hq. now left.
    + intros q e Hget. apply Hbkeep. now apply Hbase1.
    + intros p Hp Hnone.
      destruct (string_dec x p) as [->|Hne].
      * apply Hbkeep. rewrite Hb1.
        assert (Hhas : JsMap.has (baseManifest (tracker w)) p = false)
          by (unfold JsMap.has; now rewrite Hnone).
        rewrite Hhas. apply get_set_eq.
      * destruct Hp as [->|Hp]; [congruence|].
        rewrite (Hbnew p Hp).
        -- rewrite Hd1, putOrDelete_lookup.
           destruct (decide (joinPath (runtimeRealRoot rt) x = joinPath (runtimeRealRoot rt) p)) as [Heq|_];
             [apply Hinj in Heq; congruence | reflexivity].
        -- rewrite Hb1.
           destruct (JsMap.has (baseManifest (tracker w)) x); [exact Hnone|].
           now rewrite get_set_ne.
    + intros q Hq. rewrite Hbother by (intros Hin; apply Hq; now right).
      rewrite Hb1.
      destruct (JsMap.has (baseManifest (tracker w)) x); [reflexivity|].
      apply get_set_ne. intros ->. apply Hq. now left.
Qed.

End TrackLoop.

Lemma forOf_ext {T : Type} (l : list T) (f g : T -> IO unit) w :
  (forall x, In x l -> forall w, f x w = g x w) ->
  forOf l f w = forOf l g w.
Proof.
  revert w. induction l as [|x l IH]; intros w H; [reflexivity|].
  cbn [forOf]. unfold bind. rewrite (H x) by now left.
  destruct (g x w) as [w1 [[]|message]]; [|reflexivity].
  apply IH. intros y Hy. apply H. now right.
Qed.

Lemma liftIO_seq {U : Type} (c1 c2 : IO unit) (k : unit -> Act ToolState U) s :
  bindA (liftIO c1) (fun _ => bindA (liftIO c2) k) s
  = bindA (liftIO (c1 ;; c2)%io) k s.
Proof.
  unfold bindA, liftIO, bind.
  destruct (c1 (world s)) as [w1 [[]|message]]; cbn [world withWorld];
    [|reflexivity].
  now destruct (c2 w1) as [w2 [[]|message]].
Qed.

Lemma forOf_trackDiff rt (a c r : list string) w :
  (forall p, In p a \/ In p c -> ~ In p r) ->
  (forOf a (trackChanged rt) ;; forOf c (trackChanged rt) ;;
   forOf r (trackRemoved rt))%io w
  = forOf (a ++ c ++ r) (trackDiff rt r) w.
Proof.
  intros Hdisjoint.
  assert (Hchanged : forall l, (forall p, In p l -> In p a \/ In p c) ->
            forall w', forOf l (trackChanged rt) w' = forOf l (trackDiff rt r) w').
  { intros l Hl w'. apply forOf_ext. intros p Hp w''. unfold trackDiff.
    destruct (in_dec string_dec p r) as [Hin|_]; [|reflexivity].
    exfalso. apply (Hdisjoint p); auto. }
  assert (Hremoved : forall w',
            forOf r (trackRemoved rt) w' = forOf r (trackDiff rt r) w').
  { intros w'. apply forOf_ext. intros p Hp w''. unfold trackDiff.
    destruct (in_dec string_dec p r) as [_|Hout]; [reflexivity | contradiction]. }
  rewrite forOf_app. unfold bind at 1 3.
  rewrite (Hchanged a) by auto.
  destruct (forOf a (trackDiff rt r) w) as [w1 [[]|message]]; [|reflexivity].
  rewrite forOf_app. unfold bind.
  rewrite (Hchanged c) by auto.
  destruct (forOf c (trackDiff rt r) w1) as [w2 [[]|message]]; [|reflexivity].
  apply Hremoved.
Qed.

Lemma bind_seq_assoc (c1 c2 c3 : IO unit) w :
  ((c1 ;; c2) ;; c3)%io w = (c1 ;; c2 ;; c3)%io w.
Proof.
  unfold bind. destruct (c1 w) as [w1 [[]|message]]; reflexivity.
Qed.

(** [bashExecute] when the scan succeeds: the three loops run on the
    world the command left, whether the command returned or threw. *)
Lemma bashExecute_eq rt tool matcher s afterStats :
  SandboxState.ignoreMatcher (sandboxState s) = Some matcher ->
  let w1 := withDisk (fst (tool (disk (world s)))) (world s) in
  scanDirectoryStats w1 (SandboxState.sandboxRoot (sandboxState s)) matcher
  = Returned afterStats ->
  let diff := diffSandboxStats (SandboxState.stats (sandboxState s)) afterStats in
  let tracked :=
    (forOf (added diff) (trackChanged rt) ;;
     forOf (changed diff) (trackChanged rt) ;;
     forOf (removed diff) (trackRemoved rt))%io w1 in
  snd tracked = Returned tt ->
  bashExecute rt tool s
  = ({| world := fst tracked;
        sandboxState := SandboxState.withStats afterStats (sandboxState s);
        statusUpdates :=
          if (0 <? length (added diff) + length (changed diff)
                   + length (removed diff))%nat
          then statusUpdates s + 1 else statusUpdates s |},
     match snd (tool (disk (world s))) with
     | Returned result =>
         Returned (rewriteResultPaths result (runtimeSandboxRoot rt)
                                      (runtimeRealRoot rt))
     | Rejected message =>
         Rejected (rewriteError message (runtimeSandboxRoot rt)
                                (runtimeRealRoot rt))
     end).
Proof.
  intros Hmatcher w1 Hscan diff tracked Htracked.
  unfold bashExecute. cbv zeta.
  unfold bindA at 1. unfold getStats.
  unfold bindA at 1. unfold runHost.
  destruct (tool (disk (world s))) as [files outcome] eqn:Htool.
  cbn [fst snd] in *.
  unfold bindA at 1. unfold rescan, bindA at 1, getIgnoreMatcher.
  cbn [sandboxState withWorld world]. rewrite Hmatcher.
  cbn [sandboxState withWorld world]. fold w1. rewrite Hscan.
  unfold bindA at 1. unfold setStats. cbn [sandboxState withWorld world].
  fold diff.
  rewrite liftIO_seq, liftIO_seq, bindA_liftIO.
  cbn [world withWorld withSandboxState].
  rewrite bind_seq_assoc. fold tracked. rewrite Htracked.
  unfold bindA at 1.
  destruct (0 <? length (added diff) + length (changed diff)
                 + length (removed diff))%nat;
    unfold updateStatus, retA, throwA; cbn [world sandboxState statusUpdates
                                               withWorld withSandboxState];
    destruct outcome; reflexivity.
Qed.


Lemma describeChange_same (e : FileState.t) :
  describeChange (Some e) (Some e) = None.
Proof.
  unfold describeChange. cbn [existsOf hashOf].
  destruct (FileState.exists_ e); cbn [negb andb]; [|reflexivity].
  assert (H : strictNeq (FileState.hash e) (FileState.hash e) = false)
    by now apply strictNeq_false.
  now rewrite H.
Qed.

(** X23.  Reading a file starts tracking it, without a change to show.
    For an input path that resolves to a non-empty path [p] inside the
    project root, with the runtime and the tracker on the same sandbox
    root: when the wrapped read tool returns, [readExecute] returns its
    result with the paths rewritten, leaves the files as the tool left
    them, records the snapshot of the sandbox file as the tracked entry of
    [p] and, if [p] had no base entry, as its base entry too, so that
    [describeChange] finds no change for it, and calls the status callback
    once; when the tool throws, the call rejects with the tool's message
    and nothing is tracked. *)
Theorem readExecute_tracks_the_file (rt : Runtime) (inputPath p : string)
    (tool : HostTool) (s : ToolState) (files : gmap string string) :
  toRelativePath (resolveUserPath inputPath (runtimeRealRoot rt))
                 (runtimeRealRoot rt) = Some p ->
  truthy p = true ->
  sandboxRoot (tracker (world s)) = runtimeSandboxRoot rt ->
  let sandboxPath := joinPath (runtimeSandboxRoot rt) p in
  let after := readExecute rt inputPath tool s in
  let w' := world (fst after) in
  (forall result,
     tool (disk (world s)) = (files, Returned result) ->
     snd after
     = Returned (rewriteResultPaths result (runtimeSandboxRoot rt)
                                    (runtimeRealRoot rt)) /\
     disk w' = files /\
     JsMap.get (trackedManifest (tracker w')) p
     = Some (entryOf (files !! sandboxPath)) /\
     (JsMap.get (baseManifest (tracker (world s))) p = None ->
      JsMap.get (baseManifest (tracker w')) p
      = Some (entryOf (files !! sandboxPath)) /\
      describeChange (JsMap.get (baseManifest (tracker w')) p)
                     (JsMap.get (trackedManifest (tracker w')) p) = None) /\
     statusUpdates (fst after) = (statusUpdates s + 1)%nat) /\
  (forall message,
     tool (disk (world s)) = (files, Rejected message) ->
     after = (withWorld (withDisk files (world s)) s, Rejected message)).
Proof.
  intros Hrel Htruthy Hroot. cbv zeta.
  remember (readExecute rt inputPath tool s) as res eqn:Hres.
  unfold readExecute in Hres. rewrite bindA_runHost in Hres.
  split.
  - intros result Htool. rewrite Htool in Hres. cbn [fst snd] in Hres.
    set (s1 := withWorld (withDisk files (world s)) s) in *.
    unfold bindA at 1, trackRead, tryCatch in Hres. cbv zeta in Hres.
    rewrite Hrel in Hres. unfold whenPath in Hres. rewrite Htruthy in Hres.
    rewrite bindA_liftIO in Hres.
    pose proof (ensureBaseFromSandbox_frame p (world s1)) as Hensure.
    cbv zeta in Hensure.
    destruct Hensure as (Hr & Hd1 & Ht1 & Hs1 & _ & _ & Hb1).
    rewrite Hr in Hres.
    set (w2 := fst (ensureBaseFromSandbox p (world s1))) in *.
    rewrite bindA_liftIO in Hres. cbn [world withWorld] in Hres.
    rewrite updateFromSandbox_eq in Hres. cbv zeta in Hres.
    cbn [fst snd] in Hres. unfold updateStatus, retA in Hres.
    cbn [world sandboxState statusUpdates withWorld] in Hres.
    subst res. cbn [fst snd world statusUpdates]. world_simpl.
    unfold s1 in *. cbn [world withWorld] in *. world_simpl.
    rewrite Hd1, Hs1. cbn [disk tracker withDisk sandboxRoot] in *.
    rewrite Hroot in *.
    split; [reflexivity|]. split; [reflexivity|].
    split; [apply get_set_eq|]. split; [|reflexivity].
    intros Hnone.
    assert (Hbase : JsMap.get (baseManifest (tracker w2)) p
                    = Some (entryOf (files !! joinPath (runtimeSandboxRoot rt) p))).
    { rewrite Hb1. unfold JsMap.has. cbn [tracker withDisk]. rewrite Hnone.
      apply get_set_eq. }
    rewrite Hbase. split; [reflexivity|].
    rewrite get_set_eq. apply describeChange_same.
  - intros message Htool. rewrite Htool in Hres. exact Hres.
Qed.

End ToolFacts.

Section IndexFacts.
Context {platform : Platform} {times : FileTimes} {paths : PathLib}
        {manager : SessionManager}.

Lemma sameStacks_refl r : sameStacks r r.
Proof. split; reflexivity. Qed.

Lemma sameStacks_trans r1 r2 r3 :
  sameStacks r1 r2 -> sameStacks r2 r3 -> sameStacks r1 r3.
Proof. intros [H1 H2] [H3 H4]. split; congruence. Qed.

Lemma keepsStacks_bind {T U : Type} (c : Act Running T) (k : T -> Act Running U) :
  keepsStacks c -> (forall v, keepsStacks (k v)) -> keepsStacks (bindA c k).
Proof.
  intros Hc Hk r. unfold bindA. specialize (Hc r).
  destruct (c r) as [r1 [v|message]]; cbn [fst] in *; [|exact Hc].
  eapply sameStacks_trans; [exact Hc | apply Hk].
Qed.

Lemma keepsStacks_ret {T : Type} (v : T) : keepsStacks (retA v).
Proof. intros r. apply sameStacks_refl. Qed.

Lemma keepsStacks_throw {T : Type} message : keepsStacks (@throwA Running T message).
Proof. intros r. apply sameStacks_refl. Qed.

Lemma keepsStacks_liftTool {T : Type} (c : Act ToolState T) :
  keepsStacks (liftTool c).
Proof.
  intros r. unfold liftTool. destruct (c (runtime (session r))).
  split; reflexivity.
Qed.

Lemma keepsStacks_liftHost {T : Type} (c : Host -> Host * Outcome T) :
  keepsStacks (liftHost c).
Proof.
  intros r. unfold liftHost. destruct (c (host r)). split; reflexivity.
Qed.

Lemma keepsStacks_modify f :
  (forall n, undoStack (f n) = undoStack n /\ redoStack (f n) = redoStack n) ->
  keepsStacks (modifyNavigation f).
Proof. intros H r. unfold modifyNavigation, sameStacks. cbn. apply H. Qed.

Lemma keepsStacks_fun {T : Type} (c : Running -> Act Running T) :
  (forall r0, keepsStacks (c r0)) -> keepsStacks (fun r => c r r).
Proof. intros H r. apply H. Qed.

Lemma syncLeafToSession_keepsStacks targetId :
  keepsStacks (syncLeafToSession targetId).
Proof.
  unfold syncLeafToSession.
  apply keepsStacks_bind;
    [destruct targetId; apply keepsStacks_liftHost|intros _].
  apply keepsStacks_bind.
  { apply (keepsStacks_fun (fun r => modifyNavigation
                                        (withCurrentLeafId (getLeafId (host r))))).
    intros r0. apply keepsStacks_modify. intros n. split; reflexivity. }
  intros _. apply keepsStacks_bind.
  { apply (keepsStacks_fun
             (fun r => liftTool
                (liftIO (restoreLeaf targetId
                           [sessionSandboxRoot (session r);
                            sessionRealRoot (session r)])))).
    intros r0. apply keepsStacks_liftTool. }
  intros _. apply keepsStacks_bind; [apply keepsStacks_liftTool|].
  intros stats. apply keepsStacks_liftTool.
Qed.

Lemma applyToolNavigation_eq action r :
  applyToolNavigation action r
  = (let previous := navigation (session r) in
     let targetId := last (ownStack action previous) in
     let popped :=
       match action with
       | actionUndo => withUndoStack (removelast (undoStack previous)) previous
       | actionRedo => withRedoStack (removelast (redoStack previous)) previous
       end in
     if negb (truthyOpt targetId) then
       (withSession (withNavigation popped (session r)) r,
        Returned {| reportTargetId := None;
                    reportMessage :=
                      "No " +:+ actionName action +:+ " history." |})
     else
       let pushed :=
         match action with
         | actionUndo =>
             withRedoStack
               (redoStack popped ++ pushedLeaf (currentLeafId previous)) popped
         | actionRedo =>
             withUndoStack
               (undoStack popped ++ pushedLeaf (currentLeafId previous)) popped
         end in
       tryCatch
         (liftTool (liftIO (saveLeaf (currentLeafId previous))) ;;
          syncLeafToSession targetId ;;
          retA {| reportTargetId := targetId;
                  reportMessage :=
                    actionLabel action
                    +:+ " applied: restored file snapshots for leaf "
                    +:+ match targetId with Some t => t | None => "" end
                    +:+ ". This tool does not update the UI or current turn context; changes apply on the next user prompt." |})%act
         (fun message =>
            modifyNavigation
              (fun n =>
                 withCurrentLeafId (currentLeafId previous)
                   (withRedoStack ([] ++ redoStack previous)
                      (withUndoStack ([] ++ undoStack previous) n))) ;;
            syncLeafToSession (currentLeafId previous) ;;
            throwA ("Undo/redo tool failed: " +:+ message))%act
         (withSession (withNavigation pushed (session r)) r)).
Proof.
  destruct r as [[realRoot sandboxRoot rt [current undo redo flag]] h].
  unfold applyToolNavigation, getNavigation, pop, ownStack, pushedLeaf.
  unfold bindA at 1. cbn [navigation session undoStack redoStack currentLeafId].
  destruct action; cbn [actionName actionLabel];
    unfold bindA at 1, modifyNavigation at 1;
    cbn [navigation session withSession withNavigation host withUndoStack
         withRedoStack undoStack redoStack currentLeafId navigating
         sessionRealRoot sessionSandboxRoot runtime].
  - destruct (truthyOpt (last undo)); cbn [negb]; [|reflexivity].
    destruct current as [leaf|]; cbn [truthyOpt].
    + destruct (truthy leaf); unfold bindA at 1, modifyNavigation at 1, retA at 1;
        cbn [navigation session withSession withNavigation host withUndoStack
             withRedoStack undoStack redoStack currentLeafId navigating
             sessionRealRoot sessionSandboxRoot runtime push];
        rewrite ?app_nil_r; reflexivity.
    + unfold bindA at 1, retA at 1. rewrite app_nil_r. reflexivity.
  - destruct (truthyOpt (last redo)); cbn [negb]; [|reflexivity].
    destruct current as [leaf|]; cbn [truthyOpt].
    + destruct (truthy leaf); unfold bindA at 1, modifyNavigation at 1, retA at 1;
        cbn [navigation session withSession withNavigation host withUndoStack
             withRedoStack undoStack redoStack currentLeafId navigating
             sessionRealRoot sessionSandboxRoot runtime push];
        rewrite ?app_nil_r; reflexivity.
    + unfold bindA at 1, retA at 1. rewrite app_nil_r. reflexivity.
Qed.

Lemma bindA_returned {S T U : Type} (c : Act S T) (k : T -> Act S U) s s' v :
  bindA c k s = (s', Returned v) ->
  exists s1 x, c s = (s1, Returned x) /\ k x s1 = (s', Returned v).
Proof.
  unfold bindA. destruct (c s) as [s1 [x|failure]]; [|discriminate].
  intros H. exists s1, x. split; [reflexivity|exact H].
Qed.

Lemma liftTool_frame {T : Type} (c : Act ToolState T) r :
  navigation (session (fst (liftTool c r))) = navigation (session r) /\
  host (fst (liftTool c r)) = host r.
Proof.
  unfold liftTool. destruct (c (runtime (session r))). split; reflexivity.
Qed.

Lemma syncLeafToSession_current targetId r r' :
  syncLeafToSession targetId r = (r', Returned tt) ->
  currentLeafId (navigation (session r')) = getLeafId (host r').
Proof.
  unfold syncLeafToSession. intros H.
  apply bindA_returned in H as (r1 & [] & _ & H).
  apply bindA_returned in H as (r2 & [] & H2 & H).
  apply bindA_returned in H as (r3 & x3 & H3 & H).
  apply bindA_returned in H as (r4 & stats & H4 & H).
  unfold modifyNavigation in H2. injection H2 as <-.
  pose proof (liftTool_frame (setStats stats) r4) as [Hn5 Hh5].
  pose proof (liftTool_frame rescan r3) as [Hn4 Hh4].
  rewrite H in Hn5, Hh5. rewrite H4 in Hn4, Hh4. cbn [fst] in *.
  match type of H3 with
  | liftTool ?c ?r2 = _ => pose proof (liftTool_frame c r2) as [Hn3 Hh3]
  end.
  rewrite H3 in Hn3, Hh3. cbn [fst] in *.
  rewrite Hn5, Hh5, Hn4, Hh4, Hn3, Hh3. reflexivity.
Qed.

Lemma syncLeafToSession_host targetId r r' :
  syncLeafToSession (Some targetId) r = (r', Returned tt) ->
  branch targetId (host r) = (host r', Returned tt).
Proof.
  unfold syncLeafToSession. intros H.
  apply bindA_returned in H as (r1 & [] & H1 & H).
  apply bindA_returned in H as (r2 & [] & H2 & H).
  apply bindA_returned in H as (r3 & x3 & H3 & H).
  apply bindA_returned in H as (r4 & stats & H4 & H).
  unfold modifyNavigation in H2. injection H2 as <-.
  pose proof (liftTool_frame (setStats stats) r4) as [_ Hh5].
  pose proof (liftTool_frame rescan r3) as [_ Hh4].
  rewrite H in Hh5. rewrite H4 in Hh4. cbn [fst] in *.
  match type of H3 with
  | liftTool ?c ?r2 = _ => pose proof (liftTool_frame c r2) as [_ Hh3]
  end.
  rewrite H3 in Hh3. cbn [fst host withSession] in *.
  rewrite Hh5, Hh4, Hh3.
  unfold liftHost in H1. destruct (branch targetId (host r)) as [h o].
  injection H1 as <- ->. reflexivity.
Qed.

(** X24. When the navigation of the [undo_redo] tool throws, both stacks
    are as they were before the call. *)
Theorem applyToolNavigation_failure_restores_stacks action r message :
  snd (applyToolNavigation action r) = Rejected message ->
  undoStack (navigation (session (fst (applyToolNavigation action r))))
  = undoStack (navigation (session r)) /\
  redoStack (navigation (session (fst (applyToolNavigation action r))))
  = redoStack (navigation (session r)).
Proof.
  rewrite applyToolNavigation_eq. cbv zeta.
  destruct (negb (truthyOpt _)); [discriminate|].
  unfold tryCatch.
  match goal with
  | |- context [let (_, _) := ?body ?r2 in _] =>
      destruct (body r2) as [r3 [v|failure]]
  end; [discriminate|].
  intros _. unfold bindA at 1 3, modifyNavigation at 1 2.
  match goal with
  | |- context [bindA (syncLeafToSession ?prev) ?k ?r4] =>
      pose proof (syncLeafToSession_keepsStacks prev r4) as [Hundo Hredo];
      unfold bindA;
      destruct (syncLeafToSession prev r4) as [r5 [[]|failure2]]
  end; cbn [fst throwA] in *; rewrite Hundo, Hredo; split; reflexivity.
Qed.

Lemma applyToolNavigation_returned action r report :
  snd (applyToolNavigation action r) = Returned report ->
  let n := navigation (session r) in
  let r' := fst (applyToolNavigation action r) in
  let n' := navigation (session r') in
  ownStack action n' = removelast (ownStack action n) /\
  match reportTargetId report with
  | Some targetId =>
      last (ownStack action n) = Some targetId /\ truthy targetId = true /\
      otherStack action n'
      = otherStack action n ++ pushedLeaf (currentLeafId n) /\
      currentLeafId n' = getLeafId (host r') /\
      branch targetId (host r) = (host r', Returned tt)
  | None =>
      truthyOpt (last (ownStack action n)) = false /\
      otherStack action n' = otherStack action n /\
      currentLeafId n' = currentLeafId n /\
      runtime (session r') = runtime (session r) /\ host r' = host r
  end.
Proof.
  rewrite applyToolNavigation_eq. cbv zeta.
  destruct (truthyOpt (last (ownStack action (navigation (session r)))))
    eqn:Htarget; cbn [negb].
  2:{ intros H. injection H as <-. cbn [fst reportTargetId].
      destruct action; cbn; repeat split; reflexivity. }
  unfold tryCatch.
  match goal with
  | |- context [let (_, _) := ?body ?r2 in _] =>
      destruct (body r2) as [r3 [v|failure]] eqn:Hbody
  end.
  2:{ intros Hthrown. exfalso. revert Hthrown.
      unfold bindA at 1, modifyNavigation at 1.
      unfold bindA.
      match goal with
      | |- context [syncLeafToSession ?prev ?r4] =>
          destruct (syncLeafToSession prev r4) as [r5 [[]|failure2]]
      end; discriminate. }
  intros H. cbn [snd fst] in *. injection H as ->.
  unfold bindA at 1 in Hbody.
  pose proof (keepsStacks_liftTool
                (liftIO (saveLeaf (currentLeafId (navigation (session r))))))
    as Hsave.
  match type of Hbody with
  | context [liftTool ?c ?r2] =>
      specialize (Hsave r2);
      assert (Hhost : currentLeafId (navigation (session (fst (liftTool c r2))))
                      = currentLeafId (navigation (session r2)))
        by (unfold liftTool; destruct (c (runtime (session r2))); reflexivity);
      assert (Hhost0 : host (fst (liftTool c r2)) = host r)
        by (unfold liftTool; destruct (c (runtime (session r2))); reflexivity);
      destruct (liftTool c r2) as [r2' [[]|failure]]
  end; [|discriminate].
  cbn [fst] in Hsave. unfold bindA in Hbody.
  pose proof (syncLeafToSession_keepsStacks
                (last (ownStack action (navigation (session r)))) r2') as Hsync.
  destruct (syncLeafToSession _ r2') as [r4 [[]|failure]] eqn:Esync;
    [|discriminate].
  pose proof Esync as Ecurrent. apply syncLeafToSession_current in Ecurrent.
  unfold retA in Hbody. injection Hbody as -> <-. cbn [fst reportTargetId] in *.
  destruct Hsync as [Hu Hr], Hsave as [Hu' Hr'].
  destruct (last (ownStack action (navigation (session r)))) as [targetId|]
    eqn:Hlast; [|discriminate].
  cbn [truthyOpt] in Htarget.
  apply syncLeafToSession_host in Esync.
  cbn [fst] in Hhost0. rewrite Hhost0 in Esync.
  destruct action; cbn [ownStack otherStack] in *;
    rewrite Hu, Hr, Hu', Hr'; cbn; repeat split; auto.
Qed.

(** X25. When the navigation of the [undo_redo] tool returns, the
    action's stack has lost its last id.  With a target in the result,
    that id was the target and is not empty, the previous leaf is pushed
    on the other stack unless it is missing or empty, and the current leaf
    is the session manager's.  Without one, the id was missing or empty
    and nothing else has changed. *)
Theorem applyToolNavigation_success_moves_leaf action r report :
  snd (applyToolNavigation action r) = Returned report ->
  let n := navigation (session r) in
  let r' := fst (applyToolNavigation action r) in
  let n' := navigation (session r') in
  ownStack action n' = removelast (ownStack action n) /\
  match reportTargetId report with
  | Some targetId =>
      last (ownStack action n) = Some targetId /\ truthy targetId = true /\
      otherStack action n'
      = otherStack action n ++ pushedLeaf (currentLeafId n) /\
      currentLeafId n' = getLeafId (host r')
  | None =>
      truthyOpt (last (ownStack action n)) = false /\
      otherStack action n' = otherStack action n /\
      currentLeafId n' = currentLeafId n /\
      runtime (session r') = runtime (session r) /\ host r' = host r
  end.
Proof.
  intros Hreturned.
  pose proof (applyToolNavigation_returned action r report Hreturned) as H.
  cbv zeta in *. destruct H as [Hown Hrest]. split; [exact Hown|].
  destruct (reportTargetId report) as [targetId|]; [|exact Hrest].
  destruct Hrest as (H1 & H2 & H3 & H4 & _). auto.
Qed.

Lemma saveLeaf_cases leafId w :
  saveLeaf leafId w
  = match leafId with
    | Some id =>
        if truthy id then
          (let snapshot := JsMap.new_Map (trackedManifest (tracker w)) in
           {| disk := disk w;
              cacheStore :=
                withLeavesDir (<[id := snapshot]> (leavesDir (cacheStore w)))
                              (cacheStore w);
              tracker := withLeafCache
                           (JsMap.set (leafCache (tracker w)) id snapshot)
                           (tracker w);
              statsLog := statsLog w |}, Returned tt)
        else (w, Returned tt)
    | None => (w, Returned tt)
    end.
Proof.
  destruct leafId as [id|]; [|reflexivity].
  destruct (truthy id) eqn:Hid; [apply saveLeaf_eq; exact Hid|].
  unfold saveLeaf. rewrite Hid. reflexivity.
Qed.

Lemma saveCurrentLeaf_spec r :
  let w := world (runtime (session r)) in
  let res := bindA getNavigation
               (fun current =>
                  liftTool (liftIO (saveLeaf (currentLeafId current)))) r in
  let w' := world (runtime (session (fst res))) in
  snd res = Returned tt /\ host (fst res) = host r /\
  navigation (session (fst res)) = navigation (session r) /\
  disk w' = disk w /\
  trackedManifest (tracker w') = trackedManifest (tracker w) /\
  match currentLeafId (navigation (session r)) with
  | Some id =>
      if truthy id then
        leavesDir (cacheStore w') !! id
        = Some (JsMap.new_Map (trackedManifest (tracker w)))
      else w' = w
  | None => w' = w
  end.
Proof.
  destruct r as [[realRoot sandboxRoot [w sandbox updates]
                  [current undo redo flag]] h].
  cbv zeta. unfold bindA, getNavigation, liftTool, liftIO.
  cbn [navigation session currentLeafId runtime world].
  rewrite saveLeaf_cases.
  destruct current as [id|]; [destruct (truthy id)|];
    cbn; repeat split; try reflexivity.
  apply lookup_insert_eq.
Qed.


Lemma handleSessionTree_spec newLeafId oldLeafId r :
  let n := navigation (session r) in
  let res := handleSessionTree newLeafId oldLeafId r in
  host (fst res) = host r /\
  world (runtime (session (fst res)))
  = fst (restoreLeaf newLeafId
           [sessionSandboxRoot (session r); sessionRealRoot (session r)]
           (world (runtime (session r)))) /\
  navigation (session (fst res))
  = match snd res with
    | Returned _ => sessionAfterTree newLeafId oldLeafId n
    | Rejected _ =>
        withNavigating (navigating n) (sessionAfterTree newLeafId oldLeafId n)
    end.
Proof.
  destruct r as [[realRoot sandboxRoot [w sandbox updates]
                  [current undo redo flag]] h].
  cbv zeta. remember (handleSessionTree _ _ _) as res eqn:Hres.
  unfold handleSessionTree in Hres.
  unfold bindA at 1, modifyNavigation at 1 in Hres.
  cbn [navigation session withSession withNavigation host runtime
       sessionRealRoot sessionSandboxRoot world] in *.
  unfold bindA at 1, liftTool at 1, liftIO at 1 in Hres.
  cbn [navigation session withSession withNavigation host runtime
       sessionRealRoot sessionSandboxRoot world withRuntime withWorld
       sandboxState statusUpdates] in Hres.
  destruct (restoreLeaf newLeafId [sandboxRoot; realRoot] w) as [w2 [[]|m2]].
  2:{ subst res; cbn; unfold sessionAfterTree; cbn;
      destruct (negb flag && truthyOpt oldLeafId
                && strictNeq oldLeafId newLeafId);
      [destruct oldLeafId|]; repeat split; reflexivity. }
  unfold bindA at 1, liftTool at 1, rescan, bindA at 1, getIgnoreMatcher
    in Hres.
  cbn [navigation session withSession withNavigation host runtime
       sessionRealRoot sessionSandboxRoot world withRuntime withWorld
       sandboxState statusUpdates] in Hres.
  destruct (SandboxState.ignoreMatcher sandbox) as [matcher|].
  2:{ subst res; cbn; unfold sessionAfterTree; cbn;
      destruct (negb flag && truthyOpt oldLeafId
                && strictNeq oldLeafId newLeafId);
      [destruct oldLeafId|]; repeat split; reflexivity. }
  cbn [navigation session withSession withNavigation host runtime
       sessionRealRoot sessionSandboxRoot world withRuntime withWorld
       sandboxState statusUpdates] in Hres.
  destruct (scanDirectoryStats w2 (SandboxState.sandboxRoot sandbox) matcher)
    as [stats|m3].
  2:{ subst res; cbn; unfold sessionAfterTree; cbn;
      destruct (negb flag && truthyOpt oldLeafId
                && strictNeq oldLeafId newLeafId);
      [destruct oldLeafId|]; repeat split; reflexivity. }
  subst res; cbn; unfold sessionAfterTree; cbn;
    destruct (negb flag && truthyOpt oldLeafId
              && strictNeq oldLeafId newLeafId);
    [destruct oldLeafId|]; repeat split; reflexivity.
Qed.

(** X27. The handler of [session_tree] leaves the session manager alone
    and does to the files what [restoreLeaf] of the new leaf over the
    sandbox and the real root does.  The new leaf becomes the current one,
    and the old leaf is pushed on the undo stack when the move is not the
    extension's own ([navigating] is off), the old leaf is not missing or
    empty and differs from the new one; [navigating] is switched off when
    the handler returns, and left as it is when it throws. *)
Theorem handleSessionTree_moves_the_session newLeafId oldLeafId r :
  let n := navigation (session r) in
  let res := handleSessionTree newLeafId oldLeafId r in
  let n' := navigation (session (fst res)) in
  host (fst res) = host r /\
  world (runtime (session (fst res)))
  = fst (restoreLeaf newLeafId
           [sessionSandboxRoot (session r); sessionRealRoot (session r)]
           (world (runtime (session r)))) /\
  currentLeafId n' = newLeafId /\
  redoStack n' = redoStack n /\
  undoStack n'
  = (if negb (navigating n) && strictNeq oldLeafId newLeafId
     then undoStack n ++ pushedLeaf oldLeafId
     else undoStack n) /\
  navigating n'
  = match snd res with
    | Returned _ => false
    | Rejected _ => navigating n
    end.
Proof.
  cbv zeta.
  destruct (handleSessionTree_spec newLeafId oldLeafId r) as (Hh & Hw & Hn).
  cbv zeta in Hh, Hw, Hn. rewrite Hh, Hw, Hn.
  split; [reflexivity|]. split; [reflexivity|].
  unfold sessionAfterTree, pushedLeaf.
  destruct (navigating (navigation (session r))), oldLeafId as [old|];
    cbn [negb andb truthyOpt];
    try destruct (truthy old) eqn:Hold; cbn [negb andb];
    try destruct (strictNeq (Some old) newLeafId);
    try destruct (strictNeq None newLeafId);
    destruct (snd (handleSessionTree _ _ r)); cbn;
    rewrite ?app_nil_r; repeat split; reflexivity.
Qed.

Lemma Forall_removelast {A : Type} (P : A -> Prop) (l : list A) :
  Forall P l -> Forall P (removelast l).
Proof.
  induction 1 as [|x l Hx Hl IH]; [constructor|].
  cbn. destruct l; [constructor|]. constructor; assumption.
Qed.

Lemma Forall_pushedLeaf leaf :
  Forall (fun id => truthy id = true) (pushedLeaf leaf).
Proof.
  destruct leaf as [leaf|]; cbn; [|constructor].
  destruct (truthy leaf) eqn:H; repeat constructor. exact H.
Qed.

Lemma sessionAfterTree_stacks newLeafId oldLeafId n :
  stacksHoldIds n -> stacksHoldIds (sessionAfterTree newLeafId oldLeafId n).
Proof.
  intros [Hu Hr]. unfold sessionAfterTree, stacksHoldIds.
  destruct (negb (navigating n) && truthyOpt oldLeafId
            && strictNeq oldLeafId newLeafId) eqn:Hpush; cbn;
    [|split; assumption].
  destruct oldLeafId as [old|]; cbn; [|split; assumption].
  split; [|assumption]. apply Forall_app_2; [assumption|].
  repeat constructor.
  destruct (navigating n); [discriminate|]. cbn in Hpush.
  destruct (truthy old); [reflexivity|discriminate].
Qed.

(** X28. Every id on the undo and redo stacks stays non-empty through the
    handlers of [turn_end] and [session_tree] and the navigation of the
    [undo_redo] tool, whatever their outcome. *)
Theorem handlers_keep_stack_ids call r :
  stacksHoldIds (navigation (session r)) ->
  stacksHoldIds (navigation (session (runHandler call r))).
Proof.
  intros Hr. pose proof Hr as [Hundo Hredo].
  destruct call as [message|newLeafId oldLeafId|action]; cbn [runHandler].
  - remember (handleTurnEnd message r) as res eqn:Hres.
    unfold handleTurnEnd in Hres.
    destruct (isToolCallTurn message); [subst res; exact Hr|].
    cbv beta zeta in Hres. unfold bindA at 1 in Hres.
    match type of Hres with
    | res = (let (_, _) := ?c r in _) =>
        assert (Hfirst : snd (c r) = Returned tt /\
                         stacksHoldIds (navigation (session (fst (c r)))));
        [|destruct (c r) as [r1 [[]|failure]];
          [|destruct Hfirst; discriminate]]
    end.
    { destruct (_ && _); [|split; [reflexivity|exact Hr]].
      unfold modifyNavigation. cbn. split; [reflexivity|].
      destruct (currentLeafId (navigation (session r))) as [leaf|];
        cbn [truthyOpt]; [|split; assumption].
      destruct (truthy leaf) eqn:Hleaf; [|split; assumption].
      split; [|assumption]. cbn. apply Forall_app_2; [assumption|].
      repeat constructor. exact Hleaf. }
    destruct (saveCurrentLeaf_spec r1) as (_ & _ & Hn & _).
    rewrite <- Hres in Hn. rewrite Hn. apply Hfirst.
  - destruct (handleSessionTree_spec newLeafId oldLeafId r) as (_ & _ & Hn).
    cbv zeta in Hn. rewrite Hn.
    pose proof (sessionAfterTree_stacks newLeafId oldLeafId _ Hr) as Hafter.
    destruct (snd (handleSessionTree _ _ r)); exact Hafter.
  - rewrite applyToolNavigation_eq. cbv zeta.
    destruct (negb (truthyOpt _)).
    { unfold stacksHoldIds.
      destruct action;
        cbn [fst session navigation withSession withNavigation withUndoStack
             withRedoStack undoStack redoStack];
        split; try apply Forall_removelast; assumption. }
    unfold tryCatch.
    match goal with
    | |- context [let (_, _) := bindA ?c ?k ?r2 in _] =>
        assert (Hbody : keepsStacks (bindA c k));
        [|specialize (Hbody r2);
          destruct (bindA c k r2) as [r3 [v|failure]]]
    end.
    { apply keepsStacks_bind; [apply keepsStacks_liftTool|intros _].
      apply keepsStacks_bind; [apply syncLeafToSession_keepsStacks|intros _].
      apply keepsStacks_ret. }
    + destruct Hbody as [Hu Hr']. cbn [fst] in *. split.
      * rewrite Hu.
        destruct action;
          cbn [fst session navigation withSession withNavigation withUndoStack
               withRedoStack undoStack redoStack];
          try apply Forall_app_2; try apply Forall_removelast;
          try apply Forall_pushedLeaf; assumption.
      * rewrite Hr'.
        destruct action;
          cbn [fst session navigation withSession withNavigation withUndoStack
               withRedoStack undoStack redoStack];
          try apply Forall_app_2; try apply Forall_removelast;
          try apply Forall_pushedLeaf; assumption.
    + unfold bindA at 1, modifyNavigation at 1.
      match goal with
      | |- context [bindA (syncLeafToSession ?prev) ?k ?r4] =>
          pose proof (syncLeafToSession_keepsStacks prev r4) as [Hu Hr'];
          unfold bindA;
          destruct (syncLeafToSession prev r4) as [r5 [[]|failure2]]
      end; cbn [fst throwA] in *; split; rewrite ?Hu, ?Hr';
        cbn [fst session navigation withSession withNavigation withUndoStack
             withRedoStack withCurrentLeafId undoStack redoStack app];
        assumption.
Qed.

Lemma navigateTo_by_tree_event ctx n targetId :
  navigatesByTreeEvent ctx ->
  navigateTo ctx n targetId
  = (withNavigating false (withCurrentLeafId (Some targetId) n), []).
Proof.
  intros (wait & nav & Hwait & Hnav & Hidle & Htree).
  unfold navigateTo. rewrite Hwait, Hnav, Hidle, Htree.
  cbn [cancelled]. unfold sessionAfterTree.
  cbn [withNavigating navigating negb andb].
  destruct n; reflexivity.
Qed.

(** X29. With a host whose [navigateTree] hands the move from the current
    leaf to the target to [handleSessionTree], which succeeds: for a
    session with a non-empty current leaf and a non-empty id on top of the
    undo stack, [/undo] makes that id the current leaf, pops it and pushes
    the old leaf on the redo stack, without a notice; [/redo] after it
    gives back the session as it was. *)
Theorem undo_then_redo_round_trip ctx s leaf targetId rest :
  navigatesByTreeEvent ctx ->
  currentLeafId s = Some leaf -> truthy leaf = true ->
  undoStack s = rest ++ [targetId] -> truthy targetId = true ->
  navigating s = false ->
  undoCommand ctx (Some s)
  = (Some {| currentLeafId := Some targetId; undoStack := rest;
             redoStack := redoStack s ++ [leaf]; navigating := false |}, []) /\
  redoCommand ctx (fst (undoCommand ctx (Some s))) = (Some s, []).
Proof.
  intros Hctx Hcurrent Hleaf Hundo Htarget Hflag.
  destruct s as [current undo redo flag]. cbn in Hcurrent, Hundo, Hflag.
  subst current undo flag.
  assert (Hfirst :
    undoCommand ctx
      (Some {| currentLeafId := Some leaf; undoStack := rest ++ [targetId];
               redoStack := redo; navigating := false |})
    = (Some {| currentLeafId := Some targetId; undoStack := rest;
               redoStack := redo ++ [leaf]; navigating := false |}, [])).
  { unfold undoCommand. cbn [undoStack]. rewrite pop_snoc, Htarget.
    cbn [currentLeafId withUndoStack truthyOpt]. rewrite Hleaf.
    rewrite (navigateTo_by_tree_event _ _ _ Hctx). reflexivity. }
  split; [exact Hfirst|]. rewrite Hfirst. cbn [fst redoStack].
  unfold redoCommand. cbn [redoStack]. rewrite pop_snoc, Hleaf.
  cbn [currentLeafId withRedoStack truthyOpt]. rewrite Htarget.
  rewrite (navigateTo_by_tree_event _ _ _ Hctx). reflexivity.
Qed.

Lemma removelast_last_Some (l : list string) (x : string) :
  last l = Some x -> removelast l ++ [x] = l.
Proof.
  destruct l as [|y l _] using rev_ind; [discriminate|].
  rewrite last_snoc. intros H. injection H as ->.
  now rewrite removelast_last.
Qed.

Lemma strictNeq_same a : strictNeq a a = false.
Proof. destruct a as [x|]; [|reflexivity]. cbn. now rewrite String.eqb_refl. Qed.

Lemma strictNeq_current a b n :
  currentLeafId (if strictNeq a b then withCurrentLeafId a n else n)
  = (if strictNeq a b then a else currentLeafId n).
Proof. now destruct (strictNeq a b). Qed.

Lemma executeNavigation_returned action r r' response :
  executeNavigation action r = (r', Returned response) ->
  getLeafId (host r) = currentLeafId (navigation (session r)) \/
  strictNeq (getLeafId (host r)) (currentLeafId (navigation (session r))) = true ->
  exists r0 report,
    host r0 = host r /\
    undoStack (navigation (session r0)) = undoStack (navigation (session r)) /\
    redoStack (navigation (session r0)) = redoStack (navigation (session r)) /\
    currentLeafId (navigation (session r0)) = getLeafId (host r) /\
    applyToolNavigation action r0 = (r', Returned report) /\
    responseTargetId response = reportTargetId report.
Proof.
  unfold executeNavigation. intros H Hleaf.
  apply bindA_returned in H as (r0 & [] & H0 & H).
  apply bindA_returned in H as (r1 & report & H1 & H).
  unfold retA in H. injection H as -> <-.
  unfold modifyNavigation in H0. injection H0 as <-.
  exists (withSession
            (withNavigation
               (if strictNeq (getLeafId (host r))
                             (currentLeafId (navigation (session r)))
                then withCurrentLeafId (getLeafId (host r))
                                       (navigation (session r))
                else navigation (session r)) (session r)) r), report.
  cbn [host withSession session withNavigation navigation responseTargetId].
  repeat split; try assumption.
  - now destruct (strictNeq _ _).
  - now destruct (strictNeq _ _).
  - rewrite strictNeq_current. destruct Hleaf as [Heq|Hne].
    + rewrite Heq, strictNeq_same. reflexivity.
    + now rewrite Hne.
Qed.

Lemma strictNeq_cases a b : a = b \/ strictNeq a b = true.
Proof.
  destruct a as [x|], b as [y|]; cbn; auto.
  destruct (String.eqb x y) eqn:E; [left|right; reflexivity].
  apply String.eqb_eq in E. now subst.
Qed.

(** X30. Undo and redo through the [undo_redo] tool undo each other.  Let
    [branch] of the session manager make the entry the leaf whenever it
    returns, and let the leaf of the session manager be non-empty.  If
    the tool's [undo] returns with a target and its [redo] right after
    returns too, then the [redo] targets the leaf the session was on, the
    undo and redo stacks are what they were before the [undo], and the
    session and the session manager are back on that leaf. *)
Theorem tool_undo_then_redo_round_trip r r1 r2 response1 response2 leaf :
  branchSetsLeaf ->
  getLeafId (host r) = Some leaf -> truthy leaf = true ->
  executeNavigation actionUndo r = (r1, Returned response1) ->
  responseTargetId response1 <> None ->
  executeNavigation actionRedo r1 = (r2, Returned response2) ->
  responseTargetId response2 = Some leaf /\
  undoStack (navigation (session r2)) = undoStack (navigation (session r)) /\
  redoStack (navigation (session r2)) = redoStack (navigation (session r)) /\
  currentLeafId (navigation (session r2)) = Some leaf /\
  getLeafId (host r2) = Some leaf.
Proof.
  intros Hbranch Hleaf Htruthy Hundo Htarget Hredo.
  apply executeNavigation_returned in Hundo
    as (r0 & report1 & Hh0 & Hu0 & Hr0 & Hc0 & Hundo & Ht1);
    [|apply strictNeq_cases].
  pose proof (applyToolNavigation_returned actionUndo r0 report1) as H1.
  rewrite Hundo in H1. specialize (H1 eq_refl). cbv zeta in H1.
  cbn [fst ownStack otherStack] in H1. destruct H1 as [Hown1 Hrest1].
  rewrite Ht1 in Htarget.
  destruct (reportTargetId report1) as [targetId|]; [|contradiction].
  destruct Hrest1 as (Hlast1 & Htruthy1 & Hother1 & Hcurrent1 & Hbranch1).
  apply Hbranch in Hbranch1.
  rewrite Hc0, Hleaf in Hother1. cbn [pushedLeaf] in Hother1.
  rewrite Htruthy in Hother1.
  apply executeNavigation_returned in Hredo
    as (r0' & report2 & Hh0' & Hu0' & Hr0' & Hc0' & Hredo & Ht2);
    [|apply strictNeq_cases].
  pose proof (applyToolNavigation_returned actionRedo r0' report2) as H2.
  rewrite Hredo in H2. specialize (H2 eq_refl). cbv zeta in H2.
  cbn [fst ownStack otherStack] in H2. destruct H2 as [Hown2 Hrest2].
  rewrite Hr0', Hother1 in Hown2, Hrest2.
  rewrite last_snoc in Hrest2. rewrite removelast_last in Hown2.
  rewrite Hu0', Hown1, Hc0', Hbranch1 in Hrest2.
  cbn [pushedLeaf truthyOpt] in Hrest2. rewrite Htruthy1, Htruthy in Hrest2.
  rewrite Ht2.
  destruct (reportTargetId report2) as [targetId2|];
    [|destruct Hrest2 as (Hfalse & _); discriminate].
  destruct Hrest2 as (Hlast2 & _ & Hother2 & Hcurrent2 & Hbranch2).
  injection Hlast2 as <-.
  rewrite Hh0' in Hbranch2. apply Hbranch in Hbranch2.
  split; [reflexivity|]. split.
  - rewrite Hother2, Hu0. rewrite Hu0 in Hlast1.
    now apply removelast_last_Some.
  - split; [rewrite Hown2, Hr0; reflexivity|].
    split; [rewrite Hcurrent2; exact Hbranch2|exact Hbranch2].
Qed.

End IndexFacts.

(** * The further theorems at concrete inputs *)

Section ExtraInstances.

#[local] Existing Instance Fixture.platform.
#[local] Existing Instance ToolFixture.reader.
#[local] Existing Instance ToolFixture.times.
#[local] Existing Instance ToolFixture.paths.
#[local] Existing Instance ToolFixture.manager.

Ltac split_In :=
  repeat match goal with
         | H : _ \/ _ |- _ => destruct H as [H|H]
         | H : False |- _ => destruct H
         | H : (_, _) = (_, _) |- _ => injection H as <- <-
         end.

Lemma restoreLeaf_leaves_other_paths_witness :
  disk (fst (restoreLeaf None ["/sandbox"; "/real"] Fixture.world1))
    !! "/real/other.txt"
  = disk Fixture.world1 !! "/real/other.txt" /\
  disk (fst (restoreLeaf None ["/sandbox"; "/real"] Fixture.world1))
    !! "/elsewhere/gone.txt"
  = disk Fixture.world1 !! "/elsewhere/gone.txt".
Proof.
  destruct (restoreLeaf_leaves_other_paths None ["/sandbox"; "/real"]
              Fixture.world1) as (_ & _ & Hframe).
  split; apply Hframe; intros manifest root p Heff Hroot Hp;
    injection Heff as <-; simpl in Hroot, Hp; split_In; subst;
    vm_compute; discriminate.
Defined.

Lemma restoreLeaf_missing_blob_rejects_witness :
  (exists message,
     snd (restoreLeaf None ["/real"] ToolFixture.world1NoBlobs)
     = Rejected message) /\
  trackedManifest
    (tracker (fst (restoreLeaf None ["/real"] ToolFixture.world1NoBlobs)))
  = [] /\
  snd (restoreLeaf None [] ToolFixture.world1NoBlobs) = Returned tt.
Proof.
  destruct (restoreLeaf_missing_blob_rejects None ToolFixture.world1NoBlobs
              (baseManifest (tracker Fixture.world1)) eq_refl)
    as [Hrejects (Hreturns & _)].
  destruct (Hrejects "/real" [] "note.txt" Fixture.helloEntry "sha256:hello")
    as (Hmessage & Htracked & _);
    [simpl; auto | reflexivity | reflexivity | reflexivity | reflexivity |].
  exact (conj Hmessage (conj Htracked Hreturns)).
Defined.


Lemma baseManifest_write_once_witness :
  JsMap.get
    (baseManifest
       (tracker (fst (runTrackerCall (CallEnsureBaseFromDisk "new.txt")
                                     Fixture.world1))))
    "note.txt"
  = Some Fixture.helloEntry.
Proof.
  assert (Hcall : CallEnsureBaseFromDisk "new.txt" <> CallLoadBase)
    by discriminate.
  destruct (baseManifest_write_once (CallEnsureBaseFromDisk "new.txt")
              Fixture.world1 Hcall) as [_ Hkept].
  apply Hkept. reflexivity.
Defined.

Lemma blobs_append_only_witness :
  contentAddressed
    (blobsDir
       (cacheStore (fst (runTrackerCall (CallUpdateFromSandbox "a.txt")
                                        Fixture.world3)))).
Proof.
  destruct (blobs_append_only (CallUpdateFromSandbox "a.txt") Fixture.world3)
    as [_ Haddressed].
  apply Haddressed. intros h buffer Hblob. simpl in Hblob.
  rewrite lookup_empty in Hblob. discriminate.
Defined.

Lemma saveLeaf_loadLeaf_snapshot_witness :
  snd (loadLeaf "leaf-1" (fst (saveLeaf (Some "leaf-1") Fixture.world2)))
  = Returned (Some (trackedManifest (tracker Fixture.world2))) /\
  snd (loadLeaf "leaf-1"
         (fst (runTrackerOp (MarkDeleted "note.txt")
                 (fst (saveLeaf (Some "leaf-1") Fixture.world2)))))
  = Returned (Some (trackedManifest (tracker Fixture.world2))).
Proof.
  destruct (saveLeaf_loadLeaf_snapshot Fixture.world2) as [Hsaved _].
  destruct (Hsaved "leaf-1" eq_refl) as [Hload Hlater].
  split.
  - rewrite Hload. reflexivity.
  - exact (Hlater (MarkDeleted "note.txt")).
Defined.


Lemma updateFromSandbox_content_readable_witness :
  exists entry,
    snd (updateFromSandbox "a.txt" Fixture.world3) = Returned entry /\
    FileState.exists_ entry = true /\
    FileState.hash entry = Some "sha256:same" /\
    FileState.size entry = Some 4 /\
    JsMap.get
      (trackedManifest (tracker (fst (updateFromSandbox "a.txt" Fixture.world3))))
      "a.txt" = Some entry /\
    readBlob "sha256:same" (fst (updateFromSandbox "a.txt" Fixture.world3))
    = (fst (updateFromSandbox "a.txt" Fixture.world3), Returned "same").
Proof.
  exact (updateFromSandbox_content_readable "a.txt" "same" Fixture.world3
           eq_refl eq_refl (or_introl eq_refl)).
Defined.


Lemma world3_ensured_blobsAvailable :
  blobsAvailable
    (blobsDir (cacheStore (fst (ensureBase "a.txt" "/sandbox" Fixture.world3))))
    (baseManifest (tracker (fst (ensureBase "a.txt" "/sandbox" Fixture.world3)))).
Proof.
  intros p e h Hin He Hh Ht. vm_compute in Hin. split_In; subst;
    simpl in He, Hh; try discriminate.
  injection Hh as <-. now exists "same".
Qed.

Lemma world3_ensured_pathsDistinct :
  pathsDistinct ["/sandbox"; "/real"]
    (baseManifest (tracker (fst (ensureBase "a.txt" "/sandbox" Fixture.world3)))).
Proof.
  intros r r' p q Hr Hr' Hp Hq Heq. vm_compute in Hp, Hq. simpl in Hr, Hr'.
  split_In; subst; try (split; reflexivity); vm_compute in Heq; discriminate.
Qed.


Lemma generateDiffString_no_change_is_empty_witness :
  @generateDiffString ToolFixture.wholeTextPlatform
    (Fixture.text Fixture.kept) (Fixture.text Fixture.kept) 4
  = ("", None).
Proof.
  apply (@generateDiffString_no_change_is_empty ToolFixture.wholeTextPlatform).
  repeat constructor.
Defined.

Lemma formatDiffText_messages_witness :
  snd (formatDiffText None (Some FileState.absent) Fixture.world1)
  = Returned "No changes recorded." /\
  (exists message,
     snd (formatDiffText None (Some Fixture.helloEntry)
                         ToolFixture.world1NoBlobs)
     = Rejected message).
Proof.
  split.
  - destruct (formatDiffText_messages None (Some FileState.absent)
                Fixture.world1) as (_ & _ & Hnone & _).
    apply Hnone; reflexivity.
  - destruct (formatDiffText_messages None (Some Fixture.helloEntry)
                ToolFixture.world1NoBlobs) as (_ & _ & _ & _ & Hmissing).
    apply (Hmissing eq_refl (Some Fixture.helloEntry) "sha256:hello");
      auto.
Defined.



Lemma updateSandboxStatsForFile_refreshes_one_path_witness :
  JsMap.get
    (updateSandboxStatsForFile "/sandbox"
       [("b.txt", SandboxEntryStats.mk 1 1)] "a.txt" (fun _ => false)
       Fixture.world3) "a.txt"
  = Some (SandboxEntryStats.mk 4 1004) /\
  JsMap.get
    (updateSandboxStatsForFile "/sandbox"
       [("b.txt", SandboxEntryStats.mk 1 1)] "a.txt" (fun _ => false)
       Fixture.world3) "b.txt"
  = Some (SandboxEntryStats.mk 1 1).
Proof.
  assert (Hwf : JsMap.wf [("b.txt", SandboxEntryStats.mk 1 1)]).
  { unfold JsMap.wf. simpl. apply NoDup_ListNoDup.
    repeat constructor; simpl; intuition discriminate. }
  destruct (updateSandboxStatsForFile_refreshes_one_path "/sandbox"
              [("b.txt", SandboxEntryStats.mk 1 1)] "a.txt" (fun _ => false)
              Fixture.world3 Hwf) as (_ & Hpath & Hothers & _).
  split.
  - rewrite Hpath. reflexivity.
  - rewrite (Hothers "b.txt"); [reflexivity|discriminate].
Defined.

Lemma diffSandboxStats_reversed_witness :
  diffSandboxStats [("a", SandboxEntryStats.mk 1 100);
                    ("b", SandboxEntryStats.mk 2 200)]
                   [("a", SandboxEntryStats.mk 1 100);
                    ("b", SandboxEntryStats.mk 2 200)]
  = {| added := []; removed := []; changed := [] |}.
Proof.
  destruct (diffSandboxStats_reversed
              [("a", SandboxEntryStats.mk 1 100);
               ("b", SandboxEntryStats.mk 2 200)]
              [("a", SandboxEntryStats.mk 1 100);
               ("b", SandboxEntryStats.mk 2 200)]) as (_ & _ & _ & Hself).
  apply Hself. unfold JsMap.wf. simpl. apply NoDup_ListNoDup.
  repeat constructor; simpl; intuition discriminate.
Defined.

Lemma toPosix_fromPosix_round_trip_witness :
  @fromPosix ToolFixture.windowsPaths
    (@toPosix ToolFixture.windowsPaths "foo\bar\baz")
  = "foo\bar\baz" /\
  @toPosix ToolFixture.windowsPaths "foo\bar\baz" = "foo/bar/baz".
Proof.
  destruct (@toPosix_fromPosix_round_trip ToolFixture.windowsPaths
              "foo\bar\baz") as (Hposix & _ & Hback & _).
  split.
  - apply Hback. left. reflexivity.
  - rewrite Hposix. reflexivity.
Defined.


Lemma readExecute_tracks_the_file_witness :
  snd (readExecute ToolFixture.runtime0 "a.txt" ToolFixture.readTool
                   ToolFixture.tools0)
  = Returned (ToolFixture.said "same") /\
  describeChange
    (JsMap.get
       (baseManifest
          (tracker (world (fst (readExecute ToolFixture.runtime0 "a.txt"
                                  ToolFixture.readTool ToolFixture.tools0)))))
       "a.txt")
    (JsMap.get
       (trackedManifest
          (tracker (world (fst (readExecute ToolFixture.runtime0 "a.txt"
                                  ToolFixture.readTool ToolFixture.tools0)))))
       "a.txt")
  = None /\
  readExecute ToolFixture.runtime0 "a.txt" ToolFixture.failingTool
              ToolFixture.tools0
  = (ToolFixture.tools0, Rejected "no match in /sandbox/a.txt").
Proof.
  pose proof (readExecute_tracks_the_file ToolFixture.runtime0 "a.txt" "a.txt"
                ToolFixture.readTool ToolFixture.tools0 (disk Fixture.world3)
                eq_refl eq_refl eq_refl) as Hread.
  pose proof (readExecute_tracks_the_file ToolFixture.runtime0 "a.txt" "a.txt"
                ToolFixture.failingTool ToolFixture.tools0
                (disk Fixture.world3) eq_refl eq_refl eq_refl) as Hfail.
  cbv zeta in Hread, Hfail.
  destruct Hread as (Hreturned & _), Hfail as (_ & Hthrown).
  destruct (Hreturned (ToolFixture.said "same") eq_refl)
    as (Hresult & _ & _ & Hbase & _).
  destruct (Hbase eq_refl) as (_ & Hsame).
  refine (conj _ (conj Hsame _)).
  - rewrite Hresult. reflexivity.
  - rewrite (Hthrown "no match in /sandbox/a.txt" eq_refl). reflexivity.
Defined.

Lemma fixture_roots_apart (p q : string) :
  joinPath "/real" p <> joinPath "/sandbox" q.
Proof. vm_compute. discriminate. Qed.

Lemma fixture_joinPath_injective (p q : string) :
  joinPath "/real" p = joinPath "/real" q -> p = q.
Proof. intros H. vm_compute in H. now injection H. Qed.


Lemma applyToolNavigation_failure_restores_stacks_witness :
  snd (applyToolNavigation actionUndo ToolFixture.runningLost)
  = Rejected "Undo/redo tool failed: Entry lost not found" /\
  undoStack (navigation (session (fst (applyToolNavigation
                                         actionUndo ToolFixture.runningLost))))
  = ["leaf-0"; "lost"] /\
  redoStack (navigation (session (fst (applyToolNavigation
                                         actionUndo ToolFixture.runningLost))))
  = ["leaf-3"].
Proof.
  assert (Hthrown :
    snd (applyToolNavigation actionUndo ToolFixture.runningLost)
    = Rejected "Undo/redo tool failed: Entry lost not found")
    by (vm_compute; reflexivity).
  split; [exact Hthrown|].
  exact (applyToolNavigation_failure_restores_stacks actionUndo
           ToolFixture.runningLost _ Hthrown).
Defined.

Lemma applyToolNavigation_success_moves_leaf_witness :
  undoStack (navigation (session (fst (applyToolNavigation
                                         actionUndo ToolFixture.running0))))
  = ["leaf-0"] /\
  redoStack (navigation (session (fst (applyToolNavigation
                                         actionUndo ToolFixture.running0))))
  = ["leaf-3"; "leaf-2"] /\
  currentLeafId (navigation (session (fst (applyToolNavigation
                                             actionUndo ToolFixture.running0))))
  = Some "leaf-1".
Proof.
  assert (Hreturned :
    snd (applyToolNavigation actionUndo ToolFixture.running0)
    = Returned
        {| reportTargetId := Some "leaf-1";
           reportMessage :=
             "Undo applied: restored file snapshots for leaf leaf-1. This tool does not update the UI or current turn context; changes apply on the next user prompt." |})
    by (vm_compute; reflexivity).
  pose proof (applyToolNavigation_success_moves_leaf actionUndo
                ToolFixture.running0 _ Hreturned) as Hmoved.
  cbv zeta in Hmoved. cbn [reportTargetId] in Hmoved.
  destruct Hmoved as (Hown & _ & _ & Hother & Hcurrent).
  refine (conj (eq_trans Hown eq_refl) (conj (eq_trans Hother eq_refl) _)).
  rewrite Hcurrent. vm_compute. reflexivity.
Defined.

Lemma handlers_keep_stack_ids_witness :
  stacksHoldIds
    (navigation
       (session (runHandler (CallSessionTree (Some "leaf-9") (Some "leaf-2"))
                            ToolFixture.running0))) /\
  stacksHoldIds
    (navigation
       (session (runHandler (CallToolNavigation actionRedo)
                            ToolFixture.running0))).
Proof.
  assert (Hids : stacksHoldIds (navigation (session ToolFixture.running0)))
    by (split; repeat constructor).
  split; apply handlers_keep_stack_ids; exact Hids.
Defined.

Lemma treeCtx_navigatesByTreeEvent : navigatesByTreeEvent ToolFixture.treeCtx.
Proof.
  eexists _, _. split; [reflexivity|]. split; [reflexivity|].
  split; reflexivity.
Qed.

Lemma undo_then_redo_round_trip_witness :
  undoCommand ToolFixture.treeCtx (Some ToolFixture.navigation0)
  = (Some {| currentLeafId := Some "leaf-1"; undoStack := ["leaf-0"];
             redoStack := ["leaf-3"; "leaf-2"]; navigating := false |}, []) /\
  redoCommand ToolFixture.treeCtx
    (fst (undoCommand ToolFixture.treeCtx (Some ToolFixture.navigation0)))
  = (Some ToolFixture.navigation0, []).
Proof.
  exact (undo_then_redo_round_trip ToolFixture.treeCtx ToolFixture.navigation0
           "leaf-2" "leaf-1" ["leaf-0"] treeCtx_navigatesByTreeEvent
           eq_refl eq_refl eq_refl eq_refl eq_refl).
Defined.

Lemma fixture_branchSetsLeaf : branchSetsLeaf.
Proof.
  intros entryId h h' Hbranch. cbn in Hbranch.
  destruct (String.eqb entryId "lost"); [discriminate|].
  injection Hbranch as <-. reflexivity.
Qed.

Lemma tool_undo_then_redo_round_trip_witness :
  undoStack
    (navigation
       (session (fst (executeNavigation actionRedo
                        (fst (executeNavigation actionUndo
                                                ToolFixture.running0))))))
  = ["leaf-0"; "leaf-1"] /\
  redoStack
    (navigation
       (session (fst (executeNavigation actionRedo
                        (fst (executeNavigation actionUndo
                                                ToolFixture.running0))))))
  = ["leaf-3"] /\
  currentLeafId
    (navigation
       (session (fst (executeNavigation actionRedo
                        (fst (executeNavigation actionUndo
                                                ToolFixture.running0))))))
  = Some "leaf-2".
Proof.
  assert (Hundo :
    executeNavigation actionUndo ToolFixture.running0
    = (fst (executeNavigation actionUndo ToolFixture.running0),
       Returned
         {| responseText :=
              "Undo applied: restored file snapshots for leaf leaf-1. This tool does not update the UI or current turn context; changes apply on the next user prompt.";
            responseTargetId := Some "leaf-1";
            responseIsError := false |}))
    by (vm_compute; reflexivity).
  assert (Hredo :
    executeNavigation actionRedo
      (fst (executeNavigation actionUndo ToolFixture.running0))
    = (fst (executeNavigation actionRedo
              (fst (executeNavigation actionUndo ToolFixture.running0))),
       Returned
         {| responseText :=
              "Redo applied: restored file snapshots for leaf leaf-2. This tool does not update the UI or current turn context; changes apply on the next user prompt.";
            responseTargetId := Some "leaf-2";
            responseIsError := false |}))
    by (vm_compute; reflexivity).
  assert (Htarget : Some "leaf-1" <> (None : option string)) by discriminate.
  destruct (tool_undo_then_redo_round_trip ToolFixture.running0 _ _ _ _
              "leaf-2" fixture_branchSetsLeaf eq_refl eq_refl Hundo Htarget
              Hredo) as (_ & Hu & Hr & Hc & _).
  exact (conj Hu (conj Hr Hc)).
Defined.

End ExtraInstances.
